(** * logs-go: the rotating file writer of [writer/files/file.go]

    A shallow embedding of package [fileout]: the size- and time-bounded
    rotating writer ([getWriter], [Write], [Sync], [close]), the helper that
    strips the temporary marker ([rename], [renameFile]) and the sweep of the
    maintenance worker ([stduffHandler]).

    Go's [int], [int64] and [time.Duration] are 64-bit integers: they are
    modelled as [Z] with the wrap-around written out ([wrap64]).  A Go
    [string] is a [string] of bytes.  The writer's mutable struct is a record
    threaded, together with the process environment ([World]: file system,
    clock, random source), through a small state monad whose outcomes also
    record a nil dereference ([Panic]) and an exhausted loop budget
    ([OutOfFuel]).  The mutex [mu] is not modelled: every operation below is
    one critical section. *)

From Stdlib Require Import ZArith List String Ascii Bool Lia DecimalString
  DecimalZ.
Import ListNotations.
Local Open Scope string_scope.
Local Open Scope Z_scope.

(** ** Fixed-width integers *)

Definition minInt64 : Z := - 2 ^ 63.
Definition maxInt64 : Z := 2 ^ 63 - 1.

(** Two's complement reduction of a mathematical integer to [int64]. *)
Definition wrap64 (z : Z) : Z := (z + 2 ^ 63) mod 2 ^ 64 - 2 ^ 63.

Definition add64 (a b : Z) : Z := wrap64 (a + b).
Definition mul64 (a b : Z) : Z := wrap64 (a * b).

Definition inInt64 (z : Z) : Prop := minInt64 <= z <= maxInt64.

(** ** Package [time] *)

(** A [time.Duration] is an [int64] count of nanoseconds. *)
Definition Duration := Z.

(** A [time.Time] is an instant, here the number of nanoseconds elapsed
    since the zero [Time] (January 1, year 1 UTC); the zero value of the
    struct is [0]. *)
Definition Time := Z.

Definition Nanosecond : Duration := 1.
Definition Microsecond : Duration := 1000 * Nanosecond.
Definition Millisecond : Duration := 1000 * Microsecond.
Definition Second : Duration := 1000 * Millisecond.
Definition Minute : Duration := 60 * Second.
Definition Hour : Duration := 60 * Minute.

Definition minDuration : Duration := minInt64.
Definition maxDuration : Duration := maxInt64.

(** [t.Sub(u)]: the difference, saturated to the range of [Duration]. *)
Definition Time_Sub (t u : Time) : Duration :=
  let d := t - u in
  if d <? minDuration then minDuration
  else if maxDuration <? d then maxDuration
  else d.

(** [d.Milliseconds()] is [int64(d) / 1e6], Go's truncating division. *)
Definition Milliseconds (d : Duration) : Z := Z.quot d 1000000.

(** ** Package [strings] *)

(** [strings.Index(s, substr) >= 0]. *)
Definition Contains (s substr : string) : bool :=
  match index 0 substr s with
  | Some _ => true
  | None => false
  end.

(** [strings.HasSuffix]: [len(s) >= len(suffix) &&
    s[len(s)-len(suffix):] == suffix]. *)
Definition HasSuffix (s suffix : string) : bool :=
  (String.length suffix <=? String.length s)%nat
  && String.eqb
       (substring (String.length s - String.length suffix)
                  (String.length suffix) s)
       suffix.

(** The loop of [strings.genSplit] for a non-empty separator: cut at the
    leftmost occurrence and go on with the rest.  Go bounds the loop by the
    number of pieces [n], itself clamped to [len(s)+1]; [n] is the budget
    here. *)
Fixpoint genSplit (n : nat) (s sep : string) : list string :=
  match n with
  | O => [s]
  | S n' =>
      match index 0 sep s with
      | None => [s]
      | Some m =>
          substring 0 m s
          :: genSplit n'
               (substring (m + String.length sep)
                          (String.length s - (m + String.length sep)) s)
               sep
      end
  end.

(** [strings.Split(s, sep)] for [sep <> ""]. *)
Definition Split (s sep : string) : list string :=
  genSplit (String.length s) s sep.

(** ** Errors *)

(** The [error] values that reach the writer: failures of system calls,
    package [bufio]'s and [os]'s sentinels, and messages built by
    [fmt.Errorf]. *)
Inductive error : Type :=
| ErrNotExist
| ErrPermission
| ErrIO
| ErrClosed
| ErrShortWrite
| ErrBadPattern
| Errorf (msg : string).

(** [err.Error()]. *)
Definition Error (e : error) : string :=
  match e with
  | ErrNotExist => "no such file or directory"
  | ErrPermission => "permission denied"
  | ErrIO => "input/output error"
  | ErrClosed => "file already closed"
  | ErrShortWrite => "short write"
  | ErrBadPattern => "syntax error in pattern"
  | Errorf msg => msg
  end.

(** ** The process environment *)

(** The calls the writer makes to the operating system and to its user.
    A [World] keeps the calls made so far, the most recent first. *)
Inductive Call : Type :=
| CallStat (name : string)
| CallMkdirAll (path : string)
| CallOpenFile (name : string)
| CallClose (fd : nat)
| CallWrite (fd : nat) (len : N)
| CallRename (oldpath newpath : string)
| CallRemove (name : string)
| CallGlob (pattern : string)
| CallStuffunc (fullPathName : string).

Record Inode : Type := mkInode {
  i_size : Z;
  i_modTime : Time
}.

(** What the writer's code can observe of its surroundings: the regular
    files by path, the open descriptors and the path each was opened at,
    the wall clock read by [time.Now], the instant returned by the package
    hook [currentTime], the stream behind [globalRand], and which system
    calls fail (permissions, full disk, ...). *)
Record World : Type := mkWorld {
  files : string -> option Inode;
  fds : nat -> option string;
  nextfd : nat;
  clock : Time;
  startClock : Time;
  randsrc : list Z;
  fault : Call -> option error;
  trace : list Call
}.

Definition set_files (f : string -> option Inode) (wd : World) : World :=
  mkWorld f (fds wd) (nextfd wd) (clock wd) (startClock wd) (randsrc wd)
          (fault wd) (trace wd).

Definition set_fds (f : nat -> option string) (nx : nat) (wd : World) : World :=
  mkWorld (files wd) f nx (clock wd) (startClock wd) (randsrc wd)
          (fault wd) (trace wd).

Definition set_randsrc (r : list Z) (wd : World) : World :=
  mkWorld (files wd) (fds wd) (nextfd wd) (clock wd) (startClock wd) r
          (fault wd) (trace wd).

Definition called (c : Call) (wd : World) : World :=
  mkWorld (files wd) (fds wd) (nextfd wd) (clock wd) (startClock wd)
          (randsrc wd) (fault wd) (c :: trace wd).

Definition upd_file (name : string) (v : option Inode)
    (f : string -> option Inode) : string -> option Inode :=
  fun q => if String.eqb q name then v else f q.

Definition upd_fd (fd : nat) (v : option string)
    (f : nat -> option string) : nat -> option string :=
  fun k => if Nat.eqb k fd then v else f k.

(** *** Package [os] *)

Record FileInfo : Type := mkFileInfo {
  fi_Name : string;
  fi_Size : Z;
  fi_ModTime : Time
}.

(** An [*os.File]: the name it was opened with and its descriptor. *)
Record File : Type := mkFile {
  Name : string;
  Fd : nat
}.

Fixpoint string_rev (s : string) : string :=
  match s with
  | EmptyString => EmptyString
  | String c s' => string_rev s' ++ String c EmptyString
  end.

Fixpoint trimSlashes (r : string) : string :=
  match r with
  | String "/" (String _ _ as r') => trimSlashes r'
  | _ => r
  end.

Fixpoint upToSlash (r : string) : string :=
  match r with
  | EmptyString => EmptyString
  | String c r' => if Ascii.eqb c "/" then EmptyString else String c (upToSlash r')
  end.

(** [os.basename], the [Name()] of what [os.Stat] returns: trailing slashes
    are removed (the first byte stays), then the leading directories. *)
Definition basename (name : string) : string :=
  match trimSlashes (string_rev name) with
  | EmptyString => EmptyString
  | String c r => string_rev (String c (upToSlash r))
  end.

(** What [os.Stat] returns: the call reads the environment and leaves it
    as it is, but for the record of the call. *)
Definition stat (name : string) (wd : World) : FileInfo + error :=
  match fault wd (CallStat name) with
  | Some e => inr e
  | None =>
      match files wd name with
      | Some i => inl (mkFileInfo (basename name) (i_size i) (i_modTime i))
      | None => inr ErrNotExist
      end
  end.

(** [os.Stat], and the package variable [os_Stat] that holds it. *)
Definition os_Stat (name : string) (wd : World) : (FileInfo + error) * World :=
  (stat name wd, called (CallStat name) wd).

(** [os.Rename]: the file moves to [newpath], replacing what was there;
    descriptors opened at [oldpath] follow it. *)
Definition os_Rename (oldpath newpath : string) (wd : World) : option error * World :=
  let wd := called (CallRename oldpath newpath) wd in
  match fault wd (CallRename oldpath newpath) with
  | Some e => (Some e, wd)
  | None =>
      match files wd oldpath with
      | None => (Some ErrNotExist, wd)
      | Some i =>
          let wd := set_files (upd_file newpath (Some i)
                                 (upd_file oldpath None (files wd))) wd in
          let moved := fun k =>
            match fds wd k with
            | Some p => Some (if String.eqb p oldpath then newpath else p)
            | None => None
            end in
          (None, set_fds moved (nextfd wd) wd)
      end
  end.

(** [os.Remove]. *)
Definition os_Remove (name : string) (wd : World) : option error * World :=
  let wd := called (CallRemove name) wd in
  match fault wd (CallRemove name) with
  | Some e => (Some e, wd)
  | None =>
      match files wd name with
      | None => (Some ErrNotExist, wd)
      | Some _ => (None, set_files (upd_file name None (files wd)) wd)
      end
  end.

(** [os.MkdirAll(path, 0755)]; directories are not part of [World], the
    call only succeeds or fails. *)
Definition os_MkdirAll (path : string) (wd : World) : option error * World :=
  let wd := called (CallMkdirAll path) wd in
  (fault wd (CallMkdirAll path), wd).

(** [os.OpenFile(name, os.O_CREATE|os.O_APPEND|os.O_WRONLY, 0644)]: an
    existing file is opened as it is, a missing one is created empty. *)
Definition os_OpenFile (name : string) (wd : World) : (File + error) * World :=
  let wd := called (CallOpenFile name) wd in
  match fault wd (CallOpenFile name) with
  | Some e => (inr e, wd)
  | None =>
      let wd :=
        match files wd name with
        | Some _ => wd
        | None => set_files (upd_file name (Some (mkInode 0 (clock wd))) (files wd)) wd
        end in
      let fd := nextfd wd in
      (inl (mkFile name fd), set_fds (upd_fd fd (Some name) (fds wd)) (S fd) wd)
  end.

(** [f.Close()]: the descriptor is released even when the call reports an
    error; closing twice is [ErrClosed]. *)
Definition File_Close (f : File) (wd : World) : option error * World :=
  let wd := called (CallClose (Fd f)) wd in
  match fds wd (Fd f) with
  | None => (Some ErrClosed, wd)
  | Some _ =>
      (fault wd (CallClose (Fd f)),
       set_fds (upd_fd (Fd f) None (fds wd)) (nextfd wd) wd)
  end.

(** [f.Write(p)] with [len(p) = len]: the file takes all the bytes or the
    call fails with none written. *)
Definition File_Write (f : File) (len : N) (wd : World) : N * option error * World :=
  let wd := called (CallWrite (Fd f) len) wd in
  match fds wd (Fd f) with
  | None => (0%N, Some ErrClosed, wd)
  | Some path =>
      match fault wd (CallWrite (Fd f) len) with
      | Some e => (0%N, Some e, wd)
      | None =>
          match files wd path with
          | Some i =>
              (len, None,
               set_files (upd_file path
                            (Some (mkInode (add64 (i_size i) (Z.of_N len)) (clock wd)))
                            (files wd)) wd)
          | None => (len, None, wd)
          end
      end
  end.

(** [time.Now()]. *)
Definition time_Now (wd : World) : Time := clock wd.

(** The package variable [currentTime] ("log start time"), a hook that is
    [time.Now] unless replaced: the instant it returns is the
    environment's [startClock], a reading of the clock when the hook is
    left as it is. *)
Definition currentTime (wd : World) : Time := startClock wd.

(** [globalRand.Intn(n)] for [n > 0]: the next value of the source,
    reduced to [0 <= r < n]. *)
Definition Intn (n : Z) (wd : World) : Z * World :=
  match randsrc wd with
  | [] => (0, wd)
  | r :: rest => (r mod n, set_randsrc rest wd)
  end.

(** *** Package [bufio] *)

(** A [*bufio.Writer]: the file behind it, [len(b.buf)], the number [b.n]
    of buffered bytes and the sticky error. *)
Record Writer : Type := mkWriter {
  b_wr : File;
  b_len : N;
  b_n : N;
  b_err : option error
}.

Definition Available (b : Writer) : N := (b_len b - b_n b)%N.

(** [bufio.NewWriterSize(f, size)]. *)
Definition NewWriterSize (f : File) (size : Z) : Writer :=
  mkWriter f (if size <=? 0 then 4096%N else Z.to_N size) 0%N None.

(** [b.Reset(f)]: drops what is buffered, clears the error, writes to [f]
    from now on. *)
Definition Reset (b : Writer) (f : File) : Writer :=
  mkWriter f (b_len b) 0%N None.

(** [b.Flush()]. *)
Definition Flush (b : Writer) (wd : World) : option error * Writer * World :=
  match b_err b with
  | Some e => (Some e, b, wd)
  | None =>
      if (b_n b =? 0)%N then (None, b, wd)
      else
        let '(n, err, wd) := File_Write (b_wr b) (b_n b) wd in
        let err :=
          match err with
          | None => if (n <? b_n b)%N then Some ErrShortWrite else None
          | Some e => Some e
          end in
        match err with
        | Some e => (Some e, mkWriter (b_wr b) (b_len b) (b_n b - n)%N (Some e), wd)
        | None => (None, mkWriter (b_wr b) (b_len b) 0%N None, wd)
        end
  end.

(** The loop of [b.Write(p)], on the length [p] of what is left to write
    and the count [nn] already taken: a large write into an empty buffer
    goes to the file directly, otherwise the buffer is filled and
    flushed. *)
Fixpoint Writer_loop (fuel : nat) (b : Writer) (p nn : N) (wd : World)
    : Writer * N * N * World :=
  match fuel with
  | O => (b, p, nn, wd)
  | S fuel' =>
      match b_err b with
      | None =>
          if (Available b <? p)%N then
            if (b_n b =? 0)%N then
              let '(n, err, wd) := File_Write (b_wr b) p wd in
              Writer_loop fuel' (mkWriter (b_wr b) (b_len b) (b_n b) err)
                          (p - n)%N (nn + n)%N wd
            else
              let n := N.min (Available b) p in
              let '(_, b', wd) :=
                Flush (mkWriter (b_wr b) (b_len b) (b_n b + n)%N (b_err b)) wd in
              Writer_loop fuel' b' (p - n)%N (nn + n)%N wd
          else (b, p, nn, wd)
      | Some _ => (b, p, nn, wd)
      end
  end.

(** [b.Write(p)] for [len(p) = len]: the number of bytes accepted and the
    error.  The loop body runs at most twice, as a write to the file takes
    everything or fails. *)
Definition Writer_Write (b : Writer) (len : N) (wd : World)
    : N * option error * Writer * World :=
  let '(b, p, nn, wd) := Writer_loop 3 b len 0%N wd in
  match b_err b with
  | Some e => (nn, Some e, b, wd)
  | None =>
      let n := N.min (Available b) p in
      ((nn + n)%N, None, mkWriter (b_wr b) (b_len b) (b_n b + n)%N (b_err b), wd)
  end.

(** ** Package [fileout] *)

Definition defaultMaxSize : Z := 100.
Definition defaultBufSize : Z := 4.
Definition randnum : Z := 10.
Definition templog : string := ".tmp".

Definition megabyte : Z := 1024 * 1024.

(** [dittotime = int64(5 * time.Minute)]: five minutes, in nanoseconds. *)
Definition dittotime : Z := wrap64 (5 * Minute).

(** The two [patternConversionRegexps], each with its replacement by ["*"]:
    [%[%+A-Za-z]] and [\*+]. *)
Definition isDirective (c : ascii) : bool :=
  let k := nat_of_ascii c in
  Ascii.eqb c "%" || Ascii.eqb c "+"
  || ((65 <=? k) && (k <=? 90))%nat || ((97 <=? k) && (k <=? 122))%nat.

Fixpoint replaceDirectives (s : string) : string :=
  match s with
  | EmptyString => EmptyString
  | String a s' =>
      match s' with
      | String c rest =>
          if Ascii.eqb a "%" && isDirective c
          then String "*" (replaceDirectives rest)
          else String a (replaceDirectives s')
      | EmptyString => String a EmptyString
      end
  end.

Fixpoint replaceStars (s : string) : string :=
  match s with
  | EmptyString => EmptyString
  | String a s' =>
      if Ascii.eqb a "*" then
        match s' with
        | String "*" _ => replaceStars s'
        | _ => String "*" (replaceStars s')
        end
      else String a (replaceStars s')
  end.

Module Options.

(** [type Options struct]. *)
Record t : Type := mk {
  gtr : string;
  bufSize : Z;
  maxSize : Z;
  maxAge : Z;
  rotationTime : Duration;
  requriedTimezone : bool;
  stuffunc : option (string -> World -> World)
}.

(** [&Options{}]. *)
Definition zero : t := mk "" 0 0 0 0 false None.

End Options.

Definition Option := Options.t -> Options.t.

Definition WithGenerationRule (gtr : string) : Option :=
  fun o => Options.mk gtr (Options.bufSize o) (Options.maxSize o) (Options.maxAge o)
             (Options.rotationTime o) (Options.requriedTimezone o) (Options.stuffunc o).

Definition WithNorequriedTimezone : Option :=
  fun o => Options.mk (Options.gtr o) (Options.bufSize o) (Options.maxSize o)
             (Options.maxAge o) (Options.rotationTime o) false (Options.stuffunc o).

Definition WithBufSize (mb : Z) : Option :=
  fun o => Options.mk (Options.gtr o) mb (Options.maxSize o) (Options.maxAge o)
             (Options.rotationTime o) (Options.requriedTimezone o) (Options.stuffunc o).

Definition WithMaxSize (mb : Z) : Option :=
  fun o => Options.mk (Options.gtr o) (Options.bufSize o) mb (Options.maxAge o)
             (Options.rotationTime o) (Options.requriedTimezone o) (Options.stuffunc o).

Definition WithMaxAge (day : Z) : Option :=
  fun o => Options.mk (Options.gtr o) (Options.bufSize o) (Options.maxSize o) day
             (Options.rotationTime o) (Options.requriedTimezone o) (Options.stuffunc o).

Definition WithRotationTime (t : Duration) : Option :=
  fun o => Options.mk (Options.gtr o) (Options.bufSize o) (Options.maxSize o)
             (Options.maxAge o) t (Options.requriedTimezone o) (Options.stuffunc o).

(** As in the source, [WithStuffunc] takes a duration and stores it in
    [rotationTime]. *)
Definition WithStuffunc (t : Duration) : Option :=
  fun o => Options.mk (Options.gtr o) (Options.bufSize o) (Options.maxSize o)
             (Options.maxAge o) t (Options.requriedTimezone o) (Options.stuffunc o).

(** The collaborators of the writer that live in other packages of the
    repository ([logs-go/strftime], [logs-go/utils]) or in the standard
    library, taken as parameters: the compiled pattern and its
    constructor, the name generator, [filepath.Glob] and [filepath.Dir]. *)
Class Externals : Type := {
  Strftime : Type;
  strftime_New : string -> Strftime + error;
  GenRolaFileName : Strftime -> Time -> Duration -> Z -> bool -> string -> string;
  filepath_Glob : string -> World -> list string + error;
  filepath_Dir : string -> string
}.

(** [rename]: the path with its last temporary marker stripped; the empty
    string when there is no marker. *)
Fixpoint rename_range (lenth n : nat) (filenames : list string) (name : string) : string :=
  match filenames with
  | [] => name
  | spe :: rest =>
      let name :=
        if (n <? lenth - 2)%nat then name ++ (spe ++ templog) else name in
      let name :=
        if (n =? lenth - 2)%nat && negb (String.eqb spe "") then name ++ spe else name in
      rename_range lenth (S n) rest name
  end.

Definition rename (old : string) : string :=
  let filenames := Split old templog in
  let lenth := List.length filenames in
  if (lenth =? 2)%nat then nth 0 filenames ""
  else if (2 <? lenth)%nat then rename_range lenth 0 filenames ""
  else "".

(** [renameFile]. *)
Definition renameFile (fullName : string) (wd : World) : option error * World :=
  let na := rename fullName in
  if negb (String.eqb na "") then os_Rename fullName na wd
  else (None, wd).

Section Model.

Context {ext : Externals}.

(** [type fileout struct].  [oldStuff] is the channel of capacity one
    ([None] before it is made, otherwise what it buffers); [startMill] tells
    whether the [sync.Once] has fired, that is, whether the maintenance
    goroutine runs. *)
Record fileout : Type := mkFileout {
  opt : Options.t;
  strf : Strftime;
  currTime : Time;
  match_ : string;
  w : option Writer;
  fr : option File;
  size : Z;
  generation : Z;
  oldStuff : option (list string);
  startMill : bool
}.

Definition set_currTime (t : Time) (d : fileout) : fileout :=
  mkFileout (opt d) (strf d) t (match_ d) (w d) (fr d) (size d) (generation d)
            (oldStuff d) (startMill d).

Definition set_w (b : option Writer) (d : fileout) : fileout :=
  mkFileout (opt d) (strf d) (currTime d) (match_ d) b (fr d) (size d) (generation d)
            (oldStuff d) (startMill d).

Definition set_fr (f : option File) (d : fileout) : fileout :=
  mkFileout (opt d) (strf d) (currTime d) (match_ d) (w d) f (size d) (generation d)
            (oldStuff d) (startMill d).

Definition set_size (n : Z) (d : fileout) : fileout :=
  mkFileout (opt d) (strf d) (currTime d) (match_ d) (w d) (fr d) n (generation d)
            (oldStuff d) (startMill d).

Definition set_generation (g : Z) (d : fileout) : fileout :=
  mkFileout (opt d) (strf d) (currTime d) (match_ d) (w d) (fr d) (size d) g
            (oldStuff d) (startMill d).

Definition set_oldStuff (c : option (list string)) (d : fileout) : fileout :=
  mkFileout (opt d) (strf d) (currTime d) (match_ d) (w d) (fr d) (size d) (generation d)
            c (startMill d).

Definition set_startMill (b : bool) (d : fileout) : fileout :=
  mkFileout (opt d) (strf d) (currTime d) (match_ d) (w d) (fr d) (size d) (generation d)
            (oldStuff d) b.

(** [NewFileout]. *)
Definition NewFileout (name : string) (opts : list Option) : fileout + error :=
  let o := fold_left (fun o op => op o) opts Options.zero in
  match strftime_New name with
  | inr err => inr (Errorf ("time format invalid " ++ Error err))
  | inl sf =>
      let match0 := replaceDirectives name ++ "*" in
      let match1 := replaceStars match0 ++ "*" in
      inl (mkFileout o sf 0 match1 None None 0 0 None false)
  end.

(** *** The methods that read the configuration *)

Definition maxSize (l : fileout) : Z :=
  if Options.maxSize (opt l) <=? 0 then wrap64 (defaultMaxSize * megabyte)
  else mul64 (Options.maxSize (opt l)) megabyte.

Definition bufsize (l : fileout) : Z :=
  if Options.bufSize (opt l) <? 0 then 1024
  else if Options.bufSize (opt l) =? 0 then mul64 defaultBufSize megabyte
  else mul64 (Options.bufSize (opt l)) megabyte.

Definition rotationTime (l : fileout) : Duration :=
  if Options.rotationTime (opt l) <? 0 then 0
  else if Options.rotationTime (opt l) <? Minute then Minute
  else mul64 (Options.rotationTime (opt l)) Minute.

Definition maxAge (l : fileout) : Duration :=
  if 0 <? Options.maxAge (opt l)
  then mul64 (mul64 (Options.maxAge (opt l)) 24) Hour
  else 24 * 365 * Hour.

(** *** The monad of the methods that change the writer *)

Inductive outcome (A : Type) : Type :=
| Ok (a : A) (d : fileout) (wd : World)
| Panic
| OutOfFuel.

Arguments Ok {A} a d wd.
Arguments Panic {A}.
Arguments OutOfFuel {A}.

Definition M (A : Type) : Type := fileout -> World -> outcome A.

Definition ret {A : Type} (a : A) : M A := fun d wd => Ok a d wd.

Definition bind {A B : Type} (m : M A) (k : A -> M B) : M B :=
  fun d wd =>
    match m d wd with
    | Ok a d' wd' => k a d' wd'
    | Panic => Panic
    | OutOfFuel => OutOfFuel
    end.

Definition this : M fileout := fun d wd => Ok d d wd.

Definition modify (f : fileout -> fileout) : M unit := fun d wd => Ok tt (f d) wd.

Definition world {A : Type} (f : World -> A * World) : M A :=
  fun d wd => let '(a, wd') := f wd in Ok a d wd'.

Definition ask {A : Type} (f : World -> A) : M A := fun d wd => Ok (f wd) d wd.

Definition panic {A : Type} : M A := fun _ _ => Panic.

Definition outOfFuel {A : Type} : M A := fun _ _ => OutOfFuel.

Definition when (c : bool) (m : M unit) : M unit := if c then m else ret tt.

Notation "x <- m ;; k" := (bind m (fun x => k))
  (at level 61, m at next level, right associativity).
Notation "m ;;; k" := (bind m (fun _ => k))
  (at level 61, right associativity).

(** [d.w.Flush()] and [d.w.Write(b)]: calls through the pointer [d.w],
    which panic when it is nil. *)
Definition w_Flush : M (option error) :=
  fun d wd =>
    match w d with
    | None => Panic
    | Some b => let '(err, b', wd') := Flush b wd in Ok err (set_w (Some b') d) wd'
    end.

Definition w_Write (b : list Byte.byte) : M (N * option error) :=
  fun d wd =>
    match w d with
    | None => Panic
    | Some bw =>
        let '(n, err, bw', wd') := Writer_Write bw (N.of_nat (List.length b)) wd in
        Ok (n, err) (set_w (Some bw') d) wd'
    end.

(** [Sync]. *)
Definition Sync : M (option error) := w_Flush.

(** [close]. *)
Definition close : M (option error) :=
  d <- this ;;
  when (match w d with Some _ => true | None => false end)
       (w_Flush ;;; ret tt) ;;;
  match fr d with
  | Some f =>
      err <- world (File_Close f) ;;
      world (renameFile (Name f)) ;;;
      ret err
  | None => ret None
  end.

(** [Close]. *)
Definition Close : M (option error) := close.

(** [createFile]. *)
Definition createFile (filename : string) : M (File + error) :=
  let dirname := filepath_Dir filename in
  err <- world (os_MkdirAll dirname) ;;
  match err with
  | Some _ => ret (inr (Errorf ("failed to create directory " ++ dirname)))
  | None =>
      r <- world (os_OpenFile filename) ;;
      match r with
      | inr err =>
          ret (inr (Errorf ("failed to open file " ++ filename ++ ": " ++ Error err)))
      | inl fh => ret (inl fh)
      end
  end.

(** *** [getWriter] *)

(** The name [getWriter] computes for the writer's bucket and
    generation. *)
Definition candidate (d : fileout) (rotationtime : Duration) : string :=
  GenRolaFileName (strf d) (currTime d) rotationtime (generation d)
                  (Options.requriedTimezone (opt d)) templog.

(** [d.startMill.Do(...)]: the first call makes the channel and starts
    [stduffRun]. *)
Definition startMill_Do : M unit :=
  d <- this ;;
  when (negb (startMill d))
       (modify (set_startMill true) ;;; modify (set_oldStuff (Some []))).

(** The [select] that offers [d.match] to the channel: the value is
    buffered when the slot is free, and dropped after the 10ms timer
    otherwise. *)
Definition offer : M unit :=
  d <- this ;;
  match oldStuff d with
  | Some [] => modify (set_oldStuff (Some [match_ d]))
  | _ => ret tt
  end.

(** The [for] loop that probes for a free name: one [os_Stat] (the
    package hook, [os.Stat]) of the stripped candidate per turn, any error
    ends the loop. *)
Fixpoint probe (fuel : nat) (rotationtime : Duration) : M string :=
  match fuel with
  | O => outOfFuel
  | S fuel' =>
      d <- this ;;
      let filename := candidate d rotationtime in
      r <- world (os_Stat (rename filename)) ;;
      match r with
      | inr _ => ret filename
      | inl _ =>
          modify (fun d => set_generation (add64 (generation d) 1) d) ;;;
          probe fuel' rotationtime
      end
  end.

(** The test of the first [if]: is a new file needed? *)
Definition needsNewFile (d : fileout) (writeLen : Z) (rotationtime : Duration)
    (filename : string) : bool :=
  match fr d with
  | None => true
  | Some f =>
      (maxSize d <? add64 (size d) writeLen)
      || ((0 <? rotationtime) && negb (String.eqb filename (Name f)))
  end.

(** The test that guards the random generation ("Prevent duplicate
    filenames after restart"). *)
Definition ditto (d : fileout) (wd : World) : bool :=
  (Milliseconds (Time_Sub (currTime d) (currentTime wd)) <? dittotime)
  && (generation d <? 1).

(** The body of [if forceNewFile { ... }] in [getWriter]: signal the
    worker, settle the generation, then either close without a
    replacement ([createFile_] false) or open the new file and swap. *)
Definition newFile (fuel : nat) (gentime : bool) (rotationtime : Duration)
    (createFile_ : bool) : M (option Writer * option error) :=
  when gentime (now <- ask time_Now ;; modify (set_currTime now)) ;;;
  startMill_Do ;;;
  offer ;;;
  d <- this ;;
  fresh <- ask (ditto d) ;;
  when fresh (r <- world (Intn randnum) ;; modify (set_generation r)) ;;;
  filename <- probe fuel rotationtime ;;
  if negb createFile_ then
    close ;;;
    modify (set_size 0) ;;;
    modify (set_fr None) ;;;
    d <- this ;;
    ret (w d, None)
  else
    r <- createFile filename ;;
    match r with
    | inr err => ret (None, Some err)
    | inl nf =>
        close ;;;
        d <- this ;;
        match w d with
        | Some bw => modify (set_w (Some (Reset bw nf)))
        | None => modify (set_w (Some (NewWriterSize nf (bufsize d))))
        end ;;;
        modify (set_size 0) ;;;
        modify (set_fr (Some nf)) ;;;
        d <- this ;;
        ret (w d, None)
    end.

(** [getWriter].  The pointer it returns is [d.w] (or nil with an error);
    [createFile_] is the flag [createFile], [false] for the worker's
    check.  [gentime] is never set, as in the source. *)
Definition getWriter (fuel : nat) (b : list Byte.byte) (createFile_ : bool)
    : M (option Writer * option error) :=
  let gentime := false in
  d <- this ;;
  let rotationtime := rotationTime d in
  filename <-
    (if 0 <? rotationtime then
       now <- ask time_Now ;;
       modify (set_currTime now) ;;;
       d <- this ;;
       ret (candidate d rotationtime)
     else ret "") ;;
  let writeLen := Z.of_nat (List.length b) in
  d <- this ;;
  forceNewFile <-
    (if needsNewFile d writeLen rotationtime filename then
       when (maxSize d <? add64 (size d) writeLen)
            (modify (fun d => set_generation (add64 (generation d) 1) d)) ;;;
       ret true
     else ret false) ;;
  if forceNewFile : bool then newFile fuel gentime rotationtime createFile_
  else
    d <- this ;;
    ret (w d, None).

(** [Write]. *)
Definition Write (fuel : nat) (b : list Byte.byte) : M (N * option error) :=
  r <- getWriter fuel b true ;;
  match r with
  | (_, Some err) =>
      ret (0%N, Some (Errorf ("failed to acquite target io.Writer, cause: " ++ Error err)))
  | (None, None) => panic
  | (Some _, None) =>
      r <- w_Write b ;;
      modify (fun d => set_size (add64 (size d) (Z.of_N (fst r))) d) ;;;
      ret r
  end.

(** *** The maintenance worker *)

(** The body of the [for ... range matches] loop of [stduffHandler]. *)
Fixpoint stduffRange (matches : list string) : M (option error) :=
  match matches with
  | [] => ret None
  | fullName :: rest =>
      r <- world (os_Stat fullName) ;;
      match r with
      | inr _ => stduffRange rest
      | inl f =>
          d <- this ;;
          if maxAge d <? Time_Sub (currTime d) (fi_ModTime f) then
            world (os_Remove fullName) ;;;
            stduffRange rest
          else if HasSuffix fullName templog
                  && ((mul64 (rotationTime d) 2 <=? Time_Sub (currTime d) (fi_ModTime f))
                      || (maxSize d <? add64 (fi_Size f) 2048))
          then world (renameFile (fi_Name f))
          else
            match Options.stuffunc (opt d) with
            | Some stuff =>
                world (fun wd => (tt, stuff fullName (called (CallStuffunc fullName) wd)))
            | None => ret tt
            end ;;;
            stduffRange rest
      end
  end.

(** [stduffHandler]. *)
Definition stduffHandler (stduff : string) : M (option error) :=
  r <- world (fun wd => (filepath_Glob stduff wd, called (CallGlob stduff) wd)) ;;
  match r with
  | inr err => ret (Some err)
  | inl matches => stduffRange matches
  end.

(** The two cases of the [select] of [stduffRun]: a pattern received from
    the channel is swept; a tick with an empty channel checks the writer
    without creating a file. *)
Definition stduffRun_recv : M unit :=
  d <- this ;;
  match oldStuff d with
  | Some (stduff :: rest) =>
      modify (set_oldStuff (Some rest)) ;;;
      stduffHandler stduff ;;;
      ret tt
  | _ => ret tt
  end.

Definition stduffRun_tick (fuel : nat) : M unit :=
  d <- this ;;
  match oldStuff d with
  | Some (_ :: _) => ret tt
  | _ => getWriter fuel [] false ;;; ret tt
  end.

(** *** Runs of the writer *)

(** What can happen to a writer, one critical section at a time: the
    calls of its user, the two wake-ups of the worker (once it is started;
    [time.Tick] never fires for a non-positive interval) and a change of
    the surroundings. *)
Inductive Op : Type :=
| OpWrite (b : list Byte.byte)
| OpSync
| OpClose
| OpRecv
| OpTick
| OpEnv (f : World -> World).

Definition step (fuel : nat) (o : Op) : M unit :=
  match o with
  | OpWrite b => Write fuel b ;;; ret tt
  | OpSync => Sync ;;; ret tt
  | OpClose => Close ;;; ret tt
  | OpRecv =>
      d <- this ;;
      when (startMill d) stduffRun_recv
  | OpTick =>
      d <- this ;;
      when (startMill d && (0 <? rotationTime d)) (stduffRun_tick fuel)
  | OpEnv f => fun d wd => Ok tt d (f wd)
  end.

Fixpoint run (fuel : nat) (ops : list Op) : M unit :=
  match ops with
  | [] => ret tt
  | o :: rest => step fuel o ;;; run fuel rest
  end.

End Model.

Arguments Ok {ext A} a d wd.
Arguments Panic {ext A}.
Arguments OutOfFuel {ext A}.

Notation "x <- m ;; k" := (bind m (fun x => k))
  (at level 61, m at next level, right associativity).
Notation "m ;;; k" := (bind m (fun _ => k))
  (at level 61, right associativity).

(** ** Counting the calls of a run *)

Definition isOpenFile (c : Call) : bool :=
  match c with CallOpenFile _ => true | _ => false end.

Definition isMkdirAll (c : Call) : bool :=
  match c with CallMkdirAll _ => true | _ => false end.

Definition isClose (c : Call) : bool :=
  match c with CallClose _ => true | _ => false end.

Definition isRename (c : Call) : bool :=
  match c with CallRename _ _ => true | _ => false end.

Definition isRemove (c : Call) : bool :=
  match c with CallRemove _ => true | _ => false end.

Definition isStat (c : Call) : bool :=
  match c with CallStat _ => true | _ => false end.

(** How many of the calls made so far satisfy [p]. *)
Definition calls (p : Call -> bool) (wd : World) : nat :=
  List.length (filter p (trace wd)).

(** ** A concrete environment

    An instance of the collaborators and some states of the writer, on
    which the definitions above evaluate. *)
Module Sample.

Definition dec (z : Z) : string := NilZero.string_of_int (Z.to_int z).

(** A name generator in the style of the repository's: pattern, bucket
    number, generation, marker. *)
Definition genName (sf : string) (t : Time) (rot : Duration) (g : Z)
    (tz : bool) (tmp : string) : string :=
  sf ++ "." ++ dec (if 0 <? rot then t / rot else 0) ++ "." ++ dec g ++ tmp.

(** The names a sweep is given by [filepath.Glob]: those of a fixed
    listing that exist. *)
Definition listing : list string :=
  ["app.05.0.tmp"; "app.07.0.tmp"; "app.28.0";
   "logs/app.05.0.tmp"; "logs/app.07.0.tmp"; "logs/app.28.0"].

Definition glob (pattern : string) (wd : World) : list string + error :=
  inl (filter (fun p => match files wd p with Some _ => true | None => false end)
              listing).

#[local] Instance ext : Externals := {|
  Strftime := string;
  strftime_New := fun s => inl s;
  GenRolaFileName := genName;
  filepath_Glob := glob;
  filepath_Dir := fun _ => "logs"
|}.

Definition noFiles : string -> option Inode := fun _ => None.
Definition noFds : nat -> option string := fun _ => None.
Definition noFault : Call -> option error := fun _ => None.

(** Some instant: 1000 hours after the zero time. *)
Definition t0 : Time := 1000 * Hour.

(** An empty directory, at [t0], the hook [currentTime] returning [t0]. *)
Definition emptyWorld : World :=
  mkWorld noFiles noFds 3 t0 t0 [7] noFault [].

(** A writer as [NewFileout] returns it for the pattern ["logs/app"]. *)
Definition fresh (opts : list Option) : fileout :=
  let o := fold_left (fun o op => op o) opts Options.zero in
  mkFileout o "logs/app" 0 "logs/app**" None None 0 0 None false.

(** The writer at [t0]; its rotation interval is one minute. *)
Definition atT0 : fileout := set_currTime t0 (fresh []).

Definition oldInode : Inode := mkInode 10 (t0 - Hour).

(** A directory where generation 0 of the bucket of [t0] is finalized,
    and generation 1 is there too but cannot be examined. *)
Definition probeWorld : World :=
  mkWorld
    (upd_file "logs/app.60000.0" (Some oldInode)
       (upd_file "logs/app.60000.1" (Some oldInode) noFiles))
    noFds 3 t0 t0 [7]
    (fun c =>
       match c with
       | CallStat p =>
           if String.eqb p "logs/app.60000.1" then Some ErrPermission else None
       | _ => None
       end)
    [].

(** The writer and the directory after a first one-byte write, with a
    maximum size of 1 MB: a temporary file is open. *)
Definition opened : fileout * World :=
  match Write 1 [Byte.x61] (fresh [WithMaxSize 1]) emptyWorld with
  | Ok _ d wd => (d, wd)
  | _ => (fresh [WithMaxSize 1], emptyWorld)
  end.

(** The same writer with its file filled to the maximum. *)
Definition full : fileout := set_size (1024 * 1024) (fst opened).

(** The environment [dt] later. *)
Definition later (dt : Duration) (wd : World) : World :=
  mkWorld (files wd) (fds wd) (nextfd wd) (clock wd + dt) (startClock wd)
          (randsrc wd) (fault wd) (trace wd).

(** A process whose [currentTime] hook is [time.Now] itself, some 2025
    years after the zero time. *)
Definition today : Time := 63900000000 * Second.

Definition unmocked : World :=
  mkWorld noFiles noFds 3 today today [7] noFault [].

(** Files for a sweep at [t0]: two temporary files last written ten
    minutes ago, and a finalized one last written 400 days ago. *)
Definition staleInode : Inode := mkInode 5 (t0 - 10 * Minute).
Definition expiredInode : Inode := mkInode 5 (t0 - 400 * 24 * Hour).

(** The three files in the working directory, matched by [app*]. *)
Definition cwdWorld : World :=
  mkWorld
    (upd_file "app.05.0.tmp" (Some staleInode)
       (upd_file "app.07.0.tmp" (Some staleInode)
          (upd_file "app.28.0" (Some expiredInode) noFiles)))
    noFds 3 t0 t0 [7] noFault [].

(** The three files in the directory [logs], matched by [logs/app*]. *)
Definition logsWorld : World :=
  mkWorld
    (upd_file "logs/app.05.0.tmp" (Some staleInode)
       (upd_file "logs/app.07.0.tmp" (Some staleInode)
          (upd_file "logs/app.28.0" (Some expiredInode) noFiles)))
    noFds 3 t0 t0 [7] noFault [].

(** A place where no directory can be made. *)
Definition lockedWorld : World :=
  mkWorld noFiles noFds 3 t0 t0 [7]
    (fun c => match c with CallMkdirAll _ => Some ErrPermission | _ => None end)
    [].

(** The writer and the directory after that first write and the sweep it
    asked for: the channel is empty again. *)
Definition swept : fileout * World :=
  match step 1 OpRecv (fst opened) (snd opened) with
  | Ok _ d wd => (d, wd)
  | _ => opened
  end.

(** Two finalized files: one last written 400 days ago, one an hour
    ago. *)
Definition agedWorld : World :=
  mkWorld
    (upd_file "app.28.0" (Some expiredInode)
       (upd_file "logs/app.28.0" (Some oldInode) noFiles))
    noFds 3 t0 t0 [7] noFault [].

(** The writer and the directory after the first write and a [Close]. *)
Definition closed : fileout * World :=
  match Close (fst opened) (snd opened) with
  | Ok _ d wd => (d, wd)
  | _ => opened
  end.

End Sample.

Definition isWrite (c : Call) : bool :=
  match c with CallWrite _ _ => true | _ => false end.

(** [wd'] is [wd] after some more calls, all of them of kind [q]. *)
Definition extends (q : Call -> bool) (wd wd' : World) : Prop :=
  exists cs : list Call, trace wd' = (cs ++ trace wd)%list /\ forallb q cs = true.

(** ** Vocabulary of the statements *)

(** The environment after the calls [cs], the most recent first. *)
Definition called_all (cs : list Call) (wd : World) : World :=
  mkWorld (files wd) (fds wd) (nextfd wd) (clock wd) (startClock wd)
          (randsrc wd) (fault wd) (cs ++ trace wd).

(** [len] consecutive integers from [from]. *)
Fixpoint Zseq (from : Z) (len : nat) : list Z :=
  match len with
  | O => []
  | S n => from :: Zseq (from + 1) n
  end.

(** The finalized name of the writer's candidate at generation [g]. *)
Definition finalized {ext : Externals} (d : fileout) (rotationtime : Duration)
    (g : Z) : string :=
  rename (candidate (set_generation g d) rotationtime).

(** Generation [g] is taken: the probe's [os_Stat] of its finalized name
    returns no error. *)
Definition taken {ext : Externals} (d : fileout) (rotationtime : Duration)
    (wd : World) (g : Z) : bool :=
  match stat (finalized d rotationtime g) wd with
  | inl _ => true
  | inr _ => false
  end.

(** The probes of the generations from [from] to [to], the last one
    first, as they stand in the record of calls. *)
Definition probes {ext : Externals} (d : fileout) (rotationtime : Duration)
    (from to : Z) : list Call :=
  rev (map (fun k => CallStat (finalized d rotationtime k))
           (Zseq from (S (Z.to_nat (to - from))))).

(** The writer as [getWriter] has it after its first lines: with
    time-based rotation on, [currTime] is the clock's reading. *)
Definition bucketed {ext : Externals} (d : fileout) (wd : World) : fileout :=
  if 0 <? rotationTime d then set_currTime (time_Now wd) d else d.

(** The writer after [startMill.Do] and the offer to the channel. *)
Definition signalled {ext : Externals} (d : fileout) : fileout :=
  let d := if startMill d then d
           else set_oldStuff (Some []) (set_startMill true d) in
  match oldStuff d with
  | Some [] => set_oldStuff (Some [match_ d]) d
  | _ => d
  end.

(** The writer entering [newFile]: the generation is bumped when the
    size trigger fired. *)
Definition bumped {ext : Externals} (d : fileout) (writeLen : Z) : fileout :=
  if maxSize d <? add64 (size d) writeLen
  then set_generation (add64 (generation d) 1) d
  else d.

(** The name [getWriter] compares with the open file's. *)
Definition nameNow {ext : Externals} (d : fileout) (wd : World) : string :=
  if 0 <? rotationTime d then candidate (bucketed d wd) (rotationTime d) else "".

(** What [close] does, piece by piece: the buffered writer after the
    flush, the environment after flush, close and rename, and the error
    returned. *)
Definition closeFlush {ext : Externals} (d : fileout) (wd : World)
    : option Writer * World :=
  match w d with
  | Some b => let '(_, b', wd') := Flush b wd in (Some b', wd')
  | None => (None, wd)
  end.

Definition closeWorld {ext : Externals} (d : fileout) (wd : World) : World :=
  let wd := snd (closeFlush d wd) in
  match fr d with
  | Some f => snd (renameFile (Name f) (snd (File_Close f wd)))
  | None => wd
  end.

Definition closeErr {ext : Externals} (d : fileout) (wd : World) : option error :=
  match fr d with
  | Some f => fst (File_Close f (snd (closeFlush d wd)))
  | None => None
  end.

(** The calls [close] can make. *)
Definition closeCall (c : Call) : bool := isWrite c || isClose c || isRename c.

(** The writer and the environment when the probe loop starts: the
    worker signalled, the generation drawn afresh if the guard [ditto]
    holds. *)
Definition settled {ext : Externals} (d : fileout) (wd : World) : fileout * World :=
  let d2 := signalled d in
  if ditto d2 wd then
    let '(r, wd') := Intn randnum wd in (set_generation r d2, wd')
  else (d2, wd).

(** The environment after [createFile] succeeded for [filename]. *)
Definition created {ext : Externals} (filename : string) (wd : World) : World :=
  snd (os_OpenFile filename (snd (os_MkdirAll (filepath_Dir filename) wd))).

(** The buffered writer after the swap to the new file [nf]. *)
Definition swapped {ext : Externals} (d : fileout) (wd : World) (nf : File) : Writer :=
  match fst (closeFlush d wd) with
  | Some bw => Reset bw nf
  | None => NewWriterSize nf (bufsize d)
  end.

(** The writer and the environment at the start of the probe loop of
    [getWriter] for the bytes [b]. *)
Definition probeStart {ext : Externals} (d : fileout) (wd : World)
    (b : list Byte.byte) : fileout * World :=
  settled (bumped (bucketed d wd) (Z.of_nat (List.length b))) wd.

(** The calls of the probe loop and of a flush. *)
Definition statOrWrite (c : Call) : bool := isStat c || isWrite c.

(** The operations that go through the pointer [d.w] or may set it. *)
Definition usesWriter (o : Op) : bool :=
  match o with
  | OpWrite _ | OpSync => true
  | _ => false
  end.

(** The callback, if any, leaves alone what the sweep looks at: the
    files, the failures and the record of calls. *)
Definition quietStuffunc {ext : Externals} (d : fileout) : Prop :=
  match Options.stuffunc (opt d) with
  | Some f =>
      forall (p : string) (wd : World),
        trace (f p wd) = trace wd
        /\ (forall q, files (f p wd) q = files wd q)
        /\ (forall c, fault (f p wd) c = fault wd c)
  | None => True
  end.

(** The age the sweep computes for a file. *)
Definition age {ext : Externals} (d : fileout) (f : FileInfo) : Duration :=
  Time_Sub (currTime d) (fi_ModTime f).

(** An open file comes with a buffered writer. *)
Definition openHasWriter {ext : Externals} (d : fileout) : Prop :=
  fr d <> None -> w d <> None.

(** A run that panicked or ran out of budget returned nothing. *)
Ltac stuck := let H := fresh in intros H; cbv beta iota in H; discriminate H.

(** ** Vocabulary of the further statements *)

Definition isGlob (c : Call) : bool :=
  match c with CallGlob _ => true | _ => false end.

Definition isStuffunc (c : Call) : bool :=
  match c with CallStuffunc _ => true | _ => false end.

(** The calls a sweep without a callback can make. *)
Definition sweepCall (c : Call) : bool :=
  isGlob c || isStat c || isRemove c || isRename c.

(** The options a user of the package can build. *)
Inductive publicOption : Option -> Prop :=
| publicGenerationRule (gtr : string) : publicOption (WithGenerationRule gtr)
| publicNorequriedTimezone : publicOption WithNorequriedTimezone
| publicBufSize (mb : Z) : publicOption (WithBufSize mb)
| publicMaxSize (mb : Z) : publicOption (WithMaxSize mb)
| publicMaxAge (day : Z) : publicOption (WithMaxAge day)
| publicRotationTime (t : Duration) : publicOption (WithRotationTime t)
| publicStuffunc (t : Duration) : publicOption (WithStuffunc t).

(** Two stars in a row somewhere in [s]. *)
Fixpoint doubleStar (s : string) : bool :=
  match s with
  | EmptyString => false
  | String a s' =>
      match s' with
      | String b _ => (Ascii.eqb a "*" && Ascii.eqb b "*") || doubleStar s'
      | EmptyString => false
      end
  end.

(** No byte of [s] is [c]. *)
Fixpoint without (c : ascii) (s : string) : bool :=
  match s with
  | EmptyString => true
  | String a s' => negb (Ascii.eqb a c) && without c s'
  end.

(** [wd'] has the same names as [wd]: the same files exist, the same
    calls fail and the same descriptors are open. *)
Definition sameNames (wd wd' : World) : Prop :=
  (forall p, files wd' p = None <-> files wd p = None)
  /\ (forall c, fault wd' c = fault wd c)
  /\ (forall k, fds wd' k = fds wd k).

(** The calls [createFile] can make. *)
Definition createCall (c : Call) : bool := isMkdirAll c || isOpenFile c.

(** A write to the descriptor [fd]. *)
Definition isWriteTo (fd : nat) (c : Call) : bool :=
  match c with
  | CallWrite k _ => Nat.eqb k fd
  | _ => false
  end.


(** The test that sends a match within the retention age to
    [renameFile]: a temporary file that is stale or near the maximum
    size. *)
Definition due {ext : Externals} (d : fileout) (fullName : string)
    (f : FileInfo) : bool :=
  HasSuffix fullName templog
  && ((mul64 (rotationTime d) 2 <=? age d f)
      || (maxSize d <? add64 (fi_Size f) 2048)).

(** What a sweep that ran to its end did with the match [p], by what
    [os.Stat] returned for it when the sweep began: an unreadable match is
    left alone; one older than the retention age went to [os.Remove] and
    is gone unless that call failed; a younger one is still there and went
    to the callback, if there is one.  [cs] are the calls of the sweep. *)
Definition sweptMatch {ext : Externals} (d : fileout) (wd wd' : World)
    (cs : list Call) (p : string) : Prop :=
  match stat p wd with
  | inr _ => files wd' p = files wd p
  | inl f =>
      if maxAge d <? age d f
      then In (CallRemove p) cs
           /\ (fault wd (CallRemove p) = None -> files wd' p = None)
      else files wd' p = files wd p
           /\ (Options.stuffunc (opt d) <> None -> In (CallStuffunc p) cs)
  end.

Definition isSync {ext : Externals} (o : Op) : bool :=
  match o with OpSync => true | _ => false end.

(** The length of what an operation writes. *)
Definition writeLen {ext : Externals} (o : Op) : Z :=
  match o with
  | OpWrite b => Z.of_nat (List.length b)
  | _ => 0
  end.

(** [len(b.buf)] of the [bufio.NewWriterSize(nf, d.bufsize())] of
    [getWriter]: package [bufio] takes 4096 bytes when the size asked for
    is not positive. *)
Definition capacity {ext : Externals} (d : fileout) : N :=
  if bufsize d <=? 0 then 4096%N else Z.to_N (bufsize d).

(** The buffered writer, if any, has the capacity of the writer's
    configuration, and it writes to the open file, if any. *)
Definition buffered {ext : Externals} (cap : N) (d : fileout) : Prop :=
  (forall bw, w d = Some bw -> b_len bw = cap)
  /\ (forall f, fr d = Some f -> exists bw, w d = Some bw /\ b_wr bw = f).

(** The channel of the worker: not made before the worker is started,
    then empty or holding the writer's glob. *)
Definition channel {ext : Externals} (d : fileout) : Prop :=
  match oldStuff d with
  | None => startMill d = false
  | Some [] => startMill d = true
  | Some [p] => startMill d = true /\ p = match_ d
  | Some (_ :: _ :: _) => False
  end.

(** * Properties *)

(** ** Arithmetic of [int64] *)

Lemma wrap64_small (z : Z) : inInt64 z -> wrap64 z = z.
Proof.
  unfold inInt64, minInt64, maxInt64, wrap64. intros Hz.
  rewrite Z.mod_small; lia.
Qed.

Lemma wrap64_range (z : Z) : inInt64 (wrap64 z).
Proof.
  unfold inInt64, minInt64, maxInt64, wrap64.
  pose proof (Z.mod_pos_bound (z + 2 ^ 63) (2 ^ 64) ltac:(lia)). lia.
Qed.

Lemma add64_small (a b : Z) : inInt64 (a + b) -> add64 a b = a + b.
Proof. apply wrap64_small. Qed.

Lemma Time_Sub_range (t u : Time) : inInt64 (Time_Sub t u).
Proof.
  unfold Time_Sub, inInt64, minDuration, maxDuration.
  destruct (Z.ltb_spec (t - u) minInt64); [unfold minInt64, maxInt64; lia|].
  destruct (Z.ltb_spec maxInt64 (t - u)); [unfold minInt64, maxInt64; lia|].
  lia.
Qed.

(** ** [strings.Split] and [rename] *)

Lemma Contains_false (s substr : string) :
  Contains s substr = false -> index 0 substr s = None.
Proof.
  unfold Contains. destruct (index 0 substr s); [discriminate | reflexivity].
Qed.

Lemma genSplit_absent (n : nat) (s sep : string) :
  index 0 sep s = None -> genSplit n s sep = [s].
Proof.
  intros H. destruct n; simpl; [reflexivity | now rewrite H].
Qed.

Lemma Split_absent (s sep : string) :
  Contains s sep = false -> Split s sep = [s].
Proof.
  intros H. apply genSplit_absent, Contains_false, H.
Qed.

Lemma rename_absent (old : string) :
  Contains old templog = false -> rename old = "".
Proof.
  intros H. unfold rename. now rewrite (Split_absent _ _ H).
Qed.

(** C8, as the claim states it, fails: [rename] maps a path without the
    marker to the empty string, not to itself, and applying it twice to a
    temporary path differs from applying it once. *)
Lemma rename_of_final_path_is_empty :
  Contains "logs/app.log" templog = false
  /\ rename "logs/app.log" = ""
  /\ rename "logs/app.log" <> "logs/app.log"
  /\ rename "logs/app.log.tmp" = "logs/app.log"
  /\ rename (rename "logs/app.log.tmp") <> rename "logs/app.log.tmp".
Proof.
  repeat split; try reflexivity; vm_compute; discriminate.
Qed.

(** C8 (amended): for every path that contains no temporary marker,
    [rename] returns the empty string and [renameFile] is a no-op: it
    makes no system call, leaves the environment as it is (the file keeps
    its path) and returns no error. *)
Theorem renameFile_of_final_path_is_noop (fullName : string) (wd : World) :
  Contains fullName templog = false ->
  rename fullName = "" /\ renameFile fullName wd = (None, wd).
Proof.
  intros H. pose proof (rename_absent _ H) as E.
  split; [exact E|]. unfold renameFile. now rewrite E.
Qed.

Lemma renameFile_of_final_path_is_noop_witness :
  Contains "logs/app.log" templog = false
  /\ rename "logs/app.log" = ""
  /\ renameFile "logs/app.log" Sample.emptyWorld = (None, Sample.emptyWorld).
Proof.
  split; [reflexivity|].
  apply (renameFile_of_final_path_is_noop "logs/app.log" Sample.emptyWorld).
  reflexivity.
Defined.

(** ** The effective rotation interval *)

(** C5, as the claim states it, fails: a configured interval of zero is
    not "disabled" but one minute, and a configured interval of one minute
    or more is multiplied by [time.Minute] (here, one minute becomes the
    wrapped product of 6e10 by 6e10). *)
Lemma rotationTime_of_zero_is_a_minute :
  rotationTime (Sample.fresh [WithRotationTime 0]) = Minute
  /\ rotationTime (Sample.fresh [WithRotationTime 0]) <> 0
  /\ rotationTime (Sample.fresh [WithRotationTime Minute]) = 2884905626637434880
  /\ rotationTime (Sample.fresh [WithRotationTime Minute]) <> Minute.
Proof.
  repeat split; try reflexivity; vm_compute; discriminate.
Qed.

(** C5 (amended): a negative configured interval disables time-based
    rotation (the effective interval is 0, and then a write to an open
    file that stays within the maximum size needs no new file, whatever
    the clock says); a configured interval from zero up to, but not
    including, one minute is clamped to exactly one minute. *)
Theorem rotationTime_clamps {ext : Externals} (l : fileout) :
  (Options.rotationTime (opt l) < 0 ->
     rotationTime l = 0
     /\ forall (f : File) (writeLen : Z) (filename : string),
          fr l = Some f ->
          add64 (size l) writeLen <= maxSize l ->
          needsNewFile l writeLen (rotationTime l) filename = false)
  /\ (0 <= Options.rotationTime (opt l) < Minute -> rotationTime l = Minute).
Proof.
  unfold rotationTime. split.
  - intros Hneg.
    destruct (Z.ltb_spec (Options.rotationTime (opt l)) 0) as [_|]; [|lia].
    split; [reflexivity|].
    intros f writeLen filename Hfr Hsz. unfold needsNewFile. rewrite Hfr.
    destruct (Z.ltb_spec (maxSize l) (add64 (size l) writeLen)); [lia|].
    reflexivity.
  - intros [Hlo Hhi].
    destruct (Z.ltb_spec (Options.rotationTime (opt l)) 0); [lia|].
    destruct (Z.ltb_spec (Options.rotationTime (opt l)) Minute); [reflexivity|lia].
Qed.

Lemma rotationTime_clamps_witness :
  rotationTime (Sample.fresh [WithRotationTime (-1)]) = 0
  /\ rotationTime (Sample.fresh [WithRotationTime 0]) = Minute
  /\ rotationTime (Sample.fresh [WithRotationTime (30 * Second)]) = Minute.
Proof.
  split; [|split].
  - apply (proj1 (rotationTime_clamps (Sample.fresh [WithRotationTime (-1)]))).
    reflexivity.
  - apply (proj2 (rotationTime_clamps (Sample.fresh [WithRotationTime 0]))).
    vm_compute. split; [discriminate | reflexivity].
  - apply (proj2 (rotationTime_clamps (Sample.fresh [WithRotationTime (30 * Second)]))).
    vm_compute. split; [discriminate | reflexivity].
Defined.

(** ** The collision probe *)

Lemma called_all_called (cs : list Call) (c : Call) (wd : World) :
  called_all cs (called c wd) = called_all (cs ++ [c]) wd.
Proof.
  unfold called_all, called. simpl. now rewrite <- app_assoc.
Qed.

Lemma probe_free {ext : Externals} (fuel : nat) (rot : Duration)
    (d : fileout) (wd : World) :
  taken d rot wd (generation d) = false ->
  probe (S fuel) rot d wd
  = Ok (candidate d rot) d (called (CallStat (finalized d rot (generation d))) wd).
Proof.
  unfold taken, finalized. intros H. simpl.
  unfold bind, this, world, os_Stat, ret.
  change (candidate (set_generation (generation d) d) rot) with (candidate d rot) in *.
  destruct (stat (rename (candidate d rot)) wd); [discriminate | reflexivity].
Qed.

Lemma probe_taken {ext : Externals} (fuel : nat) (rot : Duration)
    (d : fileout) (wd : World) :
  taken d rot wd (generation d) = true ->
  probe (S fuel) rot d wd
  = probe fuel rot (set_generation (add64 (generation d) 1) d)
          (called (CallStat (finalized d rot (generation d))) wd).
Proof.
  unfold taken, finalized. intros H. simpl.
  unfold bind at 1 2, this, world, os_Stat.
  change (candidate (set_generation (generation d) d) rot) with (candidate d rot) in *.
  destruct (stat (rename (candidate d rot)) wd); [reflexivity | discriminate].
Qed.

(** The loop, started below a free generation [g'], stops at the least
    free generation [g], having probed each generation up to [g] once. *)
Lemma probe_least {ext : Externals} (rot : Duration) (n : nat) :
  forall (d : fileout) (wd : World) (g' : Z),
    Z.to_nat (g' - generation d) = n ->
    minInt64 <= generation d <= g' -> g' <= maxInt64 ->
    taken d rot wd g' = false ->
    exists g : Z,
      generation d <= g <= g'
      /\ taken d rot wd g = false
      /\ (forall k, generation d <= k < g -> taken d rot wd k = true)
      /\ forall fuel, (Z.to_nat (g - generation d) < fuel)%nat ->
           probe fuel rot d wd
           = Ok (candidate (set_generation g d) rot) (set_generation g d)
                (called_all (probes d rot (generation d) g) wd).
Proof.
  induction n as [|n IH]; intros d wd g' Hn Hg Hmax Hfree.
  - assert (g' = generation d) by lia. subst g'.
    exists (generation d). repeat split; try lia; [exact Hfree|].
    intros fuel Hfuel. destruct fuel as [|fuel]; [lia|].
    rewrite (probe_free _ _ _ _ Hfree).
    unfold probes. rewrite Z.sub_diag. simpl.
    destruct d; reflexivity.
  - destruct (taken d rot wd (generation d)) eqn:Hhere.
    + set (d1 := set_generation (add64 (generation d) 1) d).
      set (wd1 := called (CallStat (finalized d rot (generation d))) wd).
      assert (Hg1 : generation d1 = generation d + 1).
      { unfold d1. simpl. apply add64_small.
        unfold inInt64, minInt64, maxInt64 in *. lia. }
      destruct (IH d1 wd1 g') as (g & Hrange & Hfree_g & Hbelow & Hrun).
      * rewrite Hg1. lia.
      * rewrite Hg1. lia.
      * exact Hmax.
      * exact Hfree.
      * exists g. rewrite Hg1 in *. repeat split; try lia.
        -- exact Hfree_g.
        -- intros k Hk. destruct (Z.eq_dec k (generation d)) as [->|Hne].
           ++ exact Hhere.
           ++ apply (Hbelow k). lia.
        -- intros fuel Hfuel. destruct fuel as [|fuel]; [lia|].
           rewrite (probe_taken _ _ _ _ Hhere). fold d1 wd1.
           rewrite Hrun by lia.
           f_equal. unfold wd1. rewrite called_all_called. f_equal.
           unfold probes.
           replace (Z.to_nat (g - generation d)) with (S (Z.to_nat (g - (generation d + 1)))) by lia.
           change (finalized d1 rot) with (finalized d rot).
           remember (S (Z.to_nat (g - (generation d + 1)))) as m.
           simpl. reflexivity.
    + exists (generation d). repeat split; try lia; [exact Hhere|].
      intros fuel Hfuel. destruct fuel as [|fuel]; [lia|].
      rewrite (probe_free _ _ _ _ Hhere).
      unfold probes. rewrite Z.sub_diag. simpl.
      destruct d; reflexivity.
Qed.

Lemma taken_false {ext : Externals} (d : fileout) (rot : Duration)
    (wd : World) (g : Z) :
  taken d rot wd g = false <-> exists e, stat (finalized d rot g) wd = inr e.
Proof.
  unfold taken. destruct (stat (finalized d rot g) wd) as [fi|e]; split.
  - discriminate.
  - intros [e He]. discriminate.
  - intros _. now exists e.
  - reflexivity.
Qed.

Lemma taken_true {ext : Externals} (d : fileout) (rot : Duration)
    (wd : World) (g : Z) :
  taken d rot wd g = true <-> exists fi, stat (finalized d rot g) wd = inl fi.
Proof.
  unfold taken. destruct (stat (finalized d rot g) wd) as [fi|e]; split.
  - intros _. now exists fi.
  - reflexivity.
  - discriminate.
  - intros [fi He]. discriminate.
Qed.

(** C3: when some generation [g'] at or above the writer's has a
    finalized name whose [os_Stat] fails, the probe loop returns, and it
    selects the least generation [g] at or above the starting value whose
    [os_Stat] fails, whatever the error (every generation below it has an
    existing finalized file, so a generation with an existing finalized
    file is never selected); the calls it adds to the record are exactly
    one [os_Stat] per candidate, from the starting generation to [g], and
    nothing else of the environment changes. *)
Theorem probe_selects_least_free_generation {ext : Externals}
    (d : fileout) (wd : World) (rot : Duration) (g' : Z) :
  minInt64 <= generation d <= g' -> g' <= maxInt64 ->
  (exists e, stat (finalized d rot g') wd = inr e) ->
  exists g : Z,
    generation d <= g <= g'
    /\ (exists e, stat (finalized d rot g) wd = inr e)
    /\ (forall k, generation d <= k < g ->
          exists fi, stat (finalized d rot k) wd = inl fi)
    /\ forall fuel, (Z.to_nat (g - generation d) < fuel)%nat ->
         probe fuel rot d wd
         = Ok (candidate (set_generation g d) rot) (set_generation g d)
              (called_all (probes d rot (generation d) g) wd).
Proof.
  intros Hg Hmax Hfree. apply taken_false in Hfree.
  destruct (probe_least rot _ d wd g' eq_refl Hg Hmax Hfree)
    as (g & Hrange & Hfree_g & Hbelow & Hrun).
  exists g. split; [exact Hrange|]. split; [now apply taken_false|].
  split; [|exact Hrun].
  intros k Hk. apply taken_true, Hbelow, Hk.
Qed.

Lemma probe_selects_least_free_generation_witness :
  exists g : Z,
    0 <= g <= 1
    /\ (exists e, stat (finalized Sample.atT0 Minute g) Sample.probeWorld = inr e)
    /\ (forall k, 0 <= k < g ->
          exists fi, stat (finalized Sample.atT0 Minute k) Sample.probeWorld = inl fi)
    /\ forall fuel, (Z.to_nat (g - 0) < fuel)%nat ->
         probe fuel Minute Sample.atT0 Sample.probeWorld
         = Ok (candidate (set_generation g Sample.atT0) Minute)
              (set_generation g Sample.atT0)
              (called_all (probes Sample.atT0 Minute 0 g) Sample.probeWorld).
Proof.
  apply (probe_selects_least_free_generation
           Sample.atT0 Sample.probeWorld Minute 1).
  - vm_compute. split; discriminate.
  - vm_compute. discriminate.
  - exists ErrPermission. vm_compute. reflexivity.
Defined.

(** On that directory the loop passes generation 0 and stops at
    generation 1, whose finalized file exists but cannot be examined. *)
Example probe_stops_at_unreadable :
  probe 2 Minute Sample.atT0 Sample.probeWorld
  = Ok "logs/app.60000.1.tmp" (set_generation 1 Sample.atT0)
       (called_all [CallStat "logs/app.60000.1"; CallStat "logs/app.60000.0"]
                   Sample.probeWorld)
  /\ files Sample.probeWorld "logs/app.60000.1" = Some Sample.oldInode.
Proof. split; reflexivity. Qed.

(** ** The record of calls *)

Lemma extends_refl (q : Call -> bool) (wd : World) : extends q wd wd.
Proof. exists []. split; reflexivity. Qed.

Lemma extends_trans (q : Call -> bool) (wd1 wd2 wd3 : World) :
  extends q wd1 wd2 -> extends q wd2 wd3 -> extends q wd1 wd3.
Proof.
  intros (cs1 & E1 & F1) (cs2 & E2 & F2). exists (cs2 ++ cs1)%list. split.
  - rewrite E2, E1. now rewrite app_assoc.
  - rewrite forallb_app. now rewrite F1, F2.
Qed.

Lemma extends_weaken (q q' : Call -> bool) (wd wd' : World) :
  (forall c, q c = true -> q' c = true) ->
  extends q wd wd' -> extends q' wd wd'.
Proof.
  intros Hq (cs & E & F). exists cs. split; [exact E|].
  rewrite forallb_forall in *. auto.
Qed.

Lemma extends_called (q : Call -> bool) (c : Call) (wd : World) :
  q c = true -> extends q wd (called c wd).
Proof.
  intros Hc. exists [c]. split; [reflexivity|]. simpl. now rewrite Hc.
Qed.

Lemma extends_calls (q p : Call -> bool) (wd wd' : World) :
  (forall c, q c = true -> p c = false) ->
  extends q wd wd' -> calls p wd' = calls p wd.
Proof.
  intros Hqp (cs & E & F). unfold calls. rewrite E, filter_app, length_app.
  assert (filter p cs = []) as ->; [|reflexivity].
  clear E. induction cs as [|c cs IH]; [reflexivity|]. simpl in *.
  apply andb_true_iff in F. destruct F as [Hc F].
  rewrite (Hqp c Hc). now apply IH.
Qed.

(** ** Package [bufio]: what a write takes and what it calls *)

Lemma File_Write_spec (f : File) (len : N) (wd : World) :
  let '(n, err, wd') := File_Write f len wd in
  (n <= len)%N /\ extends isWrite wd wd'
  /\ (err = None -> n = len).
Proof.
  unfold File_Write.
  destruct (fds (called (CallWrite (Fd f) len) wd) (Fd f)) as [path|].
  - destruct (fault (called (CallWrite (Fd f) len) wd) (CallWrite (Fd f) len)).
    + repeat split; [lia | now apply extends_called | discriminate].
    + destruct (files (called (CallWrite (Fd f) len) wd) path).
      * repeat split; [lia | now apply (extends_called isWrite (CallWrite (Fd f) len))].
      * repeat split; [lia | now apply extends_called].
  - repeat split; [lia | now apply extends_called | discriminate].
Qed.

Lemma Flush_spec (b : Writer) (wd : World) :
  let '(err, b', wd') := Flush b wd in
  extends isWrite wd wd' /\ b_wr b' = b_wr b /\ b_len b' = b_len b.
Proof.
  unfold Flush. destruct (b_err b).
  - repeat split. apply extends_refl.
  - destruct (b_n b =? 0)%N.
    + repeat split. apply extends_refl.
    + pose proof (File_Write_spec (b_wr b) (b_n b) wd) as H.
      destruct (File_Write (b_wr b) (b_n b) wd) as [[n err] wd'].
      destruct H as (_ & Hext & _).
      destruct err; [now repeat split|].
      destruct (n <? b_n b)%N; now repeat split.
Qed.

Lemma Writer_loop_spec (fuel : nat) :
  forall (b : Writer) (p nn : N) (wd : World),
    let '(b', p', nn', wd') := Writer_loop fuel b p nn wd in
    (nn' + p' = nn + p)%N /\ extends isWrite wd wd'
    /\ b_wr b' = b_wr b /\ b_len b' = b_len b.
Proof.
  induction fuel as [|fuel IH]; intros b p nn wd; simpl.
  - repeat split. apply extends_refl.
  - destruct (b_err b) eqn:Eerr; [repeat split; apply extends_refl|].
    destruct (Available b <? p)%N; [|repeat split; apply extends_refl].
    destruct (b_n b =? 0)%N.
    + pose proof (File_Write_spec (b_wr b) p wd) as H.
      destruct (File_Write (b_wr b) p wd) as [[n err] wd1].
      destruct H as (Hn & Hext & _).
      specialize (IH (mkWriter (b_wr b) (b_len b) (b_n b) err) (p - n)%N (nn + n)%N wd1).
      destruct (Writer_loop fuel _ (p - n)%N (nn + n)%N wd1) as [[[b' p'] nn'] wd'].
      destruct IH as (Hsum & Hext' & Hwr & Hlen). simpl in Hwr, Hlen.
      repeat split; [lia | eapply extends_trans; eassumption | assumption | assumption].
    + set (n := N.min (Available b) p).
      pose proof (Flush_spec (mkWriter (b_wr b) (b_len b) (b_n b + n)%N None) wd) as H.
      destruct (Flush (mkWriter (b_wr b) (b_len b) (b_n b + n)%N None) wd) as [[e b1] wd1].
      destruct H as (Hext & Hwr1 & Hlen1). simpl in Hwr1, Hlen1.
      specialize (IH b1 (p - n)%N (nn + n)%N wd1).
      destruct (Writer_loop fuel b1 (p - n)%N (nn + n)%N wd1) as [[[b' p'] nn'] wd'].
      destruct IH as (Hsum & Hext' & Hwr & Hlen).
      assert (n <= p)%N by (unfold n; lia).
      repeat split; [lia | eapply extends_trans; eassumption | congruence | congruence].
Qed.

(** [b.Write(p)] accepts at most [len(p)] bytes, calls nothing but
    writes, and keeps writing to the same file. *)
Lemma Writer_Write_spec (b : Writer) (len : N) (wd : World) :
  let '(n, err, b', wd') := Writer_Write b len wd in
  (n <= len)%N /\ extends isWrite wd wd' /\ b_wr b' = b_wr b /\ b_len b' = b_len b.
Proof.
  unfold Writer_Write.
  pose proof (Writer_loop_spec 3 b len 0%N wd) as H.
  destruct (Writer_loop 3 b len 0%N wd) as [[[b1 p] nn] wd1].
  destruct H as (Hsum & Hext & Hwr & Hlen).
  destruct (b_err b1).
  - repeat split; [lia | assumption | assumption | assumption].
  - simpl. repeat split; [lia | assumption | assumption | assumption].
Qed.

(** The budget of [Writer_Write] is enough: for a buffer of positive
    length holding at most that much, the loop ends because its test
    fails (an error is set, or what is left fits the buffer). *)
Lemma Writer_loop_ends (b : Writer) (p nn : N) (wd : World) :
  (0 < b_len b)%N -> (b_n b <= b_len b)%N ->
  let '(b', p', _, _) := Writer_loop 3 b p nn wd in
  b_err b' <> None \/ (p' <= Available b')%N.
Proof.
  intros Hlen Hn.
  assert (Hfw : forall f k wd0,
             let '(n, err, _) := File_Write f k wd0 in
             (err = None /\ n = k) \/ (err <> None /\ n = 0%N)).
  { intros f k wd0. unfold File_Write.
    destruct (fds _ (Fd f)); [|right; split; [discriminate | reflexivity]].
    destruct (fault _ (CallWrite (Fd f) k));
      [right; split; [discriminate | reflexivity]|].
    destruct (files _ s); left; split; reflexivity. }
  assert (Hempty : forall fuel b0 p0 nn0 wd0,
             b_err b0 = None -> b_n b0 = 0%N ->
             let '(b', p', _, _) := Writer_loop (S (S fuel)) b0 p0 nn0 wd0 in
             b_err b' <> None \/ (p' <= Available b')%N).
  { intros fuel b0 p0 nn0 wd0 He H0. cbn [Writer_loop]. rewrite He.
    destruct (N.ltb_spec (Available b0) p0) as [Hlt|Hge]; [|right; exact Hge].
    rewrite H0. cbn [N.eqb].
    pose proof (Hfw (b_wr b0) p0 wd0) as H.
    destruct (File_Write (b_wr b0) p0 wd0) as [[n err] wd1].
    destruct H as [[-> ->]|[Herr ->]].
    - cbn [b_err]. destruct (N.ltb_spec (Available (mkWriter (b_wr b0) (b_len b0) 0 None)) (p0 - p0));
        [lia | right; lia].
    - cbn [b_err]. destruct err; [left; discriminate | contradiction]. }
  destruct (b_err b) eqn:He; [cbn [Writer_loop]; rewrite He; left; congruence|].
  destruct (N.eq_dec (b_n b) 0) as [H0|H0]; [now apply Hempty|].
  cbn [Writer_loop]. rewrite He.
  destruct (N.ltb_spec (Available b) p) as [Hlt|Hge]; [|right; exact Hge].
  destruct (N.eqb_spec (b_n b) 0) as [|_]; [contradiction|].
  set (b1 := mkWriter (b_wr b) (b_len b) (b_n b + N.min (Available b) p) None).
  unfold Flush. cbn [b_err b1].
  destruct (N.eqb_spec (b_n b1) 0) as [E0|_]; [unfold b1 in E0; cbn in E0; lia|].
  pose proof (Hfw (b_wr b1) (b_n b1) wd) as H.
  destruct (File_Write (b_wr b1) (b_n b1) wd) as [[n err] wd1].
  destruct H as [[-> ->]|[Herr ->]].
  - rewrite N.ltb_irrefl. cbn [b_wr b_len b1].
    exact (Hempty O (mkWriter (b_wr b) (b_len b) 0%N None) _ _ _ eq_refl eq_refl).
  - destruct err as [e|]; [|contradiction].
    cbn [b_err]. left. discriminate.
Qed.

(** ** [close] *)

Lemma close_eq {ext : Externals} (d : fileout) (wd : World) :
  close d wd
  = Ok (closeErr d wd) (set_w (fst (closeFlush d wd)) d) (closeWorld d wd).
Proof.
  unfold close, closeErr, closeWorld, closeFlush, bind, this, when, w_Flush,
    world, ret.
  destruct (w d) as [b|] eqn:Ew.
  - rewrite Ew. destruct (Flush b wd) as [[e b'] wd1]. simpl.
    destruct (fr d) as [f|]; [|reflexivity].
    destruct (File_Close f wd1) as [err wd2]. simpl.
    destruct (renameFile (Name f) wd2) as [e2 wd3]. reflexivity.
  - simpl. destruct (fr d) as [f|]; [|destruct d; simpl in *; now subst].
    destruct (File_Close f wd) as [err wd2]. simpl.
    destruct (renameFile (Name f) wd2) as [e2 wd3].
    destruct d; simpl in *; now subst.
Qed.

Lemma closeFlush_spec {ext : Externals} (d : fileout) (wd : World) :
  extends isWrite wd (snd (closeFlush d wd))
  /\ (w d = None -> fst (closeFlush d wd) = None)
  /\ (forall b, w d = Some b ->
        exists b', fst (closeFlush d wd) = Some b'
                   /\ b_wr b' = b_wr b /\ b_len b' = b_len b).
Proof.
  unfold closeFlush. destruct (w d) as [b|].
  - pose proof (Flush_spec b wd) as H.
    destruct (Flush b wd) as [[e b'] wd1]. destruct H as (Hext & Hwr & Hlen).
    simpl. split; [exact Hext|]. split; [discriminate|].
    intros b0 [= <-]. now exists b'.
  - simpl. split; [apply extends_refl|]. split; [reflexivity | discriminate].
Qed.

Lemma File_Close_extends (f : File) (wd : World) :
  extends isClose wd (snd (File_Close f wd)).
Proof.
  unfold File_Close.
  destruct (fds (called (CallClose (Fd f)) wd) (Fd f)); simpl;
    now apply (extends_called isClose (CallClose (Fd f))).
Qed.

Lemma os_Rename_extends (oldpath newpath : string) (wd : World) :
  extends isRename wd (snd (os_Rename oldpath newpath wd)).
Proof.
  unfold os_Rename.
  destruct (fault (called (CallRename oldpath newpath) wd) (CallRename oldpath newpath));
    [now apply extends_called|].
  destruct (files (called (CallRename oldpath newpath) wd) oldpath); simpl;
    now apply (extends_called isRename (CallRename oldpath newpath)).
Qed.

Lemma renameFile_extends (fullName : string) (wd : World) :
  extends isRename wd (snd (renameFile fullName wd)).
Proof.
  unfold renameFile. destruct (negb (rename fullName =? "")%string).
  - apply os_Rename_extends.
  - apply extends_refl.
Qed.

(** [close] calls nothing but writes (the flush), one close and one
    rename. *)
Lemma closeWorld_extends {ext : Externals} (d : fileout) (wd : World) :
  extends closeCall wd (closeWorld d wd).
Proof.
  unfold closeWorld.
  destruct (closeFlush_spec d wd) as (Hflush & _).
  assert (H1 : extends closeCall wd (snd (closeFlush d wd))).
  { eapply extends_weaken; [|exact Hflush].
    intros c Hc. unfold closeCall. now rewrite Hc. }
  destruct (fr d) as [f|]; [|exact H1].
  eapply extends_trans; [exact H1|].
  eapply extends_trans.
  - eapply extends_weaken; [|apply File_Close_extends].
    intros c Hc. unfold closeCall. rewrite Hc. now rewrite orb_true_r.
  - eapply extends_weaken; [|apply renameFile_extends].
    intros c Hc. unfold closeCall. rewrite Hc. now rewrite orb_true_r.
Qed.

(** With a file open, [close] closes its descriptor, and renames it when
    its name carries the marker. *)
Lemma closeWorld_closes {ext : Externals} (d : fileout) (wd : World) (f : File) :
  fr d = Some f ->
  closeWorld d wd
  = snd (renameFile (Name f) (snd (File_Close f (snd (closeFlush d wd))))).
Proof. unfold closeWorld. now intros ->. Qed.

(** ** [getWriter], path by path *)

Lemma getWriter_eq {ext : Externals} (fuel : nat) (b : list Byte.byte)
    (c : bool) (d : fileout) (wd : World) :
  getWriter fuel b c d wd
  = if needsNewFile (bucketed d wd) (Z.of_nat (List.length b)) (rotationTime d)
                    (nameNow d wd)
    then newFile fuel false (rotationTime d) c
                 (bumped (bucketed d wd) (Z.of_nat (List.length b))) wd
    else Ok (w (bucketed d wd), None) (bucketed d wd) wd.
Proof.
  unfold getWriter, nameNow, bumped, bucketed.
  cbv beta iota zeta delta [bind this ask modify ret when].
  destruct (0 <? rotationTime d); cbv beta iota;
    match goal with
    | |- context [needsNewFile ?a ?x ?y ?z] => destruct (needsNewFile a x y z)
    end; try reflexivity;
    match goal with
    | |- context [maxSize ?a <? ?x] => destruct (maxSize a <? x)
    end; reflexivity.
Qed.

Lemma signal_eq {ext : Externals} (d : fileout) (wd : World) :
  (startMill_Do ;;; offer) d wd = Ok tt (signalled d) wd.
Proof.
  unfold startMill_Do, offer, signalled.
  cbv beta iota zeta delta [bind this ask modify ret when].
  destruct (startMill d); cbv beta iota delta [negb].
  - destruct (oldStuff d) as [[|x l]|]; reflexivity.
  - reflexivity.
Qed.

(** [newFile], in terms of its probe, of [createFile] and of what
    [close] does. *)
Lemma newFile_eq {ext : Externals} (fuel : nat) (rot : Duration) (c : bool)
    (d : fileout) (wd : World) :
  newFile fuel false rot c d wd
  = match probe fuel rot (fst (settled d wd)) (snd (settled d wd)) with
    | Ok filename d4 wd4 =>
        if negb c then
          Ok (fst (closeFlush d4 wd4), None)
             (set_fr None (set_size 0 (set_w (fst (closeFlush d4 wd4)) d4)))
             (closeWorld d4 wd4)
        else
          match createFile filename d4 wd4 with
          | Ok (inr err) d5 wd5 => Ok (None, Some err) d5 wd5
          | Ok (inl nf) d5 wd5 =>
              Ok (Some (swapped d5 wd5 nf), None)
                 (set_fr (Some nf) (set_size 0 (set_w (Some (swapped d5 wd5 nf)) d5)))
                 (closeWorld d5 wd5)
          | Panic => Panic
          | OutOfFuel => OutOfFuel
          end
    | Panic => Panic
    | OutOfFuel => OutOfFuel
    end.
Proof.
  pose proof (signal_eq d wd) as Hsig.
  unfold newFile, settled, swapped.
  cbv beta iota zeta delta [bind this ask modify ret when world] in Hsig |- *.
  destruct (startMill_Do d wd) as [[] d1 wd1| |]; try discriminate.
  destruct (offer d1 wd1) as [[] d2 wd2| |]; try discriminate.
  injection Hsig as -> ->.
  destruct (ditto (signalled d) wd);
    [destruct (Intn randnum wd) as [r wd']|];
    cbn [fst snd];
    (match goal with
     | |- context [probe ?f ?r ?x ?y] =>
         destruct (probe f r x y) as [filename d4 wd4| |]
     end; try reflexivity;
     destruct c; cbv beta iota delta [negb];
     [ destruct (createFile filename d4 wd4) as [[nf|err] d5 wd5| |];
       try reflexivity;
       rewrite close_eq; cbv beta iota;
       destruct (fst (closeFlush d5 wd5)); reflexivity
     | rewrite close_eq; reflexivity ]).
Qed.

Lemma createFile_ok {ext : Externals} (filename : string) (d : fileout) (wd : World) :
  fault wd (CallMkdirAll (filepath_Dir filename)) = None ->
  fault wd (CallOpenFile filename) = None ->
  createFile filename d wd
  = Ok (inl (mkFile filename (nextfd wd))) d (created filename wd)
  /\ trace (created filename wd)
     = CallOpenFile filename :: CallMkdirAll (filepath_Dir filename) :: trace wd.
Proof.
  intros Hmk Hop. unfold createFile, created, os_MkdirAll, os_OpenFile.
  cbv beta iota zeta delta [bind ret world].
  change (fault (called (CallMkdirAll (filepath_Dir filename)) wd))
    with (fault wd).
  rewrite Hmk. cbn [fst snd].
  change (fault (called (CallOpenFile filename)
                   (called (CallMkdirAll (filepath_Dir filename)) wd)))
    with (fault wd).
  rewrite Hop.
  destruct (files (called (CallOpenFile filename)
                     (called (CallMkdirAll (filepath_Dir filename)) wd)) filename);
    split; reflexivity.
Qed.

Lemma maxSize_range {ext : Externals} (l : fileout) : inInt64 (maxSize l).
Proof.
  unfold maxSize, mul64. destruct (Options.maxSize (opt l) <=? 0); apply wrap64_range.
Qed.

Lemma bucketed_frame {ext : Externals} (d : fileout) (wd : World) :
  fr (bucketed d wd) = fr d /\ w (bucketed d wd) = w d
  /\ size (bucketed d wd) = size d /\ generation (bucketed d wd) = generation d
  /\ opt (bucketed d wd) = opt d /\ strf (bucketed d wd) = strf d
  /\ match_ (bucketed d wd) = match_ d
  /\ oldStuff (bucketed d wd) = oldStuff d /\ startMill (bucketed d wd) = startMill d.
Proof.
  unfold bucketed. destruct (0 <? rotationTime d); repeat split; reflexivity.
Qed.

Lemma needsNewFile_false {ext : Externals} (d : fileout) (wd : World)
    (f : File) (writeLen : Z) :
  fr d = Some f ->
  (0 < rotationTime d -> nameNow d wd = Name f) ->
  minInt64 <= size d -> 0 <= writeLen ->
  size d + writeLen <= maxSize d ->
  needsNewFile (bucketed d wd) writeLen (rotationTime d) (nameNow d wd) = false.
Proof.
  intros Hfr Hname Hlo Hlen Hle.
  destruct (bucketed_frame d wd) as (Efr & _ & Esz & _ & Eopt & _).
  unfold needsNewFile. rewrite Efr, Hfr, Esz.
  replace (maxSize (bucketed d wd)) with (maxSize d)
    by (unfold maxSize; now rewrite Eopt).
  pose proof (maxSize_range d) as Hmax.
  rewrite add64_small by (unfold inInt64 in *; lia).
  destruct (Z.ltb_spec (maxSize d) (size d + writeLen)); [lia|].
  destruct (Z.ltb_spec 0 (rotationTime d)); [|reflexivity].
  rewrite Hname by assumption. now rewrite String.eqb_refl.
Qed.

(** ** Writes that keep the file *)

(** C2: a write issued while a file is open, the name computed for now
    (same generation) being the open file's name whenever time-based
    rotation is on, and with [size + len(b) <= maxSize], returns; the
    file handle and the generation stay as they were, the only calls made
    are writes (nothing is opened, closed or renamed), and the byte count
    grows by exactly the number [n] of bytes accepted, which is at most
    [len(b)]. *)
Theorem write_within_max_keeps_file {ext : Externals} (fuel : nat)
    (d : fileout) (wd : World) (b : list Byte.byte) (f : File) (bw : Writer) :
  fr d = Some f -> w d = Some bw ->
  (0 < rotationTime d -> nameNow d wd = Name f) ->
  minInt64 <= size d ->
  size d + Z.of_nat (List.length b) <= maxSize d ->
  exists (n : N) (err : option error) (d' : fileout) (wd' : World),
    Write fuel b d wd = Ok (n, err) d' wd'
    /\ fr d' = Some f
    /\ generation d' = generation d
    /\ size d' = size d + Z.of_N n
    /\ (n <= N.of_nat (List.length b))%N
    /\ (exists bw', w d' = Some bw' /\ b_wr bw' = b_wr bw)
    /\ extends isWrite wd wd'.
Proof.
  intros Hfr Hw Hname Hlo Hle.
  destruct (bucketed_frame d wd) as (Efr & Ew & Esz & Egen & _).
  unfold Write. unfold bind at 1. rewrite getWriter_eq.
  rewrite (needsNewFile_false d wd f) by (assumption || lia).
  rewrite Ew, Hw. unfold bind at 1. unfold w_Write. rewrite Ew, Hw.
  pose proof (Writer_Write_spec bw (N.of_nat (List.length b)) wd) as H.
  destruct (Writer_Write bw (N.of_nat (List.length b)) wd) as [[[n err] bw'] wd'].
  destruct H as (Hn & Hext & Hwr & _).
  cbv beta iota zeta delta [bind modify ret]. cbn [fst].
  exists n, err. eexists. exists wd'. split; [reflexivity|].
  cbn [fr generation size w set_size set_w].
  rewrite Efr, Egen, Esz.
  pose proof (maxSize_range d) as Hmax.
  rewrite add64_small by (unfold inInt64 in *; lia).
  repeat split; try assumption; try reflexivity.
  exists bw'. split; [reflexivity | assumption].
Qed.

(** ** Writes that rotate *)

Lemma signalled_frame {ext : Externals} (d : fileout) :
  opt (signalled d) = opt d /\ strf (signalled d) = strf d
  /\ currTime (signalled d) = currTime d /\ match_ (signalled d) = match_ d
  /\ w (signalled d) = w d /\ fr (signalled d) = fr d
  /\ size (signalled d) = size d /\ generation (signalled d) = generation d.
Proof.
  unfold signalled. destruct (startMill d).
  - destruct (oldStuff d) as [[|x l]|]; repeat split; reflexivity.
  - repeat split; reflexivity.
Qed.

Lemma candidate_frame {ext : Externals} (d d' : fileout) (rot : Duration) (g : Z) :
  opt d' = opt d -> strf d' = strf d -> currTime d' = currTime d ->
  candidate (set_generation g d') rot = candidate (set_generation g d) rot.
Proof.
  intros Eo Es Ec. unfold candidate. cbn [strf currTime generation opt set_generation].
  now rewrite Eo, Es, Ec.
Qed.

Lemma finalized_frame {ext : Externals} (d d' : fileout) (rot : Duration) (g : Z) :
  opt d' = opt d -> strf d' = strf d -> currTime d' = currTime d ->
  finalized d' rot g = finalized d rot g.
Proof.
  intros Eo Es Ec. unfold finalized. now rewrite (candidate_frame d d').
Qed.

Lemma probes_extends {ext : Externals} (d : fileout) (rot : Duration)
    (from to : Z) (wd : World) :
  extends isStat wd (called_all (probes d rot from to) wd).
Proof.
  exists (probes d rot from to). split; [reflexivity|].
  unfold probes. apply forallb_forall. intros c Hc.
  apply in_rev, in_map_iff in Hc. destruct Hc as (k & <- & _). reflexivity.
Qed.

Lemma needsNewFile_over {ext : Externals} (d : fileout) (writeLen : Z)
    (rot : Duration) (filename : string) :
  maxSize d < size d + writeLen -> inInt64 (size d + writeLen) ->
  needsNewFile d writeLen rot filename = true
  /\ bumped d writeLen = set_generation (add64 (generation d) 1) d.
Proof.
  intros Hover Hin. unfold needsNewFile, bumped.
  rewrite add64_small by assumption.
  destruct (Z.ltb_spec (maxSize d) (size d + writeLen)); [|lia].
  split; [|reflexivity]. destruct (fr d); reflexivity.
Qed.

(** What [getWriter] does for a write that pushes the size over the
    maximum, when some later generation is free and the new file can be
    created. *)
Lemma getWriter_over_max {ext : Externals} (d : fileout) (wd : World)
    (b : list Byte.byte) (g' : Z) :
  maxSize d < size d + Z.of_nat (List.length b) ->
  inInt64 (size d + Z.of_nat (List.length b)) ->
  0 <= generation d < g' -> g' <= maxInt64 ->
  taken (bucketed d wd) (rotationTime d) wd g' = false ->
  (forall p, fault wd (CallMkdirAll p) = None /\ fault wd (CallOpenFile p) = None) ->
  exists g : Z,
    generation d < g <= g'
    /\ taken (bucketed d wd) (rotationTime d) wd g = false
    /\ (forall k, generation d < k < g ->
          taken (bucketed d wd) (rotationTime d) wd k = true)
    /\ forall fuel, (Z.to_nat (g' - generation d) <= fuel)%nat ->
       exists (wr : Writer) (d1 : fileout) (wd1 : World),
         getWriter fuel b true d wd = Ok (Some wr, None) d1 wd1
         /\ w d1 = Some wr
         /\ b_wr wr = mkFile (candidate (set_generation g (bucketed d wd)) (rotationTime d))
                             (nextfd wd)
         /\ fr d1 = Some (b_wr wr)
         /\ generation d1 = g
         /\ size d1 = 0
         /\ calls isOpenFile wd1 = S (calls isOpenFile wd)
         /\ calls isClose wd1
            = match fr d with
              | Some _ => S (calls isClose wd)
              | None => calls isClose wd
              end.
Proof.
  intros Hover Hin Hgen Hmax Hfree Hfault.
  destruct (bucketed_frame d wd) as (Efr & Ew & Esz & Egen & Eopt & Estrf & _).
  set (d0 := bucketed d wd) in *.
  set (rot := rotationTime d) in *.
  assert (Emax : maxSize d0 = maxSize d) by (unfold maxSize; now rewrite Eopt).
  destruct (needsNewFile_over d0 (Z.of_nat (List.length b)) rot (nameNow d wd))
    as (Hneed & Hbump); [rewrite Emax, Esz; lia | now rewrite Esz |].
  set (d1 := set_generation (add64 (generation d0) 1) d0) in *.
  assert (Eg1 : generation d1 = generation d + 1).
  { unfold d1. cbn [generation set_generation]. rewrite Egen.
    apply add64_small. unfold inInt64, minInt64, maxInt64 in *. lia. }
  destruct (signalled_frame d1) as (So & Ss & Sc & _ & _ & Sfr & _ & Sg).
  set (d2 := signalled d1) in *.
  assert (Hsettled : settled d1 wd = (d2, wd)).
  { unfold settled. fold d2. unfold ditto. rewrite Sg, Eg1.
    destruct (Z.ltb_spec (generation d + 1) 1); [lia|].
    now rewrite andb_false_r. }
  assert (Fr : forall k, finalized d2 rot k = finalized d0 rot k).
  { intros k. apply finalized_frame; [now rewrite So | now rewrite Ss | now rewrite Sc]. }
  assert (Tk : forall k, taken d2 rot wd k = taken d0 rot wd k).
  { intros k. unfold taken. now rewrite Fr. }
  destruct (probe_least rot _ d2 wd g' eq_refl) as (g & Hrange & Hfree_g & Hbelow & Hrun).
  { rewrite Sg, Eg1. unfold minInt64. lia. }
  { exact Hmax. }
  { now rewrite Tk. }
  rewrite Sg, Eg1 in Hrange, Hbelow, Hrun.
  exists g. split; [lia|]. split; [now rewrite <- Tk|].
  split; [intros k Hk; rewrite <- Tk; apply Hbelow; lia|].
  intros fuel Hfuel.
  rewrite getWriter_eq. fold d0 rot. rewrite Hneed, Hbump. fold d1.
  rewrite newFile_eq, Hsettled. cbn [fst snd negb].
  rewrite Hrun by lia.
  set (d4 := set_generation g d2).
  set (wdp := called_all (probes d2 rot (generation d + 1) g) wd).
  set (filename := candidate d4 rot).
  destruct (createFile_ok filename d4 wdp) as (Hcreate & Htrace);
    [apply Hfault | apply Hfault |].
  rewrite Hcreate.
  eexists. eexists. eexists. split; [reflexivity|].
  cbn [w fr generation size set_fr set_size set_w].
  split; [reflexivity|].
  split.
  { unfold swapped. destruct (fst (closeFlush d4 (created filename wdp)));
      cbn [b_wr Reset NewWriterSize];
      unfold filename, d4; rewrite (candidate_frame d0 d2 rot g So Ss Sc);
      reflexivity. }
  split.
  { unfold swapped. destruct (fst (closeFlush d4 (created filename wdp))); reflexivity. }
  split; [reflexivity|]. split; [reflexivity|].
  assert (Hop : calls isOpenFile (created filename wdp) = S (calls isOpenFile wd)).
  { unfold calls at 1. rewrite Htrace. cbn [filter isOpenFile List.length]. f_equal.
    apply (extends_calls isStat); [now intros [] | apply probes_extends]. }
  assert (Hcl : calls isClose (created filename wdp) = calls isClose wd).
  { unfold calls at 1. rewrite Htrace. cbn [filter isClose].
    apply (extends_calls isStat); [now intros [] | apply probes_extends]. }
  split.
  - rewrite <- Hop.
    apply (extends_calls closeCall); [now intros [] | apply closeWorld_extends].
  - rewrite <- Hcl. unfold closeWorld.
    destruct (closeFlush_spec d4 (created filename wdp)) as (Hfl & _).
    pose proof (extends_calls isWrite isClose _ _ ltac:(now intros []) Hfl) as E1.
    assert (Efr4 : fr d4 = fr d) by (unfold d4; cbn [fr set_generation]; now rewrite Sfr).
    rewrite Efr4. destruct (fr d) as [f|]; [|exact E1].
    pose proof (renameFile_extends (Name f)
                  (snd (File_Close f (snd (closeFlush d4 (created filename wdp)))))) as Hrn.
    rewrite (extends_calls isRename isClose _ _ ltac:(now intros []) Hrn).
    rewrite <- E1. unfold File_Close.
    destruct (fds _ (Fd f)); reflexivity.
Qed.

(** C1: a write whose length pushes the byte count over the maximum
    ([size + len(b) > maxSize], the sum being an [int64]) returns, when
    some generation above the writer's is free and the new file can be
    created, after exactly one rotation: one file is opened (and the old
    one, if any, closed once), at the least free generation [g] above the
    old one, so the generation strictly increases; [getWriter] hands over
    the new file with the byte count at 0, and after the write the count
    is the number of bytes the new file's stream accepted. *)
Theorem write_over_max_rotates_once {ext : Externals} (d : fileout)
    (wd : World) (b : list Byte.byte) (g' : Z) :
  maxSize d < size d + Z.of_nat (List.length b) ->
  inInt64 (size d + Z.of_nat (List.length b)) ->
  Z.of_nat (List.length b) <= maxInt64 ->
  0 <= generation d < g' -> g' <= maxInt64 ->
  taken (bucketed d wd) (rotationTime d) wd g' = false ->
  (forall p, fault wd (CallMkdirAll p) = None /\ fault wd (CallOpenFile p) = None) ->
  exists g : Z,
    generation d < g <= g'
    /\ taken (bucketed d wd) (rotationTime d) wd g = false
    /\ (forall k, generation d < k < g ->
          taken (bucketed d wd) (rotationTime d) wd k = true)
    /\ forall fuel, (Z.to_nat (g' - generation d) <= fuel)%nat ->
       exists (nf : File) (wr : Writer) (d1 : fileout) (wd1 : World)
              (n : N) (err : option error) (d2 : fileout) (wd2 : World),
         nf = mkFile (candidate (set_generation g (bucketed d wd)) (rotationTime d))
                     (nextfd wd)
         /\ getWriter fuel b true d wd = Ok (Some wr, None) d1 wd1
         /\ fr d1 = Some nf /\ generation d1 = g /\ size d1 = 0
         /\ Write fuel b d wd = Ok (n, err) d2 wd2
         /\ fr d2 = Some nf /\ generation d2 = g
         /\ size d2 = Z.of_N n /\ (n <= N.of_nat (List.length b))%N
         /\ calls isOpenFile wd2 = S (calls isOpenFile wd)
         /\ calls isClose wd2
            = match fr d with
              | Some _ => S (calls isClose wd)
              | None => calls isClose wd
              end.
Proof.
  intros Hover Hin Hlen Hgen Hmax Hfree Hfault.
  destruct (getWriter_over_max d wd b g' Hover Hin Hgen Hmax Hfree Hfault)
    as (g & Hrange & Hfree_g & Hbelow & Hrun).
  exists g. split; [exact Hrange|]. split; [exact Hfree_g|]. split; [exact Hbelow|].
  intros fuel Hfuel.
  destruct (Hrun fuel Hfuel)
    as (wr & d1 & wd1 & Hget & Hw & Hwr & Hfr & Hg & Hsz & Hop & Hcl).
  pose proof (Writer_Write_spec wr (N.of_nat (List.length b)) wd1) as Hspec.
  unfold Write. unfold bind at 1. rewrite Hget.
  unfold bind at 1. unfold w_Write. rewrite Hw.
  destruct (Writer_Write wr (N.of_nat (List.length b)) wd1) as [[[n err] wr'] wd2].
  destruct Hspec as (Hn & Hext & _ & _).
  cbv beta iota zeta delta [bind modify ret]. cbn [fst].
  exists (b_wr wr), wr, d1, wd1, n, err. eexists. exists wd2.
  split; [exact Hwr|]. split; [reflexivity|].
  split; [exact Hfr|]. split; [exact Hg|]. split; [exact Hsz|].
  split; [reflexivity|].
  cbn [fr generation size set_size set_w].
  split; [exact Hfr|]. split; [exact Hg|].
  split.
  { rewrite Hsz. apply add64_small.
    unfold inInt64, minInt64, maxInt64 in *. lia. }
  split; [exact Hn|].
  split.
  - rewrite <- Hop. apply (extends_calls isWrite); [now intros [] | exact Hext].
  - rewrite <- Hcl. apply (extends_calls isWrite); [now intros [] | exact Hext].
Qed.

Lemma write_over_max_rotates_once_witness :
  exists (g : Z) (n : N) (err : option error) (d2 : fileout) (wd2 : World),
    generation Sample.full < g <= 8
    /\ Write 1 [Byte.x62] Sample.full (snd Sample.opened) = Ok (n, err) d2 wd2
    /\ generation d2 = g
    /\ size d2 = Z.of_N n
    /\ calls isOpenFile wd2 = S (calls isOpenFile (snd Sample.opened)).
Proof.
  destruct (write_over_max_rotates_once Sample.full (snd Sample.opened) [Byte.x62] 8)
    as (g & Hrange & _ & _ & Hrun).
  - vm_compute. reflexivity.
  - vm_compute. split; discriminate.
  - vm_compute. discriminate.
  - vm_compute. split; [discriminate | reflexivity].
  - vm_compute. discriminate.
  - vm_compute. reflexivity.
  - intros p. split; reflexivity.
  - destruct (Hrun 1%nat) as (nf & wr & d1 & wd1 & n & err & d2 & wd2 & H);
      [vm_compute; apply le_n|].
    destruct H as (_ & _ & _ & _ & _ & Hwrite & _ & Hg & Hsz & _ & Hop & _).
    exists g, n, err, d2, wd2.
    split; [exact Hrange|]. split; [exact Hwrite|]. split; [exact Hg|].
    split; [exact Hsz | exact Hop].
Defined.

(** On the sample directory the rotation goes from generation 7 to 8. *)
Example write_over_max_sample :
  generation Sample.full = 7
  /\ fr Sample.full = Some (mkFile "logs/app.60000.7.tmp" 3)
  /\ match Write 1 [Byte.x62] Sample.full (snd Sample.opened) with
     | Ok (n, err) d2 wd2 =>
         n = 1%N /\ err = None /\ generation d2 = 8 /\ size d2 = 1
         /\ fr d2 = Some (mkFile "logs/app.60000.8.tmp" 4)
         /\ rev (trace wd2)
            = [CallStat "logs/app.60000.7"; CallMkdirAll "logs";
               CallOpenFile "logs/app.60000.7.tmp";
               CallStat "logs/app.60000.8"; CallMkdirAll "logs";
               CallOpenFile "logs/app.60000.8.tmp"; CallWrite 3 1;
               CallClose 3;
               CallRename "logs/app.60000.7.tmp" "logs/app.60000.7"]
     | _ => False
     end.
Proof. vm_compute. repeat split. Qed.

Lemma write_within_max_keeps_file_witness :
  exists (n : N) (err : option error) (d' : fileout) (wd' : World),
    Write 0 [Byte.x62; Byte.x63] (fst Sample.opened) (snd Sample.opened)
    = Ok (n, err) d' wd'
    /\ fr d' = Some (mkFile "logs/app.60000.7.tmp" 3)
    /\ generation d' = generation (fst Sample.opened)
    /\ size d' = size (fst Sample.opened) + Z.of_N n
    /\ (n <= 2)%N
    /\ (exists bw', w d' = Some bw'
                    /\ b_wr bw' = mkFile "logs/app.60000.7.tmp" 3)
    /\ extends isWrite (snd Sample.opened) wd'.
Proof.
  apply (write_within_max_keeps_file 0 (fst Sample.opened) (snd Sample.opened)
           [Byte.x62; Byte.x63] (mkFile "logs/app.60000.7.tmp" 3)
           (mkWriter (mkFile "logs/app.60000.7.tmp" 3) 4194304 1 None)).
  - vm_compute. reflexivity.
  - vm_compute. reflexivity.
  - intros _. vm_compute. reflexivity.
  - vm_compute. discriminate.
  - vm_compute. discriminate.
Defined.

(** ** The check that creates no file *)

Lemma bumped_frame {ext : Externals} (d : fileout) (writeLen : Z) :
  opt (bumped d writeLen) = opt d /\ strf (bumped d writeLen) = strf d
  /\ currTime (bumped d writeLen) = currTime d
  /\ match_ (bumped d writeLen) = match_ d
  /\ w (bumped d writeLen) = w d /\ fr (bumped d writeLen) = fr d
  /\ size (bumped d writeLen) = size d.
Proof.
  unfold bumped. destruct (maxSize d <? add64 (size d) writeLen);
    repeat split; reflexivity.
Qed.

Lemma settled_frame {ext : Externals} (d : fileout) (wd : World) :
  (opt (fst (settled d wd)) = opt d /\ strf (fst (settled d wd)) = strf d
   /\ currTime (fst (settled d wd)) = currTime d
   /\ match_ (fst (settled d wd)) = match_ d
   /\ w (fst (settled d wd)) = w d /\ fr (fst (settled d wd)) = fr d
   /\ size (fst (settled d wd)) = size d)
  /\ trace (snd (settled d wd)) = trace wd.
Proof.
  destruct (signalled_frame d) as (So & Ss & Sc & Sm & Sw & Sfr & Ssz & _).
  unfold settled. destruct (ditto (signalled d) wd).
  - unfold Intn. destruct (randsrc wd); cbn [fst snd];
      repeat split; assumption.
  - cbn [fst snd]. repeat split; assumption.
Qed.

Lemma probeStart_frame {ext : Externals} (d : fileout) (wd : World)
    (b : list Byte.byte) :
  (opt (fst (probeStart d wd b)) = opt d /\ strf (fst (probeStart d wd b)) = strf d
   /\ match_ (fst (probeStart d wd b)) = match_ d
   /\ w (fst (probeStart d wd b)) = w d /\ fr (fst (probeStart d wd b)) = fr d)
  /\ trace (snd (probeStart d wd b)) = trace wd.
Proof.
  unfold probeStart.
  destruct (settled_frame (bumped (bucketed d wd) (Z.of_nat (List.length b))) wd)
    as ((So & Ss & _ & Sm & Sw & Sfr & _) & St).
  destruct (bumped_frame (bucketed d wd) (Z.of_nat (List.length b)))
    as (Bo & Bs & _ & Bm & Bw & Bfr & _).
  destruct (bucketed_frame d wd) as (Efr & Ew & _ & _ & Eo & Es & Em & _).
  repeat split; congruence.
Qed.

(** C9: a call of [getWriter] with [createFile] false for which a new
    file is deemed necessary returns (when the probe loop ends) with no
    error and the pointer [d.w]; the open file, if any, has been closed
    and handed to [renameFile]; the byte count is 0 and the file handle
    nil; no directory is made and no file opened; the options, the
    pattern, the glob and the buffered writer's file and capacity are as
    before (what else changes is the rotation's own record: bucket time,
    generation, channel). *)
Theorem dry_run_closes_without_replacement {ext : Externals} (d : fileout)
    (wd : World) (b : list Byte.byte) (g' : Z) :
  needsNewFile (bucketed d wd) (Z.of_nat (List.length b)) (rotationTime d)
               (nameNow d wd) = true ->
  minInt64 <= generation (fst (probeStart d wd b)) <= g' -> g' <= maxInt64 ->
  taken (fst (probeStart d wd b)) (rotationTime d) (snd (probeStart d wd b)) g' = false ->
  exists g : Z,
    generation (fst (probeStart d wd b)) <= g <= g'
    /\ forall fuel, (Z.to_nat (g' - generation (fst (probeStart d wd b))) < fuel)%nat ->
       exists (d' : fileout) (wd' : World),
         getWriter fuel b false d wd = Ok (w d', None) d' wd'
         /\ size d' = 0 /\ fr d' = None /\ generation d' = g
         /\ opt d' = opt d /\ strf d' = strf d /\ match_ d' = match_ d
         /\ (w d = None -> w d' = None)
         /\ (forall bw, w d = Some bw ->
               exists bw', w d' = Some bw'
                           /\ b_wr bw' = b_wr bw /\ b_len bw' = b_len bw)
         /\ calls isOpenFile wd' = calls isOpenFile wd
         /\ calls isMkdirAll wd' = calls isMkdirAll wd
         /\ match fr d with
            | Some f =>
                calls isClose wd' = S (calls isClose wd)
                /\ exists wdf, extends statOrWrite wd wdf
                     /\ wd' = snd (renameFile (Name f) (snd (File_Close f wdf)))
            | None =>
                calls isClose wd' = calls isClose wd
                /\ calls isRename wd' = calls isRename wd
            end.
Proof.
  intros Hneed Hgen Hmax Hfree.
  destruct (probeStart_frame d wd b) as ((So & Ss & Sm & Sw & Sfr) & St).
  set (start := fst (probeStart d wd b)) in *.
  set (wd0 := snd (probeStart d wd b)) in *.
  destruct (probe_least (rotationTime d) _ start wd0 g' eq_refl Hgen Hmax Hfree)
    as (g & Hrange & _ & _ & Hrun).
  exists g. split; [exact Hrange|].
  intros fuel Hfuel.
  rewrite getWriter_eq, Hneed, newFile_eq.
  change (settled (bumped (bucketed d wd) (Z.of_nat (List.length b))) wd)
    with (probeStart d wd b).
  fold start wd0. rewrite Hrun by lia. cbn [negb].
  set (d4 := set_generation g start).
  set (wd4 := called_all (probes start (rotationTime d) (generation start) g) wd0).
  assert (Hwd4 : extends isStat wd wd4).
  { destruct (probes_extends start (rotationTime d) (generation start) g wd0)
      as (cs & E & F).
    exists cs. split; [now rewrite <- St | exact F]. }
  destruct (closeFlush_spec d4 wd4) as (Hfl & Hnone & Hsome).
  assert (Hcw : extends closeCall wd4 (closeWorld d4 wd4)) by apply closeWorld_extends.
  exists (set_fr None (set_size 0 (set_w (fst (closeFlush d4 wd4)) d4))),
    (closeWorld d4 wd4).
  split; [reflexivity|].
  cbn [w fr generation size opt strf match_ set_fr set_size set_w].
  split; [reflexivity|]. split; [reflexivity|]. split; [reflexivity|].
  split; [exact So|]. split; [exact Ss|]. split; [exact Sm|].
  split; [intros Hw; apply Hnone; unfold d4; cbn [w set_generation]; congruence|].
  split.
  { intros bw Hw. apply Hsome. unfold d4. cbn [w set_generation]. congruence. }
  split.
  { rewrite (extends_calls closeCall isOpenFile _ _ ltac:(now intros []) Hcw).
    apply (extends_calls isStat); [now intros [] | exact Hwd4]. }
  split.
  { rewrite (extends_calls closeCall isMkdirAll _ _ ltac:(now intros []) Hcw).
    apply (extends_calls isStat); [now intros [] | exact Hwd4]. }
  assert (Hflw : extends statOrWrite wd (snd (closeFlush d4 wd4))).
  { eapply extends_trans.
    - eapply extends_weaken; [|exact Hwd4].
      intros c Hc. unfold statOrWrite. now rewrite Hc.
    - eapply extends_weaken; [|exact Hfl].
      intros c Hc. unfold statOrWrite. rewrite Hc. apply orb_true_r. }
  assert (Efr4 : fr d4 = fr d) by (unfold d4; cbn [fr set_generation]; exact Sfr).
  unfold closeWorld. rewrite Efr4. destruct (fr d) as [f|].
  - split.
    + rewrite (extends_calls isRename isClose _ _ ltac:(now intros [])
                 (renameFile_extends _ _)).
      rewrite <- (extends_calls statOrWrite isClose _ _ ltac:(now intros []) Hflw).
      unfold File_Close. destruct (fds _ (Fd f)); reflexivity.
    + exists (snd (closeFlush d4 wd4)). split; [exact Hflw | reflexivity].
  - split.
    + apply (extends_calls statOrWrite); [now intros [] | exact Hflw].
    + apply (extends_calls statOrWrite); [now intros [] | exact Hflw].
Qed.

Lemma dry_run_closes_without_replacement_witness :
  exists (d' : fileout) (wd' : World),
    getWriter 1 [] false (fst Sample.opened)
              (Sample.later (2 * Minute) (snd Sample.opened))
    = Ok (w d', None) d' wd'
    /\ size d' = 0 /\ fr d' = None
    /\ calls isOpenFile wd' = calls isOpenFile (snd Sample.opened)
    /\ calls isClose wd' = S (calls isClose (snd Sample.opened)).
Proof.
  destruct (dry_run_closes_without_replacement (fst Sample.opened)
              (Sample.later (2 * Minute) (snd Sample.opened)) [] 7)
    as (g & _ & Hrun).
  - vm_compute. reflexivity.
  - vm_compute. split; discriminate.
  - vm_compute. discriminate.
  - vm_compute. reflexivity.
  - destruct (Hrun 1%nat) as (d' & wd' & H); [vm_compute; apply le_n|].
    destruct H as (Hget & Hsz & Hfr & _ & _ & _ & _ & _ & _ & Hop & _ & Hcl).
    exists d', wd'. split; [exact Hget|]. split; [exact Hsz|].
    split; [exact Hfr|]. split; [exact Hop|].
    exact (proj1 Hcl).
Defined.

(** Two minutes after the first write, the worker's check closes and
    finalizes the idle file and opens nothing. *)
Example dry_run_sample :
  match getWriter 1 [] false (fst Sample.opened)
                  (Sample.later (2 * Minute) (snd Sample.opened)) with
  | Ok (wr, err) d' wd' =>
      err = None /\ wr = w d' /\ size d' = 0 /\ fr d' = None
      /\ rev (trace wd')
         = [CallStat "logs/app.60000.7"; CallMkdirAll "logs";
            CallOpenFile "logs/app.60000.7.tmp";
            CallStat "logs/app.60002.7"; CallWrite 3 1; CallClose 3;
            CallRename "logs/app.60000.7.tmp" "logs/app.60000.7"]
      /\ files wd' "logs/app.60000.7" = Some (mkInode 1 (Sample.t0 + 2 * Minute))
      /\ files wd' "logs/app.60000.7.tmp" = None
  | _ => False
  end.
Proof. vm_compute. repeat split. Qed.

(** ** What a run keeps of the buffered writer *)

Lemma probe_frame {ext : Externals} (rot : Duration) (fuel : nat) :
  forall (d : fileout) (wd : World) (a : string) (d' : fileout) (wd' : World),
    probe fuel rot d wd = Ok a d' wd' ->
    exists g, d' = set_generation g d.
Proof.
  induction fuel as [|fuel IH]; intros d wd a d' wd' H.
  - discriminate.
  - destruct (taken d rot wd (generation d)) eqn:Ht.
    + rewrite (probe_taken _ _ _ _ Ht) in H.
      destruct (IH _ _ _ _ _ H) as (g & ->). now exists g.
    + rewrite (probe_free _ _ _ _ Ht) in H. injection H as _ <- _.
      exists (generation d). now destruct d.
Qed.

Lemma createFile_frame {ext : Externals} (filename : string) (d : fileout)
    (wd : World) (r : File + error) (d' : fileout) (wd' : World) :
  createFile filename d wd = Ok r d' wd' -> d' = d.
Proof.
  unfold createFile. cbv beta iota zeta delta [bind ret world].
  destruct (os_MkdirAll (filepath_Dir filename) wd) as [[e|] wd1].
  - now intros [= _ <- _].
  - destruct (os_OpenFile filename wd1) as [[fh|e] wd2]; now intros [= _ <- _].
Qed.

(** [getWriter] never loses the buffered writer, and makes one only when
    it may create a file. *)
Lemma getWriter_w {ext : Externals} (fuel : nat) (b : list Byte.byte)
    (c : bool) (d : fileout) (wd : World)
    (r : option Writer * option error) (d' : fileout) (wd' : World) :
  getWriter fuel b c d wd = Ok r d' wd' ->
  (w d <> None -> w d' <> None)
  /\ (w d = None -> c = false -> w d' = None).
Proof.
  rewrite getWriter_eq.
  destruct (probeStart_frame d wd b) as ((_ & _ & _ & Sw & _) & _).
  destruct (bucketed_frame d wd) as (_ & Ew & _).
  destruct (needsNewFile _ _ _ _).
  - rewrite newFile_eq.
    change (settled (bumped (bucketed d wd) (Z.of_nat (List.length b))) wd)
      with (probeStart d wd b).
    destruct (probe fuel (rotationTime d) (fst (probeStart d wd b))
                (snd (probeStart d wd b))) as [filename d4 wd4| |] eqn:Hp;
      try discriminate.
    destruct (probe_frame _ _ _ _ _ _ _ Hp) as (g & ->).
    destruct (closeFlush_spec (set_generation g (fst (probeStart d wd b))) wd4)
      as (_ & Hnone & Hsome).
    cbn [w set_generation] in Hnone, Hsome. rewrite Sw in Hnone, Hsome.
    destruct c; cbn [negb].
    + destruct (createFile filename _ wd4) as [[nf|err] d5 wd5| |] eqn:Hc;
        try discriminate.
      * intros [= _ <- _]. cbn [w set_fr set_size set_w].
        split; [discriminate|]. discriminate.
      * apply createFile_frame in Hc. subst d5.
        intros [= _ <- _]. cbn [w set_generation]. rewrite Sw.
        split; [trivial | discriminate].
    + intros [= _ <- _]. cbn [w set_fr set_size set_w]. split.
      * intros Hw. destruct (w d) as [bw|]; [|contradiction].
        destruct (Hsome bw eq_refl) as (bw' & -> & _). discriminate.
      * intros Hw _. now apply Hnone.
  - intros [= _ <- _]. rewrite Ew. split; [trivial | trivial].
Qed.

Lemma stduffRange_frame {ext : Externals} (matches : list string) :
  forall (d : fileout) (wd : World),
    exists r wd', stduffRange matches d wd = Ok r d wd'.
Proof.
  induction matches as [|fullName rest IH]; intros d wd; simpl.
  - now exists None, wd.
  - cbv beta iota zeta delta [bind this world ret os_Stat].
    destruct (stat fullName wd) as [f|e]; [|apply IH].
    destruct (maxAge d <? Time_Sub (currTime d) (fi_ModTime f)).
    + destruct (os_Remove fullName (called (CallStat fullName) wd)) as [e wd1].
      apply IH.
    + destruct (HasSuffix fullName templog && _).
      * destruct (renameFile (fi_Name f) (called (CallStat fullName) wd)) as [e wd1].
        now exists e, wd1.
      * destruct (Options.stuffunc (opt d)) as [cb|]; apply IH.
Qed.

Lemma stduffHandler_frame {ext : Externals} (stduff : string) (d : fileout)
    (wd : World) :
  exists r wd', stduffHandler stduff d wd = Ok r d wd'.
Proof.
  unfold stduffHandler. cbv beta iota zeta delta [bind world ret].
  destruct (filepath_Glob stduff wd) as [matches|err].
  - apply stduffRange_frame.
  - eexists. eexists. reflexivity.
Qed.

Lemma step_w {ext : Externals} (fuel : nat) (o : Op) (d : fileout) (wd : World)
    (d' : fileout) (wd' : World) :
  step fuel o d wd = Ok tt d' wd' ->
  (w d <> None -> w d' <> None)
  /\ (w d = None -> usesWriter o = false -> w d' = None).
Proof.
  destruct o as [b| | | | |f]; cbn [step usesWriter].
  - unfold Write. cbv beta iota zeta delta [bind ret modify].
    destruct (getWriter fuel b true d wd) as [[wr err] d1 wd1| |] eqn:Hg;
      try discriminate.
    apply getWriter_w in Hg. destruct Hg as (Hkeep & _).
    destruct wr as [wr|], err as [e|]; try discriminate;
      try (intros [= <- _]; split; [exact Hkeep | discriminate]).
    unfold w_Write. destruct (w d1) as [bw|]; [|discriminate].
    destruct (Writer_Write bw _ wd1) as [[[n err] bw'] wd2].
    intros [= <- _]. cbn [w set_size set_w]. split; discriminate.
  - unfold Sync, w_Flush. cbv beta iota zeta delta [bind ret].
    destruct (w d) as [bw|]; [|discriminate].
    destruct (Flush bw wd) as [[e bw'] wd1].
    intros [= <- _]. cbn [w set_w]. split; discriminate.
  - unfold Close. cbv beta iota zeta delta [bind ret]. rewrite close_eq.
    intros [= <- _]. cbn [w set_w].
    destruct (closeFlush_spec d wd) as (_ & Hnone & Hsome). split.
    + intros Hw. destruct (w d) as [bw|]; [|contradiction].
      destruct (Hsome bw eq_refl) as (bw' & -> & _). discriminate.
    + intros Hw _. now apply Hnone.
  - cbv beta iota zeta delta [bind this when ret].
    destruct (startMill d); [|intros [= <- _]; split; trivial].
    unfold stduffRun_recv. cbv beta iota zeta delta [bind this modify ret].
    destruct (oldStuff d) as [[|stduff rest]|];
      try (intros [= <- _]; split; trivial).
    destruct (stduffHandler_frame stduff (set_oldStuff (Some rest) d) wd)
      as (r & wd1 & ->).
    intros [= <- _]. split; trivial.
  - cbv beta iota zeta delta [bind this when ret].
    destruct (startMill d && (0 <? rotationTime d));
      [|intros [= <- _]; split; trivial].
    unfold stduffRun_tick. cbv beta iota zeta delta [bind this ret].
    assert (Hdry : match getWriter fuel [] false d wd with
                   | Ok _ d'0 wd'0 => Ok tt d'0 wd'0
                   | Panic => Panic
                   | OutOfFuel => OutOfFuel
                   end = Ok tt d' wd' ->
                   (w d <> None -> w d' <> None)
                   /\ (w d = None -> false = false -> w d' = None)).
    { destruct (getWriter fuel [] false d wd) as [r d1 wd1| |] eqn:Hg;
        try discriminate.
      intros [= <- _]. apply getWriter_w in Hg. destruct Hg as (Hk & Hn).
      split; [exact Hk | intros Hw _; now apply Hn]. }
    destruct (oldStuff d) as [[|x l]|]; try exact Hdry.
    intros [= <- _]. split; trivial.
  - intros [= <- _]. split; trivial.
Qed.

Lemma run_w {ext : Externals} (fuel : nat) (ops : list Op) :
  forall (d : fileout) (wd : World) (d' : fileout) (wd' : World),
    run fuel ops d wd = Ok tt d' wd' ->
    (w d <> None -> w d' <> None)
    /\ (w d = None -> forallb (fun o => negb (usesWriter o)) ops = true ->
        w d' = None).
Proof.
  induction ops as [|o ops IH]; intros d wd d' wd'; cbn [run forallb].
  - intros [= <- _]. split; trivial.
  - unfold bind at 1.
    destruct (step fuel o d wd) as [[] d1 wd1| |] eqn:Hs; try discriminate.
    intros Hrun. apply step_w in Hs. apply IH in Hrun.
    destruct Hs as (Hk1 & Hn1), Hrun as (Hk2 & Hn2). split.
    + intros Hw. apply Hk2, Hk1, Hw.
    + intros Hw Hall. apply andb_true_iff in Hall. destruct Hall as (Ho & Hall).
      apply Hn2; [|exact Hall]. apply Hn1; [exact Hw|].
      now destruct (usesWriter o).
Qed.

Lemma Write_w {ext : Externals} (fuel : nat) (b : list Byte.byte)
    (d : fileout) (wd : World) (n : N) (d' : fileout) (wd' : World) :
  Write fuel b d wd = Ok (n, None) d' wd' -> w d' <> None.
Proof.
  unfold Write. cbv beta iota zeta delta [bind ret modify].
  destruct (getWriter fuel b true d wd) as [[[wr|] [e|]] d1 wd1| |];
    try discriminate.
  unfold w_Write. destruct (w d1) as [bw|]; [|discriminate].
  destruct (Writer_Write bw _ wd1) as [[[k err] bw'] wd2].
  intros [= _ _ <- _]. cbn [w set_size set_w]. discriminate.
Qed.

(** Every writer reached from [NewFileout] has a buffered writer when it
    has a file open. *)
Lemma getWriter_open {ext : Externals} (fuel : nat) (b : list Byte.byte)
    (c : bool) (d : fileout) (wd : World)
    (r : option Writer * option error) (d' : fileout) (wd' : World) :
  getWriter fuel b c d wd = Ok r d' wd' ->
  openHasWriter d -> openHasWriter d'.
Proof.
  unfold openHasWriter. rewrite getWriter_eq.
  destruct (probeStart_frame d wd b) as ((_ & _ & _ & Sw & Sfr) & _).
  destruct (bucketed_frame d wd) as (Efr & Ew & _).
  destruct (needsNewFile _ _ _ _).
  - rewrite newFile_eq.
    change (settled (bumped (bucketed d wd) (Z.of_nat (List.length b))) wd)
      with (probeStart d wd b).
    destruct (probe fuel (rotationTime d) (fst (probeStart d wd b))
                (snd (probeStart d wd b))) as [filename d4 wd4| |] eqn:Hp;
      try stuck.
    destruct (probe_frame _ _ _ _ _ _ _ Hp) as (g & ->).
    destruct c; cbn [negb].
    + destruct (createFile filename _ wd4) as [[nf|err] d5 wd5| |] eqn:Hc;
        try stuck.
      * intros [= _ <- _] _ _. cbn [w set_fr set_size set_w]. discriminate.
      * apply createFile_frame in Hc. subst d5.
        intros [= _ <- _]. cbn [w fr set_generation]. now rewrite Sw, Sfr.
    + intros [= _ <- _] _. cbn [fr set_fr]. contradiction.
  - intros [= _ <- _]. now rewrite Efr, Ew.
Qed.

Lemma step_open {ext : Externals} (fuel : nat) (o : Op) (d : fileout)
    (wd : World) (d' : fileout) (wd' : World) :
  step fuel o d wd = Ok tt d' wd' ->
  openHasWriter d -> openHasWriter d'.
Proof.
  destruct o as [b| | | | |f]; cbn [step].
  - unfold Write. cbv beta iota zeta delta [bind ret modify].
    destruct (getWriter fuel b true d wd) as [[wr err] d1 wd1| |] eqn:Hg;
      try stuck.
    pose proof (getWriter_open _ _ _ _ _ _ _ _ Hg) as Hopen.
    destruct wr as [wr|], err as [e|]; try stuck;
      try (intros [= <- _]; exact Hopen).
    unfold w_Write. destruct (w d1) as [bw|]; [|stuck].
    destruct (Writer_Write bw _ wd1) as [[[n err] bw'] wd2].
    intros [= <- _] _ _. cbn [w set_size set_w]. discriminate.
  - unfold Sync, w_Flush. cbv beta iota zeta delta [bind ret].
    destruct (w d) as [bw|]; [|stuck].
    destruct (Flush bw wd) as [[e bw'] wd1].
    intros [= <- _] _ _. cbn [w set_w]. discriminate.
  - unfold Close. cbv beta iota zeta delta [bind ret]. rewrite close_eq.
    intros [= <- _]. unfold openHasWriter. cbn [w fr set_w].
    destruct (closeFlush_spec d wd) as (_ & _ & Hsome).
    intros Hinv Hfr. specialize (Hinv Hfr).
    destruct (w d) as [bw|]; [|contradiction].
    destruct (Hsome bw eq_refl) as (bw' & -> & _). discriminate.
  - cbv beta iota zeta delta [bind this when ret].
    destruct (startMill d); [|now intros [= <- _]].
    unfold stduffRun_recv. cbv beta iota zeta delta [bind this modify ret].
    destruct (oldStuff d) as [[|stduff rest]|]; try (now intros [= <- _]).
    destruct (stduffHandler_frame stduff (set_oldStuff (Some rest) d) wd)
      as (r & wd1 & ->).
    now intros [= <- _].
  - cbv beta iota zeta delta [bind this when ret].
    destruct (startMill d && (0 <? rotationTime d)); [|now intros [= <- _]].
    unfold stduffRun_tick. cbv beta iota zeta delta [bind this ret].
    assert (Hdry : match getWriter fuel [] false d wd with
                   | Ok _ d'0 wd'0 => Ok tt d'0 wd'0
                   | Panic => Panic
                   | OutOfFuel => OutOfFuel
                   end = Ok tt d' wd' ->
                   openHasWriter d -> openHasWriter d').
    { destruct (getWriter fuel [] false d wd) as [r d1 wd1| |] eqn:Hg;
        try stuck.
      intros [= <- _]. exact (getWriter_open _ _ _ _ _ _ _ _ Hg). }
    destruct (oldStuff d) as [[|x l]|]; try exact Hdry.
    now intros [= <- _].
  - now intros [= <- _].
Qed.

Lemma run_open {ext : Externals} (fuel : nat) (name : string)
    (opts : list Option) (ops : list Op) (d0 : fileout) (wd : World)
    (d : fileout) (wd' : World) :
  NewFileout name opts = inl d0 ->
  run fuel ops d0 wd = Ok tt d wd' ->
  openHasWriter d.
Proof.
  intros Hnew.
  assert (H0 : openHasWriter d0).
  { unfold NewFileout in Hnew. destruct (strftime_New name); [|discriminate Hnew].
    injection Hnew as <-. intros Hfr. now contradiction Hfr. }
  clear Hnew. revert d0 wd H0.
  induction ops as [|o ops IH]; intros d0 wd H0; cbn [run].
  - now intros [= <- _].
  - unfold bind at 1.
    destruct (step fuel o d0 wd) as [[] d1 wd1| |] eqn:Hs; try stuck.
    apply IH. exact (step_open _ _ _ _ _ _ Hs H0).
Qed.

(** ** [Sync] *)

(** C10: on a writer as [NewFileout] returns it, also after any calls
    that do not go through the writer's stream ([Close], the worker's
    wake-ups, changes of the surroundings), [Sync] dereferences the nil
    [d.w] and panics instead of returning an error; once a [Write] has
    returned without error, whatever runs after it, [d.w] is a buffered
    writer and [Sync] returns what its [Flush] returns. *)
Theorem Sync_needs_a_buffered_writer {ext : Externals} :
  (forall (name : string) (opts : list Option) (d0 : fileout) (fuel : nat)
          (ops : list Op) (wd : World) (d : fileout) (wd' : World),
      NewFileout name opts = inl d0 ->
      forallb (fun o => negb (usesWriter o)) ops = true ->
      run fuel ops d0 wd = Ok tt d wd' ->
      Sync d wd' = Panic)
  /\ (forall (fuel : nat) (b : list Byte.byte) (d0 : fileout) (wd0 : World)
             (n : N) (d1 : fileout) (wd1 : World) (ops : list Op)
             (d : fileout) (wd : World),
        Write fuel b d0 wd0 = Ok (n, None) d1 wd1 ->
        run fuel ops d1 wd1 = Ok tt d wd ->
        exists bw : Writer,
          w d = Some bw
          /\ Sync d wd
             = Ok (fst (fst (Flush bw wd)))
                  (set_w (Some (snd (fst (Flush bw wd)))) d)
                  (snd (Flush bw wd))).
Proof.
  split.
  - intros name opts d0 fuel ops wd d wd' Hnew Hops Hrun.
    assert (Hw0 : w d0 = None).
    { unfold NewFileout in Hnew. destruct (strftime_New name); [|discriminate].
      injection Hnew as <-. reflexivity. }
    apply run_w in Hrun. destruct Hrun as (_ & Hnone).
    unfold Sync, w_Flush. now rewrite (Hnone Hw0 Hops).
  - intros fuel b d0 wd0 n d1 wd1 ops d wd Hwrite Hrun.
    apply Write_w in Hwrite. apply run_w in Hrun. destruct Hrun as (Hkeep & _).
    specialize (Hkeep Hwrite). destruct (w d) as [bw|] eqn:Hw; [|contradiction].
    exists bw. split; [reflexivity|].
    unfold Sync, w_Flush. rewrite Hw.
    destruct (Flush bw wd) as [[e bw'] wd2]. reflexivity.
Qed.

Lemma Sync_needs_a_buffered_writer_witness :
  Sync (Sample.fresh []) Sample.emptyWorld = Panic
  /\ exists bw : Writer,
       w (fst Sample.opened) = Some bw
       /\ Sync (fst Sample.opened) (snd Sample.opened)
          = Ok (fst (fst (Flush bw (snd Sample.opened))))
               (set_w (Some (snd (fst (Flush bw (snd Sample.opened)))))
                      (fst Sample.opened))
               (snd (Flush bw (snd Sample.opened))).
Proof.
  split.
  - apply (proj1 Sync_needs_a_buffered_writer "logs/app" [] (Sample.fresh [])
             O [] Sample.emptyWorld (Sample.fresh []) Sample.emptyWorld);
      reflexivity.
  - apply (proj2 Sync_needs_a_buffered_writer 1%nat [Byte.x61]
             (Sample.fresh [WithMaxSize 1]) Sample.emptyWorld 1%N
             (fst Sample.opened) (snd Sample.opened) []
             (fst Sample.opened) (snd Sample.opened)).
    + vm_compute. reflexivity.
    + reflexivity.
Defined.

(** After the first write, [Sync] flushes the buffered byte to the
    file. *)
Example Sync_sample :
  match Sync (fst Sample.opened) (snd Sample.opened) with
  | Ok err d wd =>
      err = None
      /\ trace wd = CallWrite 3 1 :: trace (snd Sample.opened)
      /\ files wd "logs/app.60000.7.tmp" = Some (mkInode 1 Sample.t0)
  | _ => False
  end.
Proof. vm_compute. repeat split. Qed.

(** ** The guard of the random generation *)

Lemma Milliseconds_lt (x : Duration) :
  Milliseconds x < 300000000000 <-> x < 300000000000 * Millisecond.
Proof.
  unfold Milliseconds, Millisecond, Microsecond, Nanosecond.
  pose proof (Z.quot_rem' x 1000000) as E.
  destruct (Z_lt_le_dec x 0) as [Hneg|Hpos].
  - pose proof (Z.rem_bound_pos_neg x 1000000 ltac:(lia) ltac:(lia)) as B. lia.
  - pose proof (Z.rem_bound_pos x 1000000 Hpos ltac:(lia)) as B. lia.
Qed.

(** The guard compares a count of milliseconds with [dittotime], a count
    of nanoseconds: it holds whenever the bucket time is less than
    300000000 seconds after the reference time (any time before it
    included) and the generation is below 1. *)
Lemma ditto_window {ext : Externals} (d : fileout) (wd : World) :
  ditto d wd = true
  <-> Time_Sub (currTime d) (currentTime wd) < 300000000 * Second
      /\ generation d < 1.
Proof.
  unfold ditto. rewrite andb_true_iff, !Z.ltb_lt.
  change dittotime with 300000000000. rewrite Milliseconds_lt.
  unfold Second. lia.
Qed.

(** C4, evaluated where the code departs from it: an hour after the
    reference time (the hook [currentTime] returning the time of start)
    the bucket being opened is far outside the five-minute window, the
    generation is at its baseline 0, and the first write still draws the
    generation from the random source. *)
Theorem ditto_fires_an_hour_after_start :
  Time_Sub (time_Now (Sample.later Hour Sample.emptyWorld))
           (currentTime (Sample.later Hour Sample.emptyWorld)) = Hour
  /\ 5 * Minute < Hour
  /\ generation (Sample.fresh []) = 0
  /\ ditto (signalled (bucketed (Sample.fresh [])
                                (Sample.later Hour Sample.emptyWorld)))
           (Sample.later Hour Sample.emptyWorld) = true
  /\ match Write 1 [Byte.x61] (Sample.fresh [])
                 (Sample.later Hour Sample.emptyWorld) with
     | Ok _ d _ =>
         generation d = 7
         /\ fr d = Some (mkFile "logs/app.60060.7.tmp" 3)
     | _ => False
     end.
Proof. vm_compute. repeat split. Qed.

(** The same with the hook left as [time.Now] and time-based rotation
    off: the bucket time is the zero time, two thousand years before the
    reference time, and the generation is drawn all the same. *)
Example ditto_fires_without_rotation :
  rotationTime (Sample.fresh [WithRotationTime (-1)]) = 0
  /\ Time_Sub (currTime (Sample.fresh [WithRotationTime (-1)]))
              (currentTime Sample.unmocked) = minDuration
  /\ match Write 1 [Byte.x61] (Sample.fresh [WithRotationTime (-1)])
                 Sample.unmocked with
     | Ok _ d _ => generation d = 7
     | _ => False
     end.
Proof. vm_compute. repeat split. Qed.

(** ** The sweep *)

(** C6, evaluated where the code departs from it: the sweep of a
    directory holding a stale temporary file and, after it in the glob's
    order, a file older than the retention age renames the temporary file
    and returns at once; the expired file is matched, is older than
    [maxAge], and is neither examined nor removed. *)
Theorem stduffHandler_leaves_expired_file :
  @filepath_Glob Sample.ext "app*" Sample.cwdWorld
  = inl ["app.05.0.tmp"; "app.07.0.tmp"; "app.28.0"]
  /\ stat "app.28.0" Sample.cwdWorld
     = inl (mkFileInfo "app.28.0" 5 (Sample.t0 - 400 * 24 * Hour))
  /\ maxAge Sample.atT0
     < Time_Sub (currTime Sample.atT0) (Sample.t0 - 400 * 24 * Hour)
  /\ match stduffHandler "app*" Sample.atT0 Sample.cwdWorld with
     | Ok err d wd =>
         err = None
         /\ rev (trace wd)
            = [CallGlob "app*"; CallStat "app.05.0.tmp";
               CallRename "app.05.0.tmp" "app.05.0"]
         /\ calls isRemove wd = O
         /\ files wd "app.28.0" = Some Sample.expiredInode
     | _ => False
     end.
Proof. vm_compute. repeat split. Qed.

(** C7, evaluated where the code departs from it.  In the working
    directory, the first stale temporary file is finalized and the sweep
    returns: the second one, as stale, stays temporary.  In a directory of
    its own, the sweep hands [renameFile] the base name [f.Name()], not the
    matched path: the rename fails, no file is finalized, and the sweep
    returns all the same. *)
Theorem stduffHandler_returns_at_first_temp :
  match stduffHandler "app*" Sample.atT0 Sample.cwdWorld with
  | Ok err d wd =>
      err = None
      /\ files wd "app.05.0" = Some Sample.staleInode
      /\ files wd "app.07.0.tmp" = Some Sample.staleInode
      /\ files wd "app.07.0" = None
      /\ calls isRename wd = 1%nat
  | _ => False
  end
  /\ mul64 (rotationTime Sample.atT0) 2
     <= Time_Sub (currTime Sample.atT0) (i_modTime Sample.staleInode)
  /\ match stduffHandler "logs/app*" Sample.atT0 Sample.logsWorld with
     | Ok err d wd =>
         err = Some ErrNotExist
         /\ rev (trace wd)
            = [CallGlob "logs/app*"; CallStat "logs/app.05.0.tmp";
               CallRename "app.05.0.tmp" "app.05.0"]
         /\ files wd "logs/app.05.0.tmp" = Some Sample.staleInode
         /\ files wd "logs/app.05.0" = None
         /\ files wd "logs/app.07.0.tmp" = Some Sample.staleInode
     | _ => False
     end.
Proof. vm_compute. repeat split; discriminate. Qed.

(** At a temporary file within the retention age that is stale or near
    the maximum size, the sweep hands the base name to [renameFile] and
    returns: the matches after it are not looked at. *)
Lemma stduffRange_returns_at_temp {ext : Externals} (fullName : string)
    (rest : list string) (d : fileout) (wd : World) (f : FileInfo) :
  stat fullName wd = inl f ->
  age d f <= maxAge d ->
  HasSuffix fullName templog = true ->
  mul64 (rotationTime d) 2 <= age d f \/ maxSize d < add64 (fi_Size f) 2048 ->
  stduffRange (fullName :: rest) d wd
  = Ok (fst (renameFile (fi_Name f) (called (CallStat fullName) wd))) d
       (snd (renameFile (fi_Name f) (called (CallStat fullName) wd))).
Proof.
  unfold age. intros Hstat Hage Htmp Hstale. cbn [stduffRange].
  cbv beta iota zeta delta [bind this world ret os_Stat]. rewrite Hstat.
  destruct (Z.ltb_spec (maxAge d) (Time_Sub (currTime d) (fi_ModTime f))); [lia|].
  rewrite Htmp.
  assert ((mul64 (rotationTime d) 2 <=? Time_Sub (currTime d) (fi_ModTime f))
          || (maxSize d <? add64 (fi_Size f) 2048) = true) as ->.
  { apply orb_true_iff. rewrite Z.leb_le, Z.ltb_lt. exact Hstale. }
  cbn [andb].
  destruct (renameFile (fi_Name f) (called (CallStat fullName) wd)). reflexivity.
Qed.

Lemma stat_agree (q : string) (wd wd1 : World) :
  files wd1 q = files wd q -> (forall c, fault wd1 c = fault wd c) ->
  stat q wd1 = stat q wd.
Proof. intros Hf Hc. unfold stat. now rewrite Hf, Hc. Qed.

(** What holds of every sweep, early return or not: over distinct
    matches and with a callback that leaves the directory alone, a file
    is removed only if it is a match that [os.Stat] showed older than the
    retention age, and the callback is invoked only on matches, never on
    one that was removed. *)
Lemma stduffRange_removes_only_expired {ext : Externals} (matches : list string) :
  forall (d : fileout) (wd : World),
    quietStuffunc d -> NoDup matches ->
    exists (r : option error) (wd' : World) (cs : list Call),
      stduffRange matches d wd = Ok r d wd'
      /\ trace wd' = (cs ++ trace wd)%list
      /\ (forall p, In (CallStuffunc p) cs -> In p matches)
      /\ (forall p, In (CallRemove p) cs ->
            In p matches /\ ~ In (CallStuffunc p) cs
            /\ exists f, stat p wd = inl f /\ maxAge d < age d f).
Proof.
  induction matches as [|fullName rest IH]; intros d wd Hq Hnd.
  - exists None, wd, []. cbn. repeat split; contradiction.
  - inversion Hnd as [|? ? Hnotin Hnd']; subst.
    cbn [stduffRange]. cbv beta iota zeta delta [bind this world ret os_Stat].
    set (wd1 := called (CallStat fullName) wd).
    assert (Hlift : forall (wd2 : World) (c1 : list Call),
      trace wd2 = (c1 ++ trace wd)%list ->
      (forall q, q <> fullName -> files wd2 q = files wd q) ->
      (forall c, fault wd2 c = fault wd c) ->
      (forall p, In (CallStuffunc p) c1 -> p = fullName) ->
      (forall p, In (CallRemove p) c1 ->
         p = fullName /\ ~ In (CallStuffunc p) c1
         /\ exists f, stat p wd = inl f /\ maxAge d < age d f) ->
      exists r wd' cs,
        stduffRange rest d wd2 = Ok r d wd'
        /\ trace wd' = (cs ++ trace wd)%list
        /\ (forall p, In (CallStuffunc p) cs -> In p (fullName :: rest))
        /\ (forall p, In (CallRemove p) cs ->
              In p (fullName :: rest) /\ ~ In (CallStuffunc p) cs
              /\ exists f, stat p wd = inl f /\ maxAge d < age d f)).
    { intros wd2 c1 Htr Hfiles Hfault Hcb1 Hrm1.
      destruct (IH d wd2 Hq Hnd') as (r & wd' & cs' & Hrun & Htr' & Hcb & Hrm).
      exists r, wd', (cs' ++ c1)%list. split; [exact Hrun|].
      split; [rewrite Htr', Htr; apply app_assoc|].
      split.
      - intros p Hp. apply in_app_or in Hp. destruct Hp as [Hp|Hp].
        + right. now apply Hcb.
        + left. symmetry. now apply Hcb1.
      - intros p Hp. apply in_app_or in Hp. destruct Hp as [Hp|Hp].
        + destruct (Hrm p Hp) as (Hin & Hno & f & Hst & Hold).
          assert (Hne : p <> fullName) by (intros ->; contradiction).
          split; [now right|]. split.
          * intros Hc. apply in_app_or in Hc. destruct Hc as [Hc|Hc];
              [contradiction | apply Hcb1 in Hc; contradiction].
          * exists f. split; [|exact Hold].
            rewrite <- Hst. symmetry. apply stat_agree; [now apply Hfiles | exact Hfault].
        + destruct (Hrm1 p Hp) as (-> & Hno & Hex).
          split; [now left|]. split; [|exact Hex].
          intros Hc. apply in_app_or in Hc. destruct Hc as [Hc|Hc];
            [apply Hcb in Hc; contradiction | contradiction]. }
    destruct (stat fullName wd) as [f|e] eqn:Hstat.
    + destruct (Z.ltb_spec (maxAge d) (Time_Sub (currTime d) (fi_ModTime f)))
        as [Hold|Hyoung].
      * unfold os_Remove.
        change (fault (called (CallRemove fullName) wd1)) with (fault wd).
        change (files (called (CallRemove fullName) wd1)) with (files wd).
        destruct (fault wd (CallRemove fullName));
          [|destruct (files wd fullName)];
          apply (Hlift _ [CallRemove fullName; CallStat fullName]);
          try reflexivity;
          try (intros p [Hp|[Hp|[]]]; discriminate);
          try (intros p [Hp|[Hp|[]]]; [injection Hp as <-|discriminate];
               split; [reflexivity|]; split;
               [intros [Hc|[Hc|[]]]; discriminate | now exists f]).
        intros q Hne. cbn [files set_files called]. unfold upd_file.
        destruct (String.eqb_spec q fullName); [contradiction | reflexivity].
      * destruct (HasSuffix fullName templog && _).
        -- pose proof (renameFile_extends (fi_Name f) wd1) as (cs & Htr & Hall).
           destruct (renameFile (fi_Name f) wd1) as [e wd2]. cbn [snd] in Htr.
           exists e, wd2, (cs ++ [CallStat fullName])%list.
           split; [reflexivity|].
           split; [rewrite Htr; unfold wd1; cbn [trace called];
                   now rewrite <- app_assoc|].
           rewrite forallb_forall in Hall.
           split; intros p Hp; apply in_app_or in Hp; destruct Hp as [Hp|Hp];
             try (apply Hall in Hp; discriminate);
             destruct Hp as [Hp|[]]; discriminate.
        -- unfold quietStuffunc in Hq.
           destruct (Options.stuffunc (opt d)) as [cb|].
           ++ destruct (Hq fullName (called (CallStuffunc fullName) wd1))
                as (Ht & Hf & Hc).
              apply (Hlift _ [CallStuffunc fullName; CallStat fullName]).
              ** exact Ht.
              ** intros q _. apply Hf.
              ** exact Hc.
              ** intros p [Hp|[Hp|[]]]; [now injection Hp as <- | discriminate].
              ** intros p [Hp|[Hp|[]]]; discriminate.
           ++ apply (Hlift _ [CallStat fullName]); try reflexivity;
                intros p [Hp|[]]; discriminate.
    + apply (Hlift _ [CallStat fullName]); try reflexivity;
        intros p [Hp|[]]; discriminate.
Qed.

(** * More of the package *)

(** ** [rename] on temporary names *)

Lemma length_app (s t : string) :
  String.length (s ++ t) = (String.length s + String.length t)%nat.
Proof. induction s as [|c s IH]; simpl; [reflexivity | now rewrite IH]. Qed.

Lemma substring_all (s : string) : substring (String.length s) 0 s = "".
Proof. induction s as [|c s IH]; simpl; [reflexivity | exact IH]. Qed.

Lemma substring_app_left (s t : string) :
  substring 0 (String.length s) (s ++ t) = s.
Proof.
  induction s as [|c s IH]; simpl.
  - now destruct t.
  - now rewrite IH.
Qed.

Lemma prefix_String (a : ascii) (s1 : string) (b : ascii) (s2 : string) :
  prefix (String a s1) (String b s2) = Ascii.eqb a b && prefix s1 s2.
Proof.
  cbn [prefix]. destruct (ascii_dec a b) as [->|Hne].
  - now rewrite Ascii.eqb_refl.
  - destruct (Ascii.eqb_spec a b); [contradiction | reflexivity].
Qed.

(** An occurrence of the marker that starts inside [s] lies within [s]:
    the marker's first byte, the dot, occurs nowhere else in it. *)
Lemma prefix_templog_app (s : string) :
  s <> "" -> prefix templog (s ++ templog) = true -> prefix templog s = true.
Proof.
  unfold templog. intros Hne H.
  destruct s as [|c1 [|c2 [|c3 [|c4 s]]]]; [contradiction| | | |];
    cbn [append] in H; rewrite ?prefix_String in *;
    repeat match goal with
           | H : context [Ascii.eqb ?a ?b] |- _ =>
               is_var b; destruct (Ascii.eqb a b)
           end;
    simpl in *; try congruence.
  now destruct s.
Qed.

Lemma index_absent_cons (c : ascii) (s : string) :
  index 0 templog (String c s) = None ->
  prefix templog (String c s) = false /\ index 0 templog s = None.
Proof.
  unfold templog. cbn [index].
  destruct (prefix ".tmp" (String c s)); [discriminate|].
  destruct (index 0 ".tmp" s); [discriminate|]. now split.
Qed.

Lemma index_app_templog (s : string) :
  index 0 templog s = None ->
  index 0 templog (s ++ templog) = Some (String.length s).
Proof.
  induction s as [|c s IH]; intros H.
  - reflexivity.
  - destruct (index_absent_cons c s H) as (Hpre & Hrest).
    change (String c s ++ templog) with (String c (s ++ templog)).
    unfold templog in *. cbn [index String.length].
    destruct (prefix ".tmp" (String c (s ++ ".tmp"))) eqn:Hp.
    + apply (prefix_templog_app (String c s)) in Hp; [|discriminate].
      unfold templog in Hp. congruence.
    + now rewrite (IH Hrest).
Qed.

Lemma Split_temporary (s : string) :
  Contains s templog = false -> Split (s ++ templog) templog = [s; ""].
Proof.
  intros H. apply Contains_false in H.
  unfold Split. rewrite length_app.
  replace (String.length s + String.length templog)%nat
    with (S (String.length s + 3)) by (unfold templog; simpl; lia).
  cbn [genSplit]. rewrite (index_app_templog s H).
  rewrite substring_app_left. f_equal.
  rewrite length_app, Nat.sub_diag.
  rewrite <- length_app, substring_all.
  now apply genSplit_absent.
Qed.

Lemma rename_temporary (s : string) :
  Contains s templog = false -> rename (s ++ templog) = s.
Proof. intros H. unfold rename. now rewrite (Split_temporary s H). Qed.

(** X1: the marker comes off.  For every name [s] without the temporary
    marker, [rename (s ++ ".tmp")] is [s]; so [renameFile] of a temporary
    name is the [os.Rename] to the name without its marker, except for
    the name that is the marker alone, which [renameFile] leaves in
    place. *)
Theorem rename_strips_marker (s : string) (wd : World) :
  Contains s templog = false ->
  rename (s ++ templog) = s
  /\ renameFile (s ++ templog) wd
     = if String.eqb s "" then (None, wd) else os_Rename (s ++ templog) s wd.
Proof.
  intros H. pose proof (rename_temporary s H) as E.
  split; [exact E|]. unfold renameFile. rewrite E.
  now destruct (String.eqb s "").
Qed.

Lemma rename_strips_marker_witness :
  rename ("logs/app.60000.7" ++ templog) = "logs/app.60000.7"
  /\ renameFile ("logs/app.60000.7" ++ templog) Sample.emptyWorld
     = os_Rename ("logs/app.60000.7" ++ templog) "logs/app.60000.7"
                 Sample.emptyWorld.
Proof.
  apply (rename_strips_marker "logs/app.60000.7" Sample.emptyWorld).
  reflexivity.
Defined.

(** ** The options a user can set *)

Lemma public_fold (opts : list Option) :
  Forall publicOption opts ->
  forall o : Options.t,
    Options.stuffunc o = None -> Options.requriedTimezone o = false ->
    Options.stuffunc (fold_left (fun o op => op o) opts o) = None
    /\ Options.requriedTimezone (fold_left (fun o op => op o) opts o) = false.
Proof.
  induction 1 as [|op opts Hop _ IH]; intros o Hs Ht; cbn [fold_left].
  - now split.
  - apply IH; destruct Hop; assumption || reflexivity.
Qed.

Lemma os_Remove_extends (name : string) (wd : World) :
  extends isRemove wd (snd (os_Remove name wd)).
Proof.
  unfold os_Remove.
  destruct (fault (called (CallRemove name) wd) (CallRemove name));
    [now apply extends_called|].
  destruct (files (called (CallRemove name) wd) name); cbn [snd];
    now apply (extends_called isRemove (CallRemove name)).
Qed.

(** Without a callback, a sweep returns, leaves the writer as it is and
    calls nothing but [os.Stat], [os.Remove] and [os.Rename]. *)
Lemma stduffRange_extends {ext : Externals} (matches : list string) :
  forall (d : fileout) (wd : World),
    Options.stuffunc (opt d) = None ->
    exists r wd', stduffRange matches d wd = Ok r d wd'
                  /\ extends sweepCall wd wd'.
Proof.
  assert (Hst : forall c, isStat c = true -> sweepCall c = true)
    by (now intros []).
  assert (Hrm : forall c, isRemove c = true -> sweepCall c = true)
    by (now intros []).
  assert (Hrn : forall c, isRename c = true -> sweepCall c = true)
    by (now intros []).
  induction matches as [|fullName rest IH]; intros d wd Hnone; cbn [stduffRange].
  - exists None, wd. split; [reflexivity | apply extends_refl].
  - cbv beta iota zeta delta [bind this world ret os_Stat].
    assert (H1 : extends sweepCall wd (called (CallStat fullName) wd))
      by now apply extends_called.
    assert (Hgo : forall wd1, extends sweepCall wd wd1 ->
              exists r wd', stduffRange rest d wd1 = Ok r d wd'
                            /\ extends sweepCall wd wd').
    { intros wd1 Hext. destruct (IH d wd1 Hnone) as (r & wd' & Hrun & Hext').
      exists r, wd'. split; [exact Hrun | eapply extends_trans; eassumption]. }
    destruct (stat fullName wd) as [f|e]; [|now apply Hgo].
    destruct (maxAge d <? Time_Sub (currTime d) (fi_ModTime f)).
    + pose proof (os_Remove_extends fullName (called (CallStat fullName) wd)) as Hx.
      destruct (os_Remove fullName (called (CallStat fullName) wd)) as [e wd1].
      apply Hgo. eapply extends_trans; [exact H1|].
      eapply extends_weaken; [exact Hrm | exact Hx].
    + destruct (HasSuffix fullName templog && _).
      * pose proof (renameFile_extends (fi_Name f) (called (CallStat fullName) wd)) as Hx.
        destruct (renameFile (fi_Name f) (called (CallStat fullName) wd)) as [e wd1].
        exists e, wd1. split; [reflexivity|].
        eapply extends_trans; [exact H1|].
        eapply extends_weaken; [exact Hrn | exact Hx].
      * rewrite Hnone. now apply Hgo.
Qed.

(** X2: what the public options can reach.  A writer built by
    [NewFileout] from any list of the package's options has no callback
    and does not require a timezone ([WithStuffunc] stores its argument
    as the rotation interval, exactly as [WithRotationTime] does, and
    nothing sets the other two fields); hence every sweep of such a writer
    returns, leaves the writer as it is, invokes no callback and calls
    nothing but [filepath.Glob], [os.Stat], [os.Remove] and [os.Rename]. *)
Theorem NewFileout_options_reach {ext : Externals} (name : string)
    (opts : list Option) (d : fileout) :
  Forall publicOption opts ->
  NewFileout name opts = inl d ->
  Options.stuffunc (opt d) = None
  /\ Options.requriedTimezone (opt d) = false
  /\ (forall t, WithStuffunc t = WithRotationTime t)
  /\ forall (stduff : string) (wd : World),
       exists r wd', stduffHandler stduff d wd = Ok r d wd'
                     /\ extends sweepCall wd wd'
                     /\ calls isStuffunc wd' = calls isStuffunc wd.
Proof.
  intros Hpub Hnew. unfold NewFileout in Hnew.
  destruct (strftime_New name) as [sf|e]; [|discriminate Hnew].
  injection Hnew as <-. cbn [opt].
  destruct (public_fold opts Hpub Options.zero eq_refl eq_refl) as (Hs & Ht).
  split; [exact Hs|]. split; [exact Ht|]. split; [reflexivity|].
  intros stduff wd. unfold stduffHandler.
  cbv beta iota zeta delta [bind world ret].
  assert (H1 : extends sweepCall wd (called (CallGlob stduff) wd))
    by now apply extends_called.
  destruct (filepath_Glob stduff wd) as [matches|err].
  - match goal with
    | |- context [stduffRange matches ?x ?y] =>
        destruct (stduffRange_extends matches x y Hs) as (r & wd' & Hrun & Hext)
    end.
    exists r, wd'. split; [exact Hrun|].
    assert (Hall : extends sweepCall wd wd') by (eapply extends_trans; eassumption).
    split; [exact Hall|].
    apply (extends_calls sweepCall); [now intros [] | exact Hall].
  - eexists. eexists. split; [reflexivity|]. split; [exact H1|].
    apply (extends_calls sweepCall); [now intros [] | exact H1].
Qed.

Lemma NewFileout_options_reach_witness :
  Options.stuffunc (opt (Sample.fresh [WithStuffunc Hour; WithNorequriedTimezone])) = None
  /\ Options.requriedTimezone
       (opt (Sample.fresh [WithStuffunc Hour; WithNorequriedTimezone])) = false
  /\ (forall t, WithStuffunc t = WithRotationTime t)
  /\ forall (stduff : string) (wd : World),
       exists r wd',
         stduffHandler stduff (Sample.fresh [WithStuffunc Hour; WithNorequriedTimezone]) wd
         = Ok r (Sample.fresh [WithStuffunc Hour; WithNorequriedTimezone]) wd'
         /\ extends sweepCall wd wd'
         /\ calls isStuffunc wd' = calls isStuffunc wd.
Proof.
  apply (NewFileout_options_reach "logs/app"
           [WithStuffunc Hour; WithNorequriedTimezone]).
  - repeat constructor.
  - reflexivity.
Defined.

(** ** The glob of the sweep *)

Lemma replaceStars_cons (a : ascii) (s' : string) :
  replaceStars (String a s')
  = if Ascii.eqb a "*" then
      match s' with
      | String b _ =>
          if Ascii.eqb b "*" then replaceStars s' else String "*" (replaceStars s')
      | EmptyString => String "*" (replaceStars s')
      end
    else String a (replaceStars s').
Proof.
  destruct s' as [|b s'']; [reflexivity|].
  cbn [replaceStars]. destruct (Ascii.eqb a "*"); [|reflexivity].
  destruct b as [[] [] [] [] [] [] [] []]; reflexivity.
Qed.

Lemma replaceStars_head (b : ascii) (s : string) :
  Ascii.eqb b "*" = false ->
  exists t, replaceStars (String b s) = String b t.
Proof.
  intros Hb. rewrite replaceStars_cons, Hb. now eexists.
Qed.

Lemma replaceStars_no_double (s : string) : doubleStar (replaceStars s) = false.
Proof.
  induction s as [|a s' IH]; [reflexivity|].
  rewrite replaceStars_cons.
  destruct (Ascii.eqb a "*") eqn:Ea.
  - destruct s' as [|b s'']; [reflexivity|].
    destruct (Ascii.eqb b "*") eqn:Eb; [exact IH|].
    destruct (replaceStars_head b s'' Eb) as (t & Et).
    rewrite Et in *.
    change (doubleStar (String "*" (String b t)))
      with ((Ascii.eqb "*" "*" && Ascii.eqb b "*") || doubleStar (String b t)).
    now rewrite Eb, andb_false_r, IH.
  - destruct (replaceStars s') as [|b t] eqn:Er; [reflexivity|].
    change (doubleStar (String a (String b t)))
      with ((Ascii.eqb a "*" && Ascii.eqb b "*") || doubleStar (String b t)).
    now rewrite Ea, IH.
Qed.

Lemma replaceStars_last (x : string) :
  exists P, replaceStars (x ++ "*") = P ++ "*".
Proof.
  induction x as [|a x' (P & IH)].
  - now exists "".
  - change (String a x' ++ "*") with (String a (x' ++ "*")).
    rewrite replaceStars_cons.
    destruct (Ascii.eqb a "*").
    + destruct (x' ++ "*") as [|b t] eqn:Ex.
      * now destruct x'.
      * destruct (Ascii.eqb b "*").
        -- now exists P.
        -- exists (String "*" P). now rewrite IH.
    + exists (String a P). now rewrite IH.
Qed.

Lemma replaceDirectives_plain (s : string) :
  without "%" s = true -> replaceDirectives s = s.
Proof.
  induction s as [|a s' IH]; [reflexivity|].
  cbn [without]. intros H. apply andb_true_iff in H. destruct H as (Ha & Hs).
  cbn [replaceDirectives]. destruct s' as [|c rest]; [reflexivity|].
  apply negb_true_iff in Ha. rewrite Ha. cbn [andb].
  now rewrite (IH Hs).
Qed.

Lemma replaceStars_plain (s : string) :
  without "*" s = true -> replaceStars (s ++ "*") = s ++ "*".
Proof.
  induction s as [|a s' IH]; [reflexivity|].
  cbn [without]. intros H. apply andb_true_iff in H. destruct H as (Ha & Hs).
  change (String a s' ++ "*") with (String a (s' ++ "*")).
  rewrite replaceStars_cons. apply negb_true_iff in Ha. rewrite Ha.
  now rewrite (IH Hs).
Qed.

Lemma append_assoc (a b c : string) : (a ++ b) ++ c = a ++ (b ++ c).
Proof. induction a as [|x a IH]; simpl; [reflexivity | now rewrite IH]. Qed.

(** X3: the glob a writer sweeps with.  For every pattern that
    [NewFileout] accepts, the glob is some [P] followed by two stars, where
    [P] has no two stars in a row and does not end in a star; for a
    pattern with no [%] and no star it is the pattern itself followed by
    two stars. *)
Theorem NewFileout_glob {ext : Externals} (name : string) (opts : list Option)
    (d : fileout) :
  NewFileout name opts = inl d ->
  (exists P, match_ d = P ++ "**" /\ doubleStar (P ++ "*") = false)
  /\ (without "%" name = true -> without "*" name = true ->
      match_ d = name ++ "**").
Proof.
  intros Hnew. unfold NewFileout in Hnew.
  destruct (strftime_New name) as [sf|e]; [|discriminate Hnew].
  injection Hnew as <-. cbn [match_]. split.
  - destruct (replaceStars_last (replaceDirectives name)) as (P & HP).
    exists P. split.
    + rewrite HP. apply append_assoc.
    + rewrite <- HP. apply replaceStars_no_double.
  - intros Hp Hs. rewrite (replaceDirectives_plain name Hp).
    rewrite (replaceStars_plain name Hs). apply append_assoc.
Qed.

Lemma NewFileout_glob_witness :
  (exists P, match_ (Sample.fresh []) = P ++ "**" /\ doubleStar (P ++ "*") = false)
  /\ (without "%" "logs/app" = true -> without "*" "logs/app" = true ->
      match_ (Sample.fresh []) = "logs/app" ++ "**").
Proof.
  apply (NewFileout_glob "logs/app" [] (Sample.fresh [])). reflexivity.
Defined.

(** A pattern with directives and stars of its own. *)
Example glob_sample :
  replaceStars (replaceDirectives "/var/log/%Y/app-%m%d**.log" ++ "*") ++ "*"
  = "/var/log/*/app-*.log**".
Proof. reflexivity. Qed.

(** ** [Close] and the file system *)

Lemma sameNames_refl (wd : World) : sameNames wd wd.
Proof. repeat split; trivial. Qed.

Lemma sameNames_trans (wd1 wd2 wd3 : World) :
  sameNames wd1 wd2 -> sameNames wd2 wd3 -> sameNames wd1 wd3.
Proof.
  intros (F1 & C1 & D1) (F2 & C2 & D2). repeat split.
  - intros H. apply F1, F2, H.
  - intros H. apply F2, F1, H.
  - intros c. now rewrite C2, C1.
  - intros k. now rewrite D2, D1.
Qed.

Lemma File_Write_sameNames (f : File) (len : N) (wd : World) :
  sameNames wd (snd (File_Write f len wd)).
Proof.
  unfold File_Write.
  destruct (fds (called (CallWrite (Fd f) len) wd) (Fd f)) as [path|];
    [|apply (sameNames_refl wd)].
  destruct (fault (called (CallWrite (Fd f) len) wd) (CallWrite (Fd f) len));
    [apply (sameNames_refl wd)|].
  destruct (files (called (CallWrite (Fd f) len) wd) path) as [i|] eqn:Hi;
    [|apply (sameNames_refl wd)].
  cbn [snd]. repeat split; trivial.
  - cbn [files set_files called]. unfold upd_file.
    destruct (String.eqb_spec p path); [discriminate | trivial].
  - cbn [files set_files called]. unfold upd_file.
    destruct (String.eqb_spec p path) as [->|]; [|trivial].
    cbn [files called] in Hi. congruence.
Qed.

Lemma Flush_sameNames (b : Writer) (wd : World) :
  sameNames wd (snd (Flush b wd)).
Proof.
  unfold Flush. destruct (b_err b); [apply sameNames_refl|].
  destruct (b_n b =? 0)%N; [apply sameNames_refl|].
  pose proof (File_Write_sameNames (b_wr b) (b_n b) wd) as H.
  destruct (File_Write (b_wr b) (b_n b) wd) as [[n err] wd1]. cbn [snd] in H.
  destruct err; [exact H|]. destruct (n <? b_n b)%N; exact H.
Qed.

Lemma closeFlush_sameNames {ext : Externals} (d : fileout) (wd : World) :
  sameNames wd (snd (closeFlush d wd)).
Proof.
  unfold closeFlush. destruct (w d) as [b|]; [|apply sameNames_refl].
  pose proof (Flush_sameNames b wd) as H.
  now destruct (Flush b wd) as [[e b'] wd1].
Qed.

Lemma renameFile_fds (fullName : string) (wd : World) (k : nat) :
  fds wd k = None -> fds (snd (renameFile fullName wd)) k = None.
Proof.
  intros Hk. unfold renameFile, os_Rename.
  destruct (negb (rename fullName =? "")%string); [|exact Hk].
  destruct (fault _ (CallRename fullName (rename fullName))); [exact Hk|].
  destruct (files _ fullName); [|exact Hk].
  cbn [snd fds set_fds set_files called]. now rewrite Hk.
Qed.

Lemma File_Close_released (f : File) (wd : World) :
  fds (snd (File_Close f wd)) (Fd f) = None
  /\ (fds wd (Fd f) = None -> fst (File_Close f wd) = Some ErrClosed).
Proof.
  unfold File_Close. cbn [fds called].
  destruct (fds wd (Fd f)) eqn:Hfd; cbn [fst snd fds set_fds called].
  - split; [|discriminate]. unfold upd_fd. now rewrite Nat.eqb_refl.
  - split; [exact Hfd | reflexivity].
Qed.

(** X4: [Close] releases the descriptor and keeps the handle.  With a file
    open, [Close] returns; afterwards the descriptor is closed, but the
    writer still holds the file ([d.fr] is not reset) and its buffered
    writer still writes to it; so a second [Close] returns the error
    "file already closed". *)
Theorem Close_keeps_the_handle {ext : Externals} (d : fileout) (wd : World)
    (f : File) :
  fr d = Some f ->
  exists e d1 wd1,
    Close d wd = Ok e d1 wd1
    /\ fr d1 = Some f
    /\ fds wd1 (Fd f) = None
    /\ (forall bw, w d = Some bw ->
          exists bw', w d1 = Some bw' /\ b_wr bw' = b_wr bw)
    /\ exists d2 wd2, Close d1 wd1 = Ok (Some ErrClosed) d2 wd2.
Proof.
  intros Hfr. unfold Close. rewrite close_eq.
  set (d1 := set_w (fst (closeFlush d wd)) d).
  assert (Hfr1 : fr d1 = Some f) by exact Hfr.
  assert (Hfd : fds (closeWorld d wd) (Fd f) = None).
  { rewrite (closeWorld_closes d wd f Hfr).
    apply renameFile_fds, File_Close_released. }
  exists (closeErr d wd), d1, (closeWorld d wd).
  split; [reflexivity|]. split; [exact Hfr1|]. split; [exact Hfd|]. split.
  - intros bw Hw. destruct (closeFlush_spec d wd) as (_ & _ & Hsome).
    destruct (Hsome bw Hw) as (bw' & E & Hwr & _).
    exists bw'. split; [exact E | exact Hwr].
  - rewrite close_eq. eexists. eexists. f_equal.
    unfold closeErr. rewrite Hfr1.
    apply File_Close_released.
    destruct (closeFlush_sameNames d1 (closeWorld d wd)) as (_ & _ & Hk).
    now rewrite Hk.
Qed.

Lemma Close_keeps_the_handle_witness :
  exists e d1 wd1,
    Close (fst Sample.opened) (snd Sample.opened) = Ok e d1 wd1
    /\ fr d1 = Some (mkFile "logs/app.60000.7.tmp" 3)
    /\ fds wd1 3%nat = None
    /\ (forall bw, w (fst Sample.opened) = Some bw ->
          exists bw', w d1 = Some bw' /\ b_wr bw' = b_wr bw)
    /\ exists d2 wd2, Close d1 wd1 = Ok (Some ErrClosed) d2 wd2.
Proof.
  apply (Close_keeps_the_handle (fst Sample.opened) (snd Sample.opened)
           (mkFile "logs/app.60000.7.tmp" 3)).
  reflexivity.
Defined.

Lemma append_longer (s : string) : String.eqb (s ++ templog) s = false.
Proof.
  destruct (String.eqb_spec (s ++ templog) s) as [E|]; [|reflexivity].
  apply (f_equal String.length) in E. rewrite length_app in E.
  unfold templog in E. simpl in E. lia.
Qed.

(** X5: [Close] finalizes the file.  When the open file's name is [s]
    followed by the marker ([s] not empty and without a marker of its own),
    the file exists and the rename does not fail, [Close] returns and
    leaves the file at [s] and nothing at the temporary name. *)
Theorem Close_finalizes {ext : Externals} (d : fileout) (wd : World)
    (f : File) (s : string) :
  fr d = Some f ->
  Name f = s ++ templog -> Contains s templog = false -> s <> "" ->
  files wd (Name f) <> None ->
  fault wd (CallRename (Name f) s) = None ->
  exists e d1 wd1 i,
    Close d wd = Ok e d1 wd1
    /\ files wd1 s = Some i
    /\ files wd1 (Name f) = None.
Proof.
  intros Hfr Hname Hs Hne Hex Hfault. unfold Close. rewrite close_eq.
  rewrite (closeWorld_closes d wd f Hfr).
  destruct (closeFlush_sameNames d wd) as (Hfiles & Hfaults & _).
  set (wd1 := snd (closeFlush d wd)) in *.
  set (wd2 := snd (File_Close f wd1)).
  assert (Hfiles2 : files wd2 = files wd1).
  { unfold wd2, File_Close. now destruct (fds _ (Fd f)). }
  assert (Hfault2 : fault wd2 = fault wd1).
  { unfold wd2, File_Close. now destruct (fds _ (Fd f)). }
  destruct (files wd1 (Name f)) as [i|] eqn:Hi;
    [|apply Hfiles in Hi; contradiction].
  assert (Hren : renameFile (Name f) wd2 = os_Rename (Name f) s wd2).
  { rewrite Hname. unfold renameFile. rewrite (rename_temporary s Hs).
    destruct (String.eqb_spec s ""); [contradiction | reflexivity]. }
  rewrite Hren. unfold os_Rename.
  cbn [fault files called]. rewrite Hfault2, Hfaults, Hfault, Hfiles2, Hi.
  eexists. eexists. eexists. exists i. split; [reflexivity|].
  cbn [snd files set_fds set_files called]. unfold upd_file.
  rewrite String.eqb_refl. split; [reflexivity|].
  rewrite Hname at 1. now rewrite append_longer, Hname, String.eqb_refl.
Qed.

Lemma Close_finalizes_witness :
  exists e d1 wd1 i,
    Close (fst Sample.opened) (snd Sample.opened) = Ok e d1 wd1
    /\ files wd1 "logs/app.60000.7" = Some i
    /\ files wd1 "logs/app.60000.7.tmp" = None.
Proof.
  apply (Close_finalizes (fst Sample.opened) (snd Sample.opened)
           (mkFile "logs/app.60000.7.tmp" 3) "logs/app.60000.7").
  - reflexivity.
  - reflexivity.
  - reflexivity.
  - discriminate.
  - vm_compute. discriminate.
  - reflexivity.
Defined.

(** ** Writes whose file cannot be created *)

Lemma settled_same {ext : Externals} (d : fileout) (wd : World) :
  fault (snd (settled d wd)) = fault wd
  /\ files (snd (settled d wd)) = files wd
  /\ fds (snd (settled d wd)) = fds wd
  /\ nextfd (snd (settled d wd)) = nextfd wd.
Proof.
  unfold settled. destruct (ditto (signalled d) wd); [|now repeat split].
  unfold Intn. destruct (randsrc wd); now repeat split.
Qed.

Lemma probeStart_same {ext : Externals} (d : fileout) (wd : World)
    (b : list Byte.byte) :
  fault (snd (probeStart d wd b)) = fault wd
  /\ files (snd (probeStart d wd b)) = files wd
  /\ fds (snd (probeStart d wd b)) = fds wd
  /\ nextfd (snd (probeStart d wd b)) = nextfd wd.
Proof. apply settled_same. Qed.

Lemma probeStart_size {ext : Externals} (d : fileout) (wd : World)
    (b : list Byte.byte) :
  size (fst (probeStart d wd b)) = size d.
Proof.
  unfold probeStart.
  destruct (settled_frame (bumped (bucketed d wd) (Z.of_nat (List.length b))) wd)
    as ((_ & _ & _ & _ & _ & _ & Ssz) & _).
  destruct (bumped_frame (bucketed d wd) (Z.of_nat (List.length b)))
    as (_ & _ & _ & _ & _ & _ & Bsz).
  destruct (bucketed_frame d wd) as (_ & _ & Esz & _).
  congruence.
Qed.

Lemma createFile_fails {ext : Externals} (filename : string) (d : fileout)
    (wd : World) :
  fault wd (CallMkdirAll (filepath_Dir filename)) <> None
  \/ fault wd (CallOpenFile filename) <> None ->
  exists msg wd',
    createFile filename d wd = Ok (inr (Errorf msg)) d wd'
    /\ extends createCall wd wd'
    /\ files wd' = files wd.
Proof.
  intros Hfault. unfold createFile, os_MkdirAll, os_OpenFile.
  cbv beta iota zeta delta [bind ret world].
  change (fault (called (CallMkdirAll (filepath_Dir filename)) wd)) with (fault wd).
  assert (H1 : extends createCall wd (called (CallMkdirAll (filepath_Dir filename)) wd))
    by now apply extends_called.
  destruct (fault wd (CallMkdirAll (filepath_Dir filename))) as [e|].
  - eexists. eexists. split; [reflexivity|]. split; [exact H1 | reflexivity].
  - destruct Hfault as [H|H]; [contradiction|]. cbn [fst snd].
    change (fault (called (CallOpenFile filename)
                     (called (CallMkdirAll (filepath_Dir filename)) wd)))
      with (fault wd).
    destruct (fault wd (CallOpenFile filename)) as [e|]; [|contradiction].
    eexists. eexists. split; [reflexivity|]. split; [|reflexivity].
    eapply extends_trans; [exact H1 | now apply extends_called].
Qed.

(** X6: a write whose file cannot be created.  When a new file is needed
    (and the probe loop ends) but the directory cannot be made or the file
    cannot be opened, [Write] returns 0 and an error that wraps
    [createFile]'s; the writer keeps its file handle, its buffered writer
    and its byte count, nothing is written, closed or renamed, and the
    files are as before. *)
Theorem Write_fails_when_file_cannot_be_created {ext : Externals}
    (d : fileout) (wd : World) (b : list Byte.byte) (g' : Z) :
  needsNewFile (bucketed d wd) (Z.of_nat (List.length b)) (rotationTime d)
               (nameNow d wd) = true ->
  minInt64 <= generation (fst (probeStart d wd b)) <= g' -> g' <= maxInt64 ->
  taken (fst (probeStart d wd b)) (rotationTime d) (snd (probeStart d wd b)) g' = false ->
  (forall p, fault wd (CallMkdirAll p) <> None)
  \/ (forall p, fault wd (CallOpenFile p) <> None) ->
  forall fuel, (Z.to_nat (g' - generation (fst (probeStart d wd b))) < fuel)%nat ->
    exists (msg : string) (d' : fileout) (wd' : World),
      Write fuel b d wd
      = Ok (0%N, Some (Errorf ("failed to acquite target io.Writer, cause: " ++ msg)))
           d' wd'
      /\ fr d' = fr d /\ w d' = w d /\ size d' = size d
      /\ calls isWrite wd' = calls isWrite wd
      /\ calls isClose wd' = calls isClose wd
      /\ calls isRename wd' = calls isRename wd
      /\ files wd' = files wd.
Proof.
  intros Hneed Hgen Hmax Hfree Hfault fuel Hfuel.
  destruct (probeStart_frame d wd b) as ((_ & _ & _ & Sw & Sfr) & St).
  destruct (probeStart_same d wd b) as (Sfault & Sfiles & _).
  pose proof (probeStart_size d wd b) as Ssz.
  set (start := fst (probeStart d wd b)) in *.
  set (wd0 := snd (probeStart d wd b)) in *.
  destruct (probe_least (rotationTime d) _ start wd0 g' eq_refl Hgen Hmax Hfree)
    as (g & Hrange & _ & _ & Hrun).
  unfold Write. unfold bind at 1.
  rewrite getWriter_eq, Hneed, newFile_eq.
  change (settled (bumped (bucketed d wd) (Z.of_nat (List.length b))) wd)
    with (probeStart d wd b).
  fold start wd0. rewrite Hrun by lia. cbn [negb].
  set (d4 := set_generation g start).
  set (wd4 := called_all (probes start (rotationTime d) (generation start) g) wd0).
  set (filename := candidate d4 (rotationTime d)).
  assert (Hwd4 : extends isStat wd wd4).
  { destruct (probes_extends start (rotationTime d) (generation start) g wd0)
      as (cs & E & F).
    exists cs. split; [now rewrite <- St | exact F]. }
  destruct (createFile_fails filename d4 wd4) as (msg & wd5 & Hc & Hext & Hfiles).
  { change (fault wd4) with (fault wd0). rewrite Sfault.
    destruct Hfault as [H|H]; [left | right]; apply H. }
  rewrite Hc. cbv beta iota zeta delta [ret].
  exists msg, d4, wd5. split; [reflexivity|].
  split; [exact Sfr|]. split; [exact Sw|]. split; [exact Ssz|].
  assert (Hall : forall p, (forall c, isStat c = true -> p c = false) ->
                  (forall c, createCall c = true -> p c = false) ->
                  calls p wd5 = calls p wd).
  { intros p H1 H2. rewrite (extends_calls createCall p _ _ H2 Hext).
    exact (extends_calls isStat p _ _ H1 Hwd4). }
  split; [apply Hall; now intros []|].
  split; [apply Hall; now intros []|].
  split; [apply Hall; now intros []|].
  rewrite Hfiles. exact Sfiles.
Qed.

Lemma Write_fails_when_file_cannot_be_created_witness :
  exists (msg : string) (d' : fileout) (wd' : World),
    Write 1 [Byte.x61] (Sample.fresh []) Sample.lockedWorld
    = Ok (0%N, Some (Errorf ("failed to acquite target io.Writer, cause: " ++ msg)))
         d' wd'
    /\ fr d' = fr (Sample.fresh []) /\ w d' = w (Sample.fresh [])
    /\ size d' = size (Sample.fresh [])
    /\ calls isWrite wd' = calls isWrite Sample.lockedWorld
    /\ calls isClose wd' = calls isClose Sample.lockedWorld
    /\ calls isRename wd' = calls isRename Sample.lockedWorld
    /\ files wd' = files Sample.lockedWorld.
Proof.
  apply (Write_fails_when_file_cannot_be_created (Sample.fresh [])
           Sample.lockedWorld [Byte.x61] 7).
  - reflexivity.
  - vm_compute. split; discriminate.
  - vm_compute. discriminate.
  - reflexivity.
  - left. intros p. discriminate.
  - vm_compute. apply le_n.
Defined.

(** There the error names the directory. *)
Example Write_fails_sample :
  match Write 1 [Byte.x61] (Sample.fresh []) Sample.lockedWorld with
  | Ok (n, Some err) d _ =>
      n = 0%N
      /\ Error err
         = "failed to acquite target io.Writer, cause: failed to create directory logs"
      /\ generation d = 7
  | _ => False
  end.
Proof. vm_compute. repeat split. Qed.

(** ** Every rotation *)

Lemma File_Write_to (f : File) (len : N) (wd : World) :
  extends (isWriteTo (Fd f)) wd (snd (File_Write f len wd)).
Proof.
  assert (Hc : isWriteTo (Fd f) (CallWrite (Fd f) len) = true)
    by (cbn; apply Nat.eqb_refl).
  unfold File_Write.
  destruct (fds (called (CallWrite (Fd f) len) wd) (Fd f)) as [path|];
    [|now apply extends_called].
  destruct (fault (called (CallWrite (Fd f) len) wd) (CallWrite (Fd f) len));
    [now apply extends_called|].
  destruct (files (called (CallWrite (Fd f) len) wd) path); cbn [snd];
    now apply (extends_called (isWriteTo (Fd f)) (CallWrite (Fd f) len)).
Qed.

Lemma Flush_to (b : Writer) (wd : World) :
  extends (isWriteTo (Fd (b_wr b))) wd (snd (Flush b wd)).
Proof.
  unfold Flush. destruct (b_err b); [apply extends_refl|].
  destruct (b_n b =? 0)%N; [apply extends_refl|].
  pose proof (File_Write_to (b_wr b) (b_n b) wd) as H.
  destruct (File_Write (b_wr b) (b_n b) wd) as [[n err] wd1]. cbn [snd] in H.
  destruct err; [exact H|]. destruct (n <? b_n b)%N; exact H.
Qed.

Lemma Writer_loop_to (fuel : nat) :
  forall (b : Writer) (p nn : N) (wd : World),
    extends (isWriteTo (Fd (b_wr b))) wd (snd (Writer_loop fuel b p nn wd)).
Proof.
  induction fuel as [|fuel IH]; intros b p nn wd; cbn [Writer_loop].
  - apply extends_refl.
  - destruct (b_err b) eqn:Eerr; [apply extends_refl|].
    destruct (Available b <? p)%N; [|apply extends_refl].
    destruct (b_n b =? 0)%N.
    + pose proof (File_Write_to (b_wr b) p wd) as H.
      destruct (File_Write (b_wr b) p wd) as [[n err] wd1]. cbn [snd] in H.
      eapply extends_trans; [exact H|].
      exact (IH (mkWriter (b_wr b) (b_len b) (b_n b) err) _ _ wd1).
    + set (b1 := mkWriter (b_wr b) (b_len b) (b_n b + N.min (Available b) p) None).
      pose proof (Flush_to b1 wd) as H.
      pose proof (Flush_spec b1 wd) as Hs.
      destruct (Flush b1 wd) as [[e b2] wd1]. cbn [snd] in H.
      destruct Hs as (_ & Hwr & _).
      eapply extends_trans; [exact H|].
      specialize (IH b2 (p - N.min (Available b) p)%N
                     (nn + N.min (Available b) p)%N wd1).
      now rewrite Hwr in IH.
Qed.

(** [b.Write] calls nothing but writes to the file behind [b]. *)
Lemma Writer_Write_to (b : Writer) (len : N) (wd : World) :
  extends (isWriteTo (Fd (b_wr b))) wd (snd (Writer_Write b len wd)).
Proof.
  unfold Writer_Write.
  pose proof (Writer_loop_to 3 b len 0%N wd) as H.
  destruct (Writer_loop 3 b len 0%N wd) as [[[b1 p] nn] wd1]. cbn [snd] in H.
  now destruct (b_err b1).
Qed.

(** What [getWriter] does whenever it needs a new file and may create
    one. *)
Lemma getWriter_new_file {ext : Externals} (d : fileout) (wd : World)
    (b : list Byte.byte) (g' : Z) :
  needsNewFile (bucketed d wd) (Z.of_nat (List.length b)) (rotationTime d)
               (nameNow d wd) = true ->
  minInt64 <= generation (fst (probeStart d wd b)) <= g' -> g' <= maxInt64 ->
  taken (fst (probeStart d wd b)) (rotationTime d) (snd (probeStart d wd b)) g' = false ->
  (forall p, fault wd (CallMkdirAll p) = None /\ fault wd (CallOpenFile p) = None) ->
  exists g : Z,
    generation (fst (probeStart d wd b)) <= g <= g'
    /\ taken (fst (probeStart d wd b)) (rotationTime d) (snd (probeStart d wd b)) g = false
    /\ forall fuel, (Z.to_nat (g' - generation (fst (probeStart d wd b))) < fuel)%nat ->
       exists (nf : File) (cap : N) (d1 : fileout) (wd1 : World),
         nf = mkFile (candidate (set_generation g (fst (probeStart d wd b)))
                                (rotationTime d))
                     (nextfd wd)
         /\ getWriter fuel b true d wd = Ok (w d1, None) d1 wd1
         /\ w d1 = Some (mkWriter nf cap 0 None)
         /\ fr d1 = Some nf /\ size d1 = 0 /\ generation d1 = g
         /\ opt d1 = opt d
         /\ calls isOpenFile wd1 = S (calls isOpenFile wd)
         /\ calls isClose wd1
            = match fr d with
              | Some _ => S (calls isClose wd)
              | None => calls isClose wd
              end.
Proof.
  intros Hneed Hgen Hmax Hfree Hfault.
  destruct (probeStart_frame d wd b) as ((So & _ & _ & _ & Sfr) & St).
  destruct (probeStart_same d wd b) as (Sfault & _ & _ & Snext).
  set (start := fst (probeStart d wd b)) in *.
  set (wd0 := snd (probeStart d wd b)) in *.
  destruct (probe_least (rotationTime d) _ start wd0 g' eq_refl Hgen Hmax Hfree)
    as (g & Hrange & Hfree_g & _ & Hrun).
  exists g. split; [exact Hrange|]. split; [exact Hfree_g|].
  intros fuel Hfuel.
  rewrite getWriter_eq, Hneed, newFile_eq.
  change (settled (bumped (bucketed d wd) (Z.of_nat (List.length b))) wd)
    with (probeStart d wd b).
  fold start wd0. rewrite Hrun by lia. cbn [negb].
  set (d4 := set_generation g start).
  set (wd4 := called_all (probes start (rotationTime d) (generation start) g) wd0).
  set (filename := candidate d4 (rotationTime d)).
  assert (Hwd4 : extends isStat wd wd4).
  { destruct (probes_extends start (rotationTime d) (generation start) g wd0)
      as (cs & E & F).
    exists cs. split; [now rewrite <- St | exact F]. }
  destruct (createFile_ok filename d4 wd4) as (Hcreate & Htrace).
  { change (fault wd4) with (fault wd0). rewrite Sfault. apply Hfault. }
  { change (fault wd4) with (fault wd0). rewrite Sfault. apply Hfault. }
  rewrite Hcreate. change (nextfd wd4) with (nextfd wd0). rewrite Snext.
  set (nf := mkFile filename (nextfd wd)).
  assert (Hsw : exists cap, swapped d4 (created filename wd4) nf = mkWriter nf cap 0 None).
  { unfold swapped. destruct (fst (closeFlush d4 (created filename wd4))) as [bw|];
      eexists; reflexivity. }
  destruct Hsw as (cap & Hsw). rewrite Hsw.
  exists nf, cap,
    (set_fr (Some nf) (set_size 0 (set_w (Some (mkWriter nf cap 0 None)) d4))),
    (closeWorld d4 (created filename wd4)).
  split; [reflexivity|]. split; [reflexivity|].
  cbn [w fr generation size opt set_fr set_size set_w].
  split; [reflexivity|]. split; [reflexivity|]. split; [reflexivity|].
  split; [reflexivity|]. split; [exact So|].
  assert (Hop : calls isOpenFile (created filename wd4) = S (calls isOpenFile wd)).
  { unfold calls at 1. rewrite Htrace. cbn [filter isOpenFile List.length]. f_equal.
    apply (extends_calls isStat); [now intros [] | exact Hwd4]. }
  assert (Hcl : calls isClose (created filename wd4) = calls isClose wd).
  { unfold calls at 1. rewrite Htrace. cbn [filter isClose].
    apply (extends_calls isStat); [now intros [] | exact Hwd4]. }
  split.
  - rewrite <- Hop.
    apply (extends_calls closeCall); [now intros [] | apply closeWorld_extends].
  - rewrite <- Hcl. unfold closeWorld.
    destruct (closeFlush_spec d4 (created filename wd4)) as (Hfl & _).
    pose proof (extends_calls isWrite isClose _ _ ltac:(now intros []) Hfl) as E1.
    assert (Efr4 : fr d4 = fr d) by exact Sfr.
    rewrite Efr4. destruct (fr d) as [f|]; [|exact E1].
    pose proof (renameFile_extends (Name f)
                  (snd (File_Close f (snd (closeFlush d4 (created filename wd4)))))) as Hrn.
    rewrite (extends_calls isRename isClose _ _ ltac:(now intros []) Hrn).
    rewrite <- E1. unfold File_Close.
    destruct (fds _ (Fd f)); reflexivity.
Qed.

(** [Write], once [getWriter] has handed over a buffered writer and a
    byte count of 0. *)
Lemma Write_through {ext : Externals} (fuel : nat) (b : list Byte.byte)
    (d : fileout) (wd : World) (bw : Writer) (d1 : fileout) (wd1 : World) :
  getWriter fuel b true d wd = Ok (Some bw, None) d1 wd1 ->
  w d1 = Some bw -> size d1 = 0 ->
  Z.of_nat (List.length b) <= maxInt64 ->
  exists (n : N) (err : option error) (d2 : fileout) (wd2 : World),
    Write fuel b d wd = Ok (n, err) d2 wd2
    /\ fr d2 = fr d1 /\ generation d2 = generation d1
    /\ size d2 = Z.of_N n /\ (n <= N.of_nat (List.length b))%N
    /\ extends (isWriteTo (Fd (b_wr bw))) wd1 wd2.
Proof.
  intros Hget Hw Hsz Hlen.
  pose proof (Writer_Write_spec bw (N.of_nat (List.length b)) wd1) as Hspec.
  pose proof (Writer_Write_to bw (N.of_nat (List.length b)) wd1) as Hto.
  unfold Write. unfold bind at 1. rewrite Hget.
  unfold bind at 1. unfold w_Write. rewrite Hw.
  destruct (Writer_Write bw (N.of_nat (List.length b)) wd1)
    as [[[n err] wr'] wd2].
  destruct Hspec as (Hn & _ & _ & _). cbn [snd] in Hto.
  cbv beta iota zeta delta [bind modify ret]. cbn [fst].
  exists n, err. eexists. exists wd2. split; [reflexivity|].
  cbn [fr generation size set_size set_w].
  split; [reflexivity|]. split; [reflexivity|].
  split.
  { rewrite Hsz. apply add64_small.
    unfold inInt64, minInt64, maxInt64 in *. lia. }
  split; [exact Hn | exact Hto].
Qed.

(** X7: every rotation of [Write].  Whenever a new file is needed (none
    is open, the size would pass the maximum, or the name for now
    differs), the probe loop ends and the file can be created, [Write]
    returns having opened exactly one file and closed the old one, if any,
    exactly once; [getWriter] hands over a buffered writer on the new file
    with nothing buffered, no error and a byte count of 0; every call made
    after that is a write to the new file, so the old file is closed and
    renamed before the new one receives a byte; the final byte count is
    the number of bytes accepted. *)
Theorem Write_into_a_new_file {ext : Externals} (d : fileout) (wd : World)
    (b : list Byte.byte) (g' : Z) :
  needsNewFile (bucketed d wd) (Z.of_nat (List.length b)) (rotationTime d)
               (nameNow d wd) = true ->
  Z.of_nat (List.length b) <= maxInt64 ->
  minInt64 <= generation (fst (probeStart d wd b)) <= g' -> g' <= maxInt64 ->
  taken (fst (probeStart d wd b)) (rotationTime d) (snd (probeStart d wd b)) g' = false ->
  (forall p, fault wd (CallMkdirAll p) = None /\ fault wd (CallOpenFile p) = None) ->
  exists g : Z,
    generation (fst (probeStart d wd b)) <= g <= g'
    /\ forall fuel, (Z.to_nat (g' - generation (fst (probeStart d wd b))) < fuel)%nat ->
       exists (nf : File) (cap : N) (d1 : fileout) (wd1 : World)
              (n : N) (err : option error) (d2 : fileout) (wd2 : World),
         nf = mkFile (candidate (set_generation g (fst (probeStart d wd b)))
                                (rotationTime d))
                     (nextfd wd)
         /\ getWriter fuel b true d wd
            = Ok (Some (mkWriter nf cap 0 None), None) d1 wd1
         /\ fr d1 = Some nf /\ size d1 = 0
         /\ calls isOpenFile wd1 = S (calls isOpenFile wd)
         /\ calls isClose wd1
            = match fr d with
              | Some _ => S (calls isClose wd)
              | None => calls isClose wd
              end
         /\ Write fuel b d wd = Ok (n, err) d2 wd2
         /\ fr d2 = Some nf /\ generation d2 = g
         /\ size d2 = Z.of_N n /\ (n <= N.of_nat (List.length b))%N
         /\ extends (isWriteTo (Fd nf)) wd1 wd2.
Proof.
  intros Hneed Hlen Hgen Hmax Hfree Hfault.
  destruct (getWriter_new_file d wd b g' Hneed Hgen Hmax Hfree Hfault)
    as (g & Hrange & _ & Hrun).
  exists g. split; [exact Hrange|]. intros fuel Hfuel.
  destruct (Hrun fuel Hfuel)
    as (nf & cap & d1 & wd1 & Hnf & Hget & Hw & Hfr & Hsz & Hg & _ & Hop & Hcl).
  rewrite Hw in Hget.
  destruct (Write_through fuel b d wd _ d1 wd1 Hget Hw Hsz Hlen)
    as (n & err & d2 & wd2 & Hwrite & Hfr2 & Hg2 & Hsz2 & Hn & Hto).
  exists nf, cap, d1, wd1, n, err, d2, wd2.
  split; [exact Hnf|]. split; [exact Hget|].
  split; [exact Hfr|]. split; [exact Hsz|]. split; [exact Hop|].
  split; [exact Hcl|]. split; [exact Hwrite|].
  split; [now rewrite Hfr2|]. split; [now rewrite Hg2|].
  split; [exact Hsz2|]. split; [exact Hn | exact Hto].
Qed.

Lemma Write_into_a_new_file_witness :
  exists (g : Z) (nf : File) (n : N) (err : option error) (d2 : fileout) (wd2 : World),
    7 <= g <= 9
    /\ Write 10 [Byte.x61] (Sample.fresh []) Sample.emptyWorld = Ok (n, err) d2 wd2
    /\ fr d2 = Some nf /\ generation d2 = g /\ size d2 = Z.of_N n.
Proof.
  destruct (Write_into_a_new_file (Sample.fresh []) Sample.emptyWorld [Byte.x61] 9)
    as (g & Hrange & Hrun).
  - reflexivity.
  - vm_compute. discriminate.
  - vm_compute. split; discriminate.
  - vm_compute. discriminate.
  - reflexivity.
  - intros p. split; reflexivity.
  - destruct (Hrun 10%nat) as (nf & cap & d1 & wd1 & n & err & d2 & wd2 & H).
    + vm_compute. repeat constructor.
    + destruct H as (_ & _ & _ & _ & _ & _ & Hwrite & Hfr & Hg & Hsz & _).
      exists g, nf, n, err, d2, wd2.
      split; [exact Hrange | now repeat split].
Defined.

Lemma probeStart_plain {ext : Externals} (d : fileout) (wd : World)
    (b : list Byte.byte) :
  minInt64 <= size d ->
  size d + Z.of_nat (List.length b) <= maxSize d ->
  1 <= generation d ->
  probeStart d wd b = (signalled (bucketed d wd), wd).
Proof.
  intros Hlo Hle Hgen.
  destruct (bucketed_frame d wd) as (_ & _ & Esz & Egen & Eopt & _).
  unfold probeStart, bumped.
  replace (maxSize (bucketed d wd)) with (maxSize d)
    by (unfold maxSize; now rewrite Eopt).
  rewrite Esz. pose proof (maxSize_range d) as Hmax.
  rewrite add64_small by (unfold inInt64 in *; lia).
  destruct (Z.ltb_spec (maxSize d) (size d + Z.of_nat (List.length b))); [lia|].
  unfold settled, ditto.
  destruct (signalled_frame (bucketed d wd)) as (_ & _ & _ & _ & _ & _ & _ & Sg).
  rewrite Sg, Egen.
  destruct (Z.ltb_spec (generation d) 1); [lia|].
  now rewrite andb_false_r.
Qed.

(** X8: a change of bucket.  With time-based rotation on and a file
    open, when the name computed for now (same generation) is not the
    open file's, the size stays within the maximum, the generation has
    left its baseline and the new name is free, [Write] closes the old
    file once and opens exactly one file, named as computed for now, hence
    differently from the old one, at the same generation; every call after
    the swap is a write to the new file. *)
Theorem Write_on_bucket_change {ext : Externals} (d : fileout) (wd : World)
    (b : list Byte.byte) (f : File) :
  fr d = Some f -> 0 < rotationTime d ->
  nameNow d wd <> Name f ->
  0 <= size d ->
  size d + Z.of_nat (List.length b) <= maxSize d ->
  1 <= generation d <= maxInt64 ->
  taken (bucketed d wd) (rotationTime d) wd (generation d) = false ->
  (forall p, fault wd (CallMkdirAll p) = None /\ fault wd (CallOpenFile p) = None) ->
  forall fuel, (0 < fuel)%nat ->
    exists (nf : File) (d1 : fileout) (wd1 : World)
           (n : N) (err : option error) (d2 : fileout) (wd2 : World),
      Name nf = nameNow d wd /\ Name nf <> Name f
      /\ getWriter fuel b true d wd = Ok (w d1, None) d1 wd1
      /\ calls isOpenFile wd1 = S (calls isOpenFile wd)
      /\ calls isClose wd1 = S (calls isClose wd)
      /\ Write fuel b d wd = Ok (n, err) d2 wd2
      /\ fr d2 = Some nf /\ generation d2 = generation d
      /\ size d2 = Z.of_N n /\ (n <= N.of_nat (List.length b))%N
      /\ extends (isWriteTo (Fd nf)) wd1 wd2.
Proof.
  intros Hfr Hrot Hname Hlo Hle Hgen Hfree Hfault fuel Hfuel.
  assert (Hlo' : minInt64 <= size d) by (unfold minInt64; lia).
  pose proof (probeStart_plain d wd b Hlo' Hle (proj1 Hgen)) as Hps.
  destruct (bucketed_frame d wd) as (Efr & _ & _ & Egen & _).
  destruct (signalled_frame (bucketed d wd)) as (So & Ss & Sc & _ & _ & _ & _ & Sg).
  pose proof (maxSize_range d) as Hmax.
  assert (Hlen : Z.of_nat (List.length b) <= maxInt64)
    by (unfold inInt64 in Hmax; lia).
  assert (Hneed : needsNewFile (bucketed d wd) (Z.of_nat (List.length b))
                    (rotationTime d) (nameNow d wd) = true).
  { unfold needsNewFile. rewrite Efr, Hfr.
    destruct (Z.ltb_spec 0 (rotationTime d)); [|lia].
    destruct (String.eqb_spec (nameNow d wd) (Name f)); [contradiction|].
    apply orb_true_r. }
  destruct (getWriter_new_file d wd b (generation d) Hneed)
    as (g & Hrange & _ & Hrun).
  - rewrite Hps. cbn [fst]. rewrite Sg, Egen. unfold minInt64. lia.
  - apply Hgen.
  - rewrite Hps. cbn [fst snd]. unfold taken.
    rewrite (finalized_frame (bucketed d wd) (signalled (bucketed d wd))
               _ _ So Ss Sc).
    exact Hfree.
  - exact Hfault.
  - rewrite Hps in Hrange, Hrun. cbn [fst] in Hrange, Hrun.
    rewrite Sg, Egen in Hrange, Hrun.
    assert (g = generation d) by lia. subst g.
    destruct (Hrun fuel)
      as (nf & cap & d1 & wd1 & Hnf & Hget & Hw & Hfr1 & Hsz1 & Hg1 & _ & Hop & Hcl);
      [rewrite Z.sub_diag; exact Hfuel|].
    pose proof Hget as Hget'. rewrite Hw in Hget'.
    destruct (Write_through fuel b d wd _ d1 wd1 Hget' Hw Hsz1 Hlen)
      as (n & err & d2 & wd2 & Hwrite & Hfr2 & Hg2 & Hsz2 & Hn & Hto).
    assert (Hnm : Name nf = nameNow d wd).
    { rewrite Hnf. cbn [Name]. unfold nameNow.
      destruct (Z.ltb_spec 0 (rotationTime d)); [|lia].
      rewrite (candidate_frame (bucketed d wd) (signalled (bucketed d wd))
                 _ _ So Ss Sc).
      unfold candidate. cbn [strf currTime generation opt set_generation].
      now rewrite Egen. }
    exists nf, d1, wd1, n, err, d2, wd2.
    split; [exact Hnm|]. split; [now rewrite Hnm|].
    split; [exact Hget|]. split; [exact Hop|].
    split; [now rewrite Hfr in Hcl|]. split; [exact Hwrite|].
    split; [now rewrite Hfr2|]. split; [now rewrite Hg2|].
    split; [exact Hsz2|]. split; [exact Hn | exact Hto].
Qed.

Lemma Write_on_bucket_change_witness :
  exists (nf : File) (n : N) (err : option error) (d2 : fileout) (wd2 : World),
    Name nf = "logs/app.60002.7.tmp"
    /\ Write 1 [Byte.x62] (fst Sample.opened)
             (Sample.later (2 * Minute) (snd Sample.opened))
       = Ok (n, err) d2 wd2
    /\ fr d2 = Some nf /\ generation d2 = 7 /\ size d2 = Z.of_N n.
Proof.
  destruct (Write_on_bucket_change (fst Sample.opened)
              (Sample.later (2 * Minute) (snd Sample.opened)) [Byte.x62]
              (mkFile "logs/app.60000.7.tmp" 3))
    with (fuel := 1%nat)
    as (nf & d1 & wd1 & n & err & d2 & wd2 & H).
  - reflexivity.
  - reflexivity.
  - vm_compute. discriminate.
  - vm_compute. discriminate.
  - vm_compute. discriminate.
  - vm_compute. split; discriminate.
  - vm_compute. reflexivity.
  - intros p. split; reflexivity.
  - apply le_n.
  - destruct H as (Hnm & _ & _ & _ & _ & Hwrite & Hfr & Hg & Hsz & _).
    exists nf, n, err, d2, wd2. split; [exact Hnm|]. split; [exact Hwrite|].
    split; [exact Hfr|]. split; [exact Hg | exact Hsz].
Defined.

(** ** The name after a rotation by size *)

(** X9: a rotation by size changes the name.  If the name generator
    gives different names to different generations of the writer's
    bucket, and the open file's name is the one computed for now at the
    current generation, then the file [getWriter] opens for a write that
    pushes the size over the maximum has a name other than the open
    file's. *)
Theorem size_rotation_changes_the_name {ext : Externals} (d : fileout)
    (wd : World) (b : list Byte.byte) (g' : Z) (f : File) :
  fr d = Some f ->
  Name f = candidate (bucketed d wd) (rotationTime d) ->
  (forall g1 g2,
      candidate (set_generation g1 (bucketed d wd)) (rotationTime d)
      = candidate (set_generation g2 (bucketed d wd)) (rotationTime d) ->
      g1 = g2) ->
  maxSize d < size d + Z.of_nat (List.length b) ->
  inInt64 (size d + Z.of_nat (List.length b)) ->
  0 <= generation d < g' -> g' <= maxInt64 ->
  taken (bucketed d wd) (rotationTime d) wd g' = false ->
  (forall p, fault wd (CallMkdirAll p) = None /\ fault wd (CallOpenFile p) = None) ->
  forall fuel, (Z.to_nat (g' - generation d) <= fuel)%nat ->
    exists (nf : File) (wr : Writer) (d1 : fileout) (wd1 : World),
      getWriter fuel b true d wd = Ok (Some wr, None) d1 wd1
      /\ fr d1 = Some nf
      /\ Name nf <> Name f
      /\ generation d < generation d1.
Proof.
  intros Hfr Hname Hinj Hover Hin Hgen Hmax Hfree Hfault fuel Hfuel.
  destruct (getWriter_over_max d wd b g' Hover Hin Hgen Hmax Hfree Hfault)
    as (g & Hrange & _ & _ & Hrun).
  destruct (Hrun fuel Hfuel)
    as (wr & d1 & wd1 & Hget & _ & Hwr & Hfr1 & Hg & _).
  destruct (bucketed_frame d wd) as (_ & _ & _ & Egen & _).
  exists (b_wr wr), wr, d1, wd1.
  split; [exact Hget|]. split; [exact Hfr1|]. split; [|lia].
  rewrite Hwr, Hname. cbn [Name]. intros E.
  assert (g = generation (bucketed d wd)) by (apply Hinj; exact E).
  lia.
Qed.

Lemma append_inj_l (s x y : string) : s ++ x = s ++ y -> x = y.
Proof.
  induction s as [|c s IH]; cbn [append]; [trivial|].
  intros [= E]. now apply IH.
Qed.

Lemma append_inj_r (t : string) :
  forall x y : string, x ++ t = y ++ t -> x = y.
Proof.
  induction x as [|a x IH]; intros [|c y] E; cbn [append] in E.
  - reflexivity.
  - apply (f_equal String.length) in E. cbn [String.length] in E.
    rewrite length_app in E. lia.
  - apply (f_equal String.length) in E. cbn [String.length] in E.
    rewrite length_app in E. lia.
  - injection E as -> E. f_equal. now apply IH.
Qed.

Lemma dec_inj (a b : Z) : Sample.dec a = Sample.dec b -> a = b.
Proof.
  assert (Hnil : forall z, Z.to_int z <> Decimal.Pos Decimal.Nil
                           /\ Z.to_int z <> Decimal.Neg Decimal.Nil).
  { intros z. split; intros E; pose proof (f_equal Z.of_int E) as E0;
      rewrite DecimalZ.of_to in E0; cbn in E0; subst z; discriminate E. }
  unfold Sample.dec. intros E.
  apply (f_equal NilZero.int_of_string) in E.
  rewrite !NilZero.isi in E by apply Hnil.
  injection E as E. now apply DecimalZ.to_int_inj.
Qed.

(** The sample generator gives different names to different
    generations. *)
Lemma genName_inj (sf : string) (t : Time) (rot : Duration) (tz : bool)
    (tmp : string) (g1 g2 : Z) :
  Sample.genName sf t rot g1 tz tmp = Sample.genName sf t rot g2 tz tmp ->
  g1 = g2.
Proof.
  unfold Sample.genName. intros E.
  repeat apply append_inj_l in E.
  apply append_inj_r in E. now apply dec_inj.
Qed.

Lemma size_rotation_changes_the_name_witness :
  exists (nf : File) (wr : Writer) (d1 : fileout) (wd1 : World),
    getWriter 1 [Byte.x62] true Sample.full (snd Sample.opened)
    = Ok (Some wr, None) d1 wd1
    /\ fr d1 = Some nf
    /\ Name nf <> "logs/app.60000.7.tmp"
    /\ generation Sample.full < generation d1.
Proof.
  apply (size_rotation_changes_the_name Sample.full (snd Sample.opened)
           [Byte.x62] 8 (mkFile "logs/app.60000.7.tmp" 3)).
  - reflexivity.
  - reflexivity.
  - intros g1 g2. apply genName_inj.
  - vm_compute. reflexivity.
  - vm_compute. split; discriminate.
  - vm_compute. split; [discriminate | reflexivity].
  - vm_compute. discriminate.
  - vm_compute. reflexivity.
  - intros p. split; reflexivity.
  - vm_compute. apply le_n.
Defined.

(** ** The worker's tick *)

(** X10: a tick within the bucket.  Once the worker runs, with the
    channel empty and a file open whose name is still the one computed
    for now, and the byte count within the maximum, the tick's check
    makes no call at all and changes nothing of the writer but the bucket
    time: the idle file stays open and temporary. *)
Theorem tick_keeps_the_open_file {ext : Externals} (fuel : nat) (d : fileout)
    (wd : World) (f : File) :
  startMill d = true -> oldStuff d = Some [] ->
  fr d = Some f -> 0 < rotationTime d ->
  nameNow d wd = Name f ->
  minInt64 <= size d <= maxSize d ->
  step fuel OpTick d wd = Ok tt (set_currTime (time_Now wd) d) wd.
Proof.
  intros Hst Hch Hfr Hrot Hname Hsz.
  cbn [step]. cbv beta iota zeta delta [bind this when ret].
  rewrite Hst. destruct (Z.ltb_spec 0 (rotationTime d)) as [_|]; [|lia].
  cbn [andb]. unfold stduffRun_tick.
  cbv beta iota zeta delta [bind this ret]. rewrite Hch.
  rewrite getWriter_eq.
  rewrite (needsNewFile_false d wd f) by (cbn [List.length]; auto; lia).
  unfold bucketed. destruct (Z.ltb_spec 0 (rotationTime d)); [reflexivity | lia].
Qed.

Lemma tick_keeps_the_open_file_witness :
  step 1 OpTick (fst Sample.swept) (snd Sample.swept)
  = Ok tt (set_currTime (time_Now (snd Sample.swept)) (fst Sample.swept))
       (snd Sample.swept).
Proof.
  apply (tick_keeps_the_open_file 1 (fst Sample.swept) (snd Sample.swept)
           (mkFile "logs/app.60000.7.tmp" 3)).
  - reflexivity.
  - reflexivity.
  - reflexivity.
  - reflexivity.
  - reflexivity.
  - vm_compute. split; discriminate.
Defined.

(** ** What a sweep removes *)

(** X11: what no sweep does.  Over distinct matches and with a callback
    that leaves the directory alone, [stduffHandler] returns and leaves the
    writer as it is; when [filepath.Glob] fails it returns that error and
    touches nothing; otherwise it removes and hands to the callback only
    paths that [filepath.Glob] returned, it removes a path only if
    [os.Stat] showed it older than the retention age, and the callback
    never sees a path that was removed. *)
Theorem stduffHandler_removes_only_expired {ext : Externals} (stduff : string)
    (d : fileout) (wd : World) :
  quietStuffunc d ->
  (forall ms, filepath_Glob stduff wd = inl ms -> NoDup ms) ->
  exists (r : option error) (wd' : World) (cs : list Call),
    stduffHandler stduff d wd = Ok r d wd'
    /\ trace wd' = (cs ++ CallGlob stduff :: trace wd)%list
    /\ (forall e, filepath_Glob stduff wd = inr e -> r = Some e /\ cs = [])
    /\ (forall p, In (CallStuffunc p) cs \/ In (CallRemove p) cs ->
          exists ms, filepath_Glob stduff wd = inl ms /\ In p ms)
    /\ (forall p, In (CallRemove p) cs ->
          ~ In (CallStuffunc p) cs
          /\ exists f, stat p wd = inl f /\ maxAge d < age d f).
Proof.
  intros Hq Hnd. unfold stduffHandler.
  cbv beta iota zeta delta [bind world ret].
  destruct (filepath_Glob stduff wd) as [ms|e].
  - destruct (stduffRange_removes_only_expired ms d (called (CallGlob stduff) wd)
                Hq (Hnd ms eq_refl))
      as (r & wd' & cs & Hrun & Htr & Hcb & Hrm).
    exists r, wd', cs. split; [exact Hrun|]. split; [exact Htr|].
    split; [discriminate|]. split.
    + intros p [Hp|Hp]; exists ms; (split; [reflexivity|]);
        [now apply Hcb | now apply Hrm].
    + intros p Hp. destruct (Hrm p Hp) as (_ & Hno & Hex).
      split; [exact Hno | exact Hex].
  - exists (Some e), (called (CallGlob stduff) wd), [].
    split; [reflexivity|]. split; [reflexivity|].
    split; [now intros e' [= <-]|].
    split; [intros p [[]|[]] | intros p []].
Qed.

Lemma stduffHandler_removes_only_expired_witness :
  exists (r : option error) (wd' : World) (cs : list Call),
    stduffHandler "app*" Sample.atT0 Sample.cwdWorld = Ok r Sample.atT0 wd'
    /\ trace wd' = (cs ++ [CallGlob "app*"])%list
    /\ (forall p, In (CallRemove p) cs ->
          ~ In (CallStuffunc p) cs
          /\ exists f, stat p Sample.cwdWorld = inl f
                       /\ maxAge Sample.atT0 < age Sample.atT0 f).
Proof.
  destruct (stduffHandler_removes_only_expired "app*" Sample.atT0 Sample.cwdWorld)
    as (r & wd' & cs & Hrun & Htr & _ & _ & Hrm).
  - exact I.
  - intros ms [= <-]. repeat constructor; cbn; intuition discriminate.
  - exists r, wd', cs. split; [exact Hrun|]. split; [exact Htr | exact Hrm].
Defined.

(** The loop of the sweep over matches none of which is due for
    finalization: it reaches the last match. *)
Lemma stduffRange_complete {ext : Externals} (matches : list string) :
  forall (d : fileout) (wd : World),
    quietStuffunc d -> NoDup matches ->
    (forall p f, In p matches -> stat p wd = inl f ->
                 age d f <= maxAge d -> due d p f = false) ->
    exists (wd' : World) (cs : list Call),
      stduffRange matches d wd = Ok None d wd'
      /\ trace wd' = (cs ++ trace wd)%list
      /\ (forall c, fault wd' c = fault wd c)
      /\ (forall q, ~ In q matches -> files wd' q = files wd q)
      /\ forallb (fun c => negb (isRename c)) cs = true
      /\ (forall p, In p matches -> sweptMatch d wd wd' cs p).
Proof.
  induction matches as [|fullName rest IH]; intros d wd Hq Hnd Hdue.
  - exists wd, []. cbn. repeat split; contradiction.
  - inversion Hnd as [|? ? Hnotin Hnd']; subst.
    cbn [stduffRange]. cbv beta iota zeta delta [bind this world ret os_Stat].
    set (wd1 := called (CallStat fullName) wd).
    assert (Hlift : forall (wd2 : World) (c1 : list Call),
      trace wd2 = (c1 ++ trace wd)%list ->
      (forall q, q <> fullName -> files wd2 q = files wd q) ->
      (forall c, fault wd2 c = fault wd c) ->
      forallb (fun c => negb (isRename c)) c1 = true ->
      (forall wd' cs', files wd' fullName = files wd2 fullName ->
                       sweptMatch d wd wd' (cs' ++ c1)%list fullName) ->
      exists wd' cs,
        stduffRange rest d wd2 = Ok None d wd'
        /\ trace wd' = (cs ++ trace wd)%list
        /\ (forall c, fault wd' c = fault wd c)
        /\ (forall q, ~ In q (fullName :: rest) -> files wd' q = files wd q)
        /\ forallb (fun c => negb (isRename c)) cs = true
        /\ (forall p, In p (fullName :: rest) -> sweptMatch d wd wd' cs p)).
    { intros wd2 c1 Htr Hfiles Hfault Hnr1 Hhead.
      assert (Hst : forall p, In p rest -> stat p wd2 = stat p wd).
      { intros p Hp. apply stat_agree; [|exact Hfault].
        apply Hfiles. intros ->. contradiction. }
      destruct (IH d wd2 Hq Hnd') as (wd' & cs' & Hrun & Htr' & Hfault' & Hfiles' & Hnr & Hall).
      { intros p f Hp Hs. rewrite (Hst p Hp) in Hs.
        apply Hdue; [now right | exact Hs]. }
      exists wd', (cs' ++ c1)%list. split; [exact Hrun|].
      split; [rewrite Htr', Htr; apply app_assoc|].
      split; [intros c; now rewrite Hfault'|].
      split.
      { intros q Hq'. rewrite Hfiles'.
        - apply Hfiles. intros ->. apply Hq'. now left.
        - intros Hin. apply Hq'. now right. }
      split; [rewrite forallb_app, Hnr, Hnr1; reflexivity|].
      intros p [<-|Hp].
      - apply Hhead. now apply Hfiles'.
      - specialize (Hall p Hp). unfold sweptMatch in *.
        rewrite (Hst p Hp) in Hall.
        assert (Hne : p <> fullName) by (intros ->; contradiction).
        destruct (stat p wd) as [f|e].
        + destruct (maxAge d <? age d f).
          * destruct Hall as (Hin & Hgone). split; [apply in_or_app; now left|].
            intros Hf. apply Hgone. now rewrite Hfault.
          * destruct Hall as (Hsame & Hcb). split.
            -- rewrite Hsame. now apply Hfiles.
            -- intros Hs. apply in_or_app. left. now apply Hcb.
        + rewrite Hall. now apply Hfiles. }
    destruct (stat fullName wd) as [f|e] eqn:Hstat.
    + destruct (Z.ltb_spec (maxAge d) (Time_Sub (currTime d) (fi_ModTime f)))
        as [Hold|Hyoung].
      * assert (Hexp : (maxAge d <? age d f) = true)
          by (apply Z.ltb_lt; exact Hold).
        unfold os_Remove.
        change (fault (called (CallRemove fullName) wd1)) with (fault wd).
        change (files (called (CallRemove fullName) wd1)) with (files wd).
        destruct (fault wd (CallRemove fullName)) as [e|] eqn:Hflt;
          [|destruct (files wd fullName) as [i|] eqn:Hfile];
          apply (Hlift _ [CallRemove fullName; CallStat fullName]);
          try reflexivity;
          try (intros wd' cs' Hf; unfold sweptMatch; rewrite Hstat, Hexp;
               split; [apply in_or_app; right; now left|]).
        -- rewrite Hflt. discriminate.
        -- intros q Hne. cbn [files set_files called]. unfold upd_file.
           destruct (String.eqb_spec q fullName); [contradiction | reflexivity].
        -- intros _. rewrite Hf. cbn [files set_files called]. unfold upd_file.
           now rewrite String.eqb_refl.
        -- intros _. rewrite Hf. exact Hfile.
      * assert (Hexp : (maxAge d <? age d f) = false)
          by (apply Z.ltb_ge; exact Hyoung).
        pose proof (Hdue fullName f (or_introl eq_refl) Hstat Hyoung) as Hd.
        unfold due, age in Hd. rewrite Hd.
        unfold quietStuffunc in Hq.
        destruct (Options.stuffunc (opt d)) as [cb|] eqn:Hcb.
        -- destruct (Hq fullName (called (CallStuffunc fullName) wd1))
             as (Ht & Hf & Hc).
           apply (Hlift _ [CallStuffunc fullName; CallStat fullName]).
           ++ exact Ht.
           ++ intros q _. apply Hf.
           ++ exact Hc.
           ++ reflexivity.
           ++ intros wd' cs' Hf'. unfold sweptMatch. rewrite Hstat, Hexp.
              split; [rewrite Hf'; apply Hf|].
              intros _. apply in_or_app. right. now left.
        -- apply (Hlift _ [CallStat fullName]); try reflexivity.
           intros wd' cs' Hf'. unfold sweptMatch. rewrite Hstat, Hexp, Hcb.
           split; [exact Hf' | intros Hn; now contradiction Hn].
    + apply (Hlift _ [CallStat fullName]); try reflexivity.
      intros wd' cs' Hf'. unfold sweptMatch. rewrite Hstat. exact Hf'.
Qed.

(** X12: a sweep that meets no file to finalize.  When none of the
    matches within the retention age is a temporary file that is stale or
    near the maximum size (the one case in which the loop returns),
    [stduffHandler] goes through every match, renames nothing and returns
    no error: every match that [os.Stat] showed older than the retention
    age was passed to [os.Remove] and is gone unless that call failed,
    every younger one is still there and was handed to the callback, if
    any, and what is unreadable or was not matched is left alone. *)
Theorem stduffHandler_sweeps_every_match {ext : Externals} (stduff : string)
    (d : fileout) (wd : World) (matches : list string) :
  filepath_Glob stduff wd = inl matches -> NoDup matches ->
  quietStuffunc d ->
  (forall p f, In p matches -> stat p wd = inl f ->
               age d f <= maxAge d -> due d p f = false) ->
  exists (wd' : World) (cs : list Call),
    stduffHandler stduff d wd = Ok None d wd'
    /\ trace wd' = (cs ++ CallGlob stduff :: trace wd)%list
    /\ forallb (fun c => negb (isRename c)) cs = true
    /\ (forall p, In p matches -> sweptMatch d wd wd' cs p)
    /\ (forall q, ~ In q matches -> files wd' q = files wd q).
Proof.
  intros Hglob Hnd Hq Hdue. unfold stduffHandler.
  cbv beta iota zeta delta [bind world ret]. rewrite Hglob.
  destruct (stduffRange_complete matches d (called (CallGlob stduff) wd) Hq Hnd Hdue)
    as (wd' & cs & Hrun & Htr & _ & Hfiles & Hnr & Hall).
  exists wd', cs. split; [exact Hrun|]. split; [exact Htr|].
  split; [exact Hnr|]. split; [exact Hall | exact Hfiles].
Qed.

Lemma stduffHandler_sweeps_every_match_witness :
  exists (wd' : World) (cs : list Call),
    stduffHandler "app*" Sample.atT0 Sample.agedWorld = Ok None Sample.atT0 wd'
    /\ In (CallRemove "app.28.0") cs
    /\ files wd' "app.28.0" = None
    /\ files wd' "logs/app.28.0" = Some Sample.oldInode.
Proof.
  destruct (stduffHandler_sweeps_every_match "app*" Sample.atT0 Sample.agedWorld
              ["app.28.0"; "logs/app.28.0"])
    as (wd' & cs & Hrun & _ & _ & Hall & _).
  - reflexivity.
  - repeat constructor; cbn; intuition discriminate.
  - exact I.
  - intros p f [<-|[<-|[]]] [= <-] _; reflexivity.
  - pose proof (Hall "app.28.0" (or_introl eq_refl)) as (Hin & Hgone).
    pose proof (Hall "logs/app.28.0" (or_intror (or_introl eq_refl))) as (Hkept & _).
    exists wd', cs. split; [exact Hrun|]. split; [exact Hin|].
    split; [exact (Hgone eq_refl) | exact Hkept].
Defined.

(** ** What no call but [Sync] can do *)

Lemma probe_returns {ext : Externals} (rot : Duration) (fuel : nat) :
  forall (d : fileout) (wd : World), probe fuel rot d wd <> Panic.
Proof.
  induction fuel as [|fuel IH]; intros d wd.
  - discriminate.
  - destruct (taken d rot wd (generation d)) eqn:Ht.
    + rewrite (probe_taken _ _ _ _ Ht). apply IH.
    + rewrite (probe_free _ _ _ _ Ht). discriminate.
Qed.

Lemma createFile_returns {ext : Externals} (filename : string) (d : fileout)
    (wd : World) :
  exists r wd', createFile filename d wd = Ok r d wd'.
Proof.
  unfold createFile. cbv beta iota zeta delta [bind ret world].
  destruct (os_MkdirAll (filepath_Dir filename) wd) as [[e|] wd1].
  - eexists. eexists. reflexivity.
  - destruct (os_OpenFile filename wd1) as [[fh|e] wd2];
      eexists; eexists; reflexivity.
Qed.

(** The ways [getWriter] returns: it never panics; with an error, the
    pointer is nil and file, size and buffered writer are as before;
    without, the pointer is [d.w], and either nothing was due and file,
    size and generation are as before, or the size is 0 and there is a new
    file behind a buffered writer or, on the worker's check, no file. *)
Lemma getWriter_cases {ext : Externals} (fuel : nat) (b : list Byte.byte)
    (c : bool) (d : fileout) (wd : World) :
  match getWriter fuel b c d wd with
  | Panic => False
  | OutOfFuel => True
  | Ok (wr, err) d' wd' =>
      opt d' = opt d
      /\ match err with
         | Some _ =>
             c = true /\ wr = None
             /\ size d' = size d /\ fr d' = fr d /\ w d' = w d
         | None =>
             wr = w d'
             /\ ((size d' = size d /\ fr d' = fr d /\ fr d <> None
                  /\ w d' = w d /\ generation d' = generation d
                  /\ (maxSize d <? add64 (size d) (Z.of_nat (List.length b))) = false)
                 \/ (size d' = 0
                     /\ if c then w d' <> None /\ fr d' <> None
                        else fr d' = None))
         end
  end.
Proof.
  rewrite getWriter_eq.
  destruct (probeStart_frame d wd b) as ((So & _ & _ & Sw & Sfr) & _).
  pose proof (probeStart_size d wd b) as Ssz.
  destruct (bucketed_frame d wd) as (Efr & Ew & Esz & Egen & Eo & _).
  destruct (needsNewFile _ _ _ _) eqn:Hneed.
  - rewrite newFile_eq.
    change (settled (bumped (bucketed d wd) (Z.of_nat (List.length b))) wd)
      with (probeStart d wd b).
    pose proof (probe_returns (rotationTime d) fuel (fst (probeStart d wd b))
                  (snd (probeStart d wd b))) as Hnp.
    destruct (probe fuel (rotationTime d) (fst (probeStart d wd b))
                (snd (probeStart d wd b))) as [filename d4 wd4| |] eqn:Hp;
      [|now apply Hnp|exact I].
    destruct (probe_frame _ _ _ _ _ _ _ Hp) as (g & ->).
    destruct c; cbn [negb].
    + destruct (createFile_returns filename
                  (set_generation g (fst (probeStart d wd b))) wd4)
        as ([nf|err] & wd5 & ->).
      * cbn [opt w fr size set_fr set_size set_w set_generation].
        split; [exact So|]. split; [reflexivity|]. right.
        split; [reflexivity|]. split; discriminate.
      * cbn [opt w fr size set_generation].
        split; [exact So|]. split; [reflexivity|]. split; [reflexivity|].
        split; [exact Ssz|]. split; [exact Sfr | exact Sw].
    + cbn [opt w fr size set_fr set_size set_w set_generation].
      split; [exact So|]. split; [reflexivity|]. right.
      split; reflexivity.
  - split; [exact Eo|]. split; [reflexivity|]. left.
    unfold needsNewFile in Hneed. rewrite Efr, Esz in Hneed.
    replace (maxSize (bucketed d wd)) with (maxSize d) in Hneed
      by (unfold maxSize; now rewrite Eo).
    destruct (fr d) as [f|]; [|discriminate Hneed].
    apply orb_false_iff in Hneed. destruct Hneed as (Hsz & _).
    split; [exact Esz|]. split; [exact Efr|]. split; [discriminate|].
    split; [exact Ew|]. split; [exact Egen | exact Hsz].
Qed.

Lemma step_returns {ext : Externals} (fuel : nat) (o : Op) (d : fileout)
    (wd : World) :
  openHasWriter d -> (w d = None -> isSync o = false) ->
  step fuel o d wd <> Panic.
Proof.
  intros Hopen Hsync. destruct o as [b| | | | |f]; cbn [step].
  - unfold Write. cbv beta iota zeta delta [bind ret modify].
    pose proof (getWriter_cases fuel b true d wd) as Hc.
    destruct (getWriter fuel b true d wd) as [[wr err] d1 wd1| |];
      [|contradiction|discriminate].
    destruct Hc as (_ & Hc). destruct err as [e|].
    + destruct wr; discriminate.
    + destruct Hc as (-> & Hc).
      assert (Hw : w d1 <> None).
      { destruct Hc as [(_ & _ & Hfr & Hw & _)|(_ & Hw & _)]; [|exact Hw].
        rewrite Hw. now apply Hopen. }
      destruct (w d1) as [bw|] eqn:Ew; [|contradiction].
      cbv beta iota. unfold w_Write. rewrite Ew.
      destruct (Writer_Write bw (N.of_nat (List.length b)) wd1)
        as [[[n err] bw'] wd2].
      discriminate.
  - unfold Sync, w_Flush. cbv beta iota zeta delta [bind ret].
    destruct (w d) as [bw|]; [|now specialize (Hsync eq_refl)].
    destruct (Flush bw wd) as [[e bw'] wd1]. discriminate.
  - unfold Close. cbv beta iota zeta delta [bind ret]. rewrite close_eq.
    discriminate.
  - cbv beta iota zeta delta [bind this when ret].
    destruct (startMill d); [|discriminate].
    unfold stduffRun_recv. cbv beta iota zeta delta [bind this modify ret].
    destruct (oldStuff d) as [[|stduff rest]|]; try discriminate.
    destruct (stduffHandler_frame stduff (set_oldStuff (Some rest) d) wd)
      as (r & wd1 & ->).
    discriminate.
  - cbv beta iota zeta delta [bind this when ret].
    destruct (startMill d && (0 <? rotationTime d)); [|discriminate].
    unfold stduffRun_tick. cbv beta iota zeta delta [bind this ret].
    pose proof (getWriter_cases fuel [] false d wd) as Hc.
    destruct (oldStuff d) as [[|x l]|]; try discriminate;
      destruct (getWriter fuel [] false d wd) as [[wr err] d1 wd1| |];
      try discriminate; contradiction.
  - discriminate.
Qed.

(** X13: nothing but [Sync] dereferences a nil writer.  On a writer
    reached from [NewFileout] by any run, a further run of writes, closes,
    wake-ups of the worker and changes of the surroundings never panics,
    whatever fails around it; with a [Sync] in it, it never panics once
    the buffered writer exists. *)
Theorem only_Sync_panics {ext : Externals} (name : string) (opts : list Option)
    (d0 : fileout) (fuel : nat) (before after : list Op) (wd : World)
    (d : fileout) (wd' : World) :
  NewFileout name opts = inl d0 ->
  run fuel before d0 wd = Ok tt d wd' ->
  (w d = None -> forallb (fun o => negb (isSync o)) after = true) ->
  run fuel after d wd' <> Panic.
Proof.
  intros Hnew Hrun. pose proof (run_open _ _ _ _ _ _ _ _ Hnew Hrun) as Hopen.
  clear Hnew Hrun. revert d wd' Hopen.
  induction after as [|o ops IH]; intros d wd' Hopen Hsync; cbn [run].
  - discriminate.
  - unfold bind at 1.
    assert (Ho : w d = None -> isSync o = false).
    { intros Hw. specialize (Hsync Hw). cbn [forallb] in Hsync.
      apply andb_true_iff in Hsync. now destruct (isSync o). }
    pose proof (step_returns fuel o d wd' Hopen Ho) as Hstep.
    destruct (step fuel o d wd') as [[] d1 wd1| |] eqn:Hs;
      [|contradiction|discriminate].
    apply IH; [exact (step_open _ _ _ _ _ _ Hs Hopen)|].
    intros Hw1. destruct (step_w _ _ _ _ _ _ Hs) as (Hkeep & _).
    destruct (w d) as [bw|] eqn:Ew.
    + exfalso. apply Hkeep; [discriminate | exact Hw1].
    + specialize (Hsync eq_refl). cbn [forallb] in Hsync.
      now apply andb_true_iff in Hsync.
Qed.

Lemma only_Sync_panics_witness :
  run 1 [OpTick; OpWrite [Byte.x61]; OpClose; OpRecv; OpWrite [Byte.x61]]
      (Sample.fresh []) Sample.lockedWorld <> Panic.
Proof.
  apply (only_Sync_panics "logs/app" [] (Sample.fresh []) 1 []
           [OpTick; OpWrite [Byte.x61]; OpClose; OpRecv; OpWrite [Byte.x61]]
           Sample.lockedWorld (Sample.fresh []) Sample.lockedWorld).
  - reflexivity.
  - reflexivity.
  - reflexivity.
Defined.

(** ** The byte count *)

Lemma maxSize_opt {ext : Externals} (d d' : fileout) :
  opt d' = opt d -> maxSize d' = maxSize d.
Proof. intros E. unfold maxSize. now rewrite E. Qed.

Lemma step_size {ext : Externals} (fuel : nat) (o : Op) (d : fileout)
    (wd : World) (d' : fileout) (wd' : World) (L : Z) :
  step fuel o d wd = Ok tt d' wd' ->
  writeLen o <= L -> Z.max (maxSize d) L + L <= maxInt64 ->
  0 <= size d <= Z.max (maxSize d) L ->
  opt d' = opt d /\ 0 <= size d' <= Z.max (maxSize d) L.
Proof.
  intros Hstep Hlen Hmax Hsz. destruct o as [b| | | | |f]; cbn [step writeLen] in *.
  - unfold Write in Hstep. cbv beta iota zeta delta [bind ret modify] in Hstep.
    pose proof (getWriter_cases fuel b true d wd) as Hc.
    destruct (getWriter fuel b true d wd) as [[wr err] d1 wd1| |];
      try discriminate Hstep.
    destruct Hc as (Eo & Hc). destruct err as [e|].
    + destruct Hc as (_ & -> & Es & _). injection Hstep as <- _.
      split; [exact Eo | now rewrite Es].
    + destruct Hc as (-> & Hc).
      destruct (w d1) as [bw|] eqn:Ew; [|discriminate Hstep].
      cbv beta iota in Hstep. unfold w_Write in Hstep. rewrite Ew in Hstep.
      pose proof (Writer_Write_spec bw (N.of_nat (List.length b)) wd1) as Hspec.
      destruct (Writer_Write bw (N.of_nat (List.length b)) wd1)
        as [[[n err] bw'] wd2].
      destruct Hspec as (Hn & _). cbn [fst snd] in Hn.
      injection Hstep as <- _.
      cbn [opt size set_size set_w fst]. split; [exact Eo|].
      assert (Hn' : 0 <= Z.of_N n <= Z.of_nat (List.length b)) by lia.
      destruct Hc as [(Es & _ & _ & _ & _ & Hle)|(Es & _)]; rewrite Es.
      * rewrite add64_small in Hle
          by (unfold inInt64, minInt64, maxInt64 in *; lia).
        apply Z.ltb_ge in Hle.
        rewrite add64_small by (unfold inInt64, minInt64, maxInt64 in *; lia).
        lia.
      * rewrite add64_small by (unfold inInt64, minInt64, maxInt64 in *; lia).
        lia.
  - unfold Sync, w_Flush in Hstep. cbv beta iota zeta delta [bind ret] in Hstep.
    destruct (w d) as [bw|]; [|discriminate Hstep].
    destruct (Flush bw wd) as [[e bw'] wd1].
    injection Hstep as <- _. now split.
  - unfold Close in Hstep. cbv beta iota zeta delta [bind ret] in Hstep.
    rewrite close_eq in Hstep. injection Hstep as <- _. now split.
  - cbv beta iota zeta delta [bind this when ret] in Hstep.
    destruct (startMill d); [|injection Hstep as <- _; now split].
    unfold stduffRun_recv in Hstep.
    cbv beta iota zeta delta [bind this modify ret] in Hstep.
    destruct (oldStuff d) as [[|stduff rest]|];
      try (injection Hstep as <- _; now split).
    destruct (stduffHandler_frame stduff (set_oldStuff (Some rest) d) wd)
      as (r & wd1 & E).
    rewrite E in Hstep. injection Hstep as <- _. now split.
  - cbv beta iota zeta delta [bind this when ret] in Hstep.
    destruct (startMill d && (0 <? rotationTime d));
      [|injection Hstep as <- _; now split].
    unfold stduffRun_tick in Hstep.
    cbv beta iota zeta delta [bind this ret] in Hstep.
    pose proof (getWriter_cases fuel [] false d wd) as Hc.
    assert (Hdry : match getWriter fuel [] false d wd with
                   | Ok _ d'0 wd'0 => Ok tt d'0 wd'0
                   | Panic => Panic
                   | OutOfFuel => OutOfFuel
                   end = Ok tt d' wd' ->
                   opt d' = opt d /\ 0 <= size d' <= Z.max (maxSize d) L).
    { destruct (getWriter fuel [] false d wd) as [[wr err] d1 wd1| |];
        try discriminate.
      intros [= <- _]. destruct Hc as (Eo & Hc). split; [exact Eo|].
      destruct err as [e|]; [destruct Hc as (Hc & _); discriminate Hc|].
      destruct Hc as (_ & [(Es & _)|(Es & _)]); rewrite Es; lia. }
    destruct (oldStuff d) as [[|x l]|]; try (apply Hdry; exact Hstep).
    injection Hstep as <- _. now split.
  - injection Hstep as <- _. now split.
Qed.

(** X14: the byte count stays within the maximum.  Along every run of a
    writer made by [NewFileout], whatever fails around it, the maximum
    size stays the configured one and the byte count [d.size] is never
    negative and never above the maximum size, or above the longest
    single write when that is larger: a write that would pass the maximum
    goes to a new file whose count starts again from 0. *)
Theorem size_stays_within_the_maximum {ext : Externals} (name : string)
    (opts : list Option) (d0 : fileout) (fuel : nat) (ops : list Op)
    (wd : World) (d : fileout) (wd' : World) (L : Z) :
  NewFileout name opts = inl d0 ->
  0 <= L -> Z.max (maxSize d0) L + L <= maxInt64 ->
  Forall (fun o => writeLen o <= L) ops ->
  run fuel ops d0 wd = Ok tt d wd' ->
  maxSize d = maxSize d0 /\ 0 <= size d <= Z.max (maxSize d0) L.
Proof.
  intros Hnew HL Hmax Hall Hrun.
  assert (H0 : 0 <= size d0 <= Z.max (maxSize d0) L).
  { unfold NewFileout in Hnew. destruct (strftime_New name); [|discriminate Hnew].
    injection Hnew as <-. cbn [size]. lia. }
  clear Hnew.
  assert (Hgen : forall d1 wd1,
            opt d1 = opt d0 -> 0 <= size d1 <= Z.max (maxSize d0) L ->
            run fuel ops d1 wd1 = Ok tt d wd' ->
            opt d = opt d0 /\ 0 <= size d <= Z.max (maxSize d0) L).
  { clear H0 Hrun wd. induction Hall as [|o ops Ho _ IH]; intros d1 wd1 Eo Hsz; cbn [run].
    - intros [= <- _]. now split.
    - unfold bind at 1.
      destruct (step fuel o d1 wd1) as [[] d2 wd2| |] eqn:Hs; try discriminate.
      rewrite <- (maxSize_opt d0 d1 Eo) in Hsz, Hmax.
      destruct (step_size _ _ _ _ _ _ L Hs Ho Hmax Hsz) as (Eo2 & Hsz2).
      rewrite (maxSize_opt d0 d1 Eo) in Hsz2.
      apply IH; [congruence | exact Hsz2]. }
  destruct (Hgen d0 wd eq_refl H0 Hrun) as (Eo & Hsz).
  split; [now apply maxSize_opt | exact Hsz].
Qed.

Lemma size_stays_within_the_maximum_witness :
  maxSize (fst Sample.opened) = maxSize (Sample.fresh [WithMaxSize 1])
  /\ 0 <= size (fst Sample.opened)
       <= Z.max (maxSize (Sample.fresh [WithMaxSize 1])) 1.
Proof.
  apply (size_stays_within_the_maximum "logs/app" [WithMaxSize 1]
           (Sample.fresh [WithMaxSize 1]) 1 [OpWrite [Byte.x61]]
           Sample.emptyWorld (fst Sample.opened) (snd Sample.opened) 1).
  - reflexivity.
  - lia.
  - vm_compute. discriminate.
  - repeat constructor. vm_compute. discriminate.
  - vm_compute. reflexivity.
Defined.

(** ** The generation *)

Lemma probe_bound {ext : Externals} (rot : Duration) (fuel : nat) :
  forall (d : fileout) (wd : World) (a : string) (d' : fileout) (wd' : World),
    probe fuel rot d wd = Ok a d' wd' ->
    minInt64 <= generation d ->
    generation d + Z.of_nat fuel <= maxInt64 + 1 ->
    generation d <= generation d' < generation d + Z.of_nat fuel.
Proof.
  induction fuel as [|fuel IH]; intros d wd a d' wd' H Hlo Hhi.
  - discriminate.
  - destruct (taken d rot wd (generation d)) eqn:Ht.
    + rewrite (probe_taken _ _ _ _ Ht) in H.
      destruct fuel as [|fuel']; [discriminate H|].
      assert (E : add64 (generation d) 1 = generation d + 1)
        by (apply add64_small; unfold inInt64, minInt64, maxInt64 in *; lia).
      apply IH in H; cbn [generation set_generation] in H |- *;
        rewrite E in *; lia.
    + rewrite (probe_free _ _ _ _ Ht) in H. injection H as _ <- _. lia.
Qed.

Lemma probeStart_generation {ext : Externals} (d : fileout) (wd : World)
    (b : list Byte.byte) :
  0 <= generation d -> generation d + 1 <= maxInt64 ->
  generation d <= generation (fst (probeStart d wd b)) <= generation d + 9.
Proof.
  intros Hlo Hhi. unfold probeStart.
  set (d1 := bumped (bucketed d wd) (Z.of_nat (List.length b))).
  destruct (bucketed_frame d wd) as (_ & _ & _ & Egen & _).
  assert (Hb : generation d1 = generation d \/ generation d1 = generation d + 1).
  { unfold d1, bumped. destruct (_ <? _); [right | now left].
    cbn [generation set_generation]. rewrite Egen. apply add64_small.
    unfold inInt64, minInt64, maxInt64 in *. lia. }
  destruct (signalled_frame d1) as (_ & _ & _ & _ & _ & _ & _ & Sg).
  unfold settled. destruct (ditto (signalled d1) wd) eqn:Hd.
  - apply ditto_window in Hd. destruct Hd as (_ & Hlt). rewrite Sg in Hlt.
    unfold Intn. destruct (randsrc wd) as [|r rest];
      cbn [fst generation set_generation]; [lia|].
    pose proof (Z.mod_pos_bound r randnum ltac:(reflexivity)) as Hr.
    unfold randnum in *. lia.
  - cbn [fst]. rewrite Sg. lia.
Qed.

Lemma getWriter_generation {ext : Externals} (fuel : nat) (b : list Byte.byte)
    (c : bool) (d : fileout) (wd : World)
    (r : option Writer * option error) (d' : fileout) (wd' : World) :
  getWriter fuel b c d wd = Ok r d' wd' ->
  0 <= generation d -> generation d + Z.of_nat fuel + 9 <= maxInt64 ->
  generation d <= generation d' <= generation d + Z.of_nat fuel + 9.
Proof.
  intros H Hlo Hhi. rewrite getWriter_eq in H.
  destruct (bucketed_frame d wd) as (_ & _ & _ & Egen & _).
  destruct (needsNewFile _ _ _ _).
  - rewrite newFile_eq in H.
    change (settled (bumped (bucketed d wd) (Z.of_nat (List.length b))) wd)
      with (probeStart d wd b) in H.
    pose proof (probeStart_generation d wd b Hlo ltac:(lia)) as Hps.
    destruct (probe fuel (rotationTime d) (fst (probeStart d wd b))
                (snd (probeStart d wd b))) as [filename d4 wd4| |] eqn:Hp;
      try discriminate H.
    apply probe_bound in Hp; [|unfold minInt64; lia|lia].
    assert (Hg : generation d <= generation d4 <= generation d + Z.of_nat fuel + 9)
      by lia.
    destruct c; cbn [negb] in H.
    + destruct (createFile filename d4 wd4) as [[nf|err] d5 wd5| |] eqn:Hc;
        try discriminate H; apply createFile_frame in Hc; subst d5;
        injection H as _ <- _; exact Hg.
    + injection H as _ <- _. exact Hg.
  - injection H as _ <- _. rewrite Egen. lia.
Qed.

Lemma step_generation {ext : Externals} (fuel : nat) (o : Op) (d : fileout)
    (wd : World) (d' : fileout) (wd' : World) :
  step fuel o d wd = Ok tt d' wd' ->
  0 <= generation d -> generation d + Z.of_nat fuel + 9 <= maxInt64 ->
  generation d <= generation d' <= generation d + Z.of_nat fuel + 9.
Proof.
  intros Hstep Hlo Hhi.
  assert (Hsame : generation d <= generation d <= generation d + Z.of_nat fuel + 9)
    by lia.
  destruct o as [b| | | | |f]; cbn [step] in Hstep.
  - unfold Write in Hstep. cbv beta iota zeta delta [bind ret modify] in Hstep.
    destruct (getWriter fuel b true d wd) as [[wr err] d1 wd1| |] eqn:Hg;
      try discriminate Hstep.
    pose proof (getWriter_generation _ _ _ _ _ _ _ _ Hg Hlo Hhi) as Hgen.
    destruct wr as [wr|], err as [e|]; try discriminate Hstep;
      try (injection Hstep as <- _; exact Hgen).
    unfold w_Write in Hstep. destruct (w d1) as [bw|]; [|discriminate Hstep].
    destruct (Writer_Write bw (N.of_nat (List.length b)) wd1)
      as [[[n err] bw'] wd2].
    injection Hstep as <- _. exact Hgen.
  - unfold Sync, w_Flush in Hstep. cbv beta iota zeta delta [bind ret] in Hstep.
    destruct (w d) as [bw|]; [|discriminate Hstep].
    destruct (Flush bw wd) as [[e bw'] wd1].
    injection Hstep as <- _. exact Hsame.
  - unfold Close in Hstep. cbv beta iota zeta delta [bind ret] in Hstep.
    rewrite close_eq in Hstep. injection Hstep as <- _. exact Hsame.
  - cbv beta iota zeta delta [bind this when ret] in Hstep.
    destruct (startMill d); [|injection Hstep as <- _; exact Hsame].
    unfold stduffRun_recv in Hstep.
    cbv beta iota zeta delta [bind this modify ret] in Hstep.
    destruct (oldStuff d) as [[|stduff rest]|];
      try (injection Hstep as <- _; exact Hsame).
    destruct (stduffHandler_frame stduff (set_oldStuff (Some rest) d) wd)
      as (r & wd1 & E).
    rewrite E in Hstep. injection Hstep as <- _. exact Hsame.
  - cbv beta iota zeta delta [bind this when ret] in Hstep.
    destruct (startMill d && (0 <? rotationTime d));
      [|injection Hstep as <- _; exact Hsame].
    unfold stduffRun_tick in Hstep.
    cbv beta iota zeta delta [bind this ret] in Hstep.
    assert (Hdry : match getWriter fuel [] false d wd with
                   | Ok _ d'0 wd'0 => Ok tt d'0 wd'0
                   | Panic => Panic
                   | OutOfFuel => OutOfFuel
                   end = Ok tt d' wd' ->
                   generation d <= generation d'
                   <= generation d + Z.of_nat fuel + 9).
    { destruct (getWriter fuel [] false d wd) as [r d1 wd1| |] eqn:Hg;
        try discriminate.
      intros [= <- _]. exact (getWriter_generation _ _ _ _ _ _ _ _ Hg Hlo Hhi). }
    destruct (oldStuff d) as [[|x l]|]; try (apply Hdry; exact Hstep).
    injection Hstep as <- _. exact Hsame.
  - injection Hstep as <- _. exact Hsame.
Qed.

(** X15: the generation only grows.  Along every run that starts at a
    non-negative generation (0 for a writer made by [NewFileout]), the
    generation never decreases, whatever fails around it and also when
    the bucket changes, and each operation raises it by at most the budget
    of the probe loop plus 9 (the random start); the generation is never
    reset. *)
Theorem generation_never_decreases {ext : Externals} (fuel : nat)
    (ops : list Op) :
  forall (d : fileout) (wd : World) (d' : fileout) (wd' : World),
    run fuel ops d wd = Ok tt d' wd' ->
    0 <= generation d ->
    generation d + Z.of_nat (List.length ops) * (Z.of_nat fuel + 9) <= maxInt64 ->
    generation d <= generation d'
    <= generation d + Z.of_nat (List.length ops) * (Z.of_nat fuel + 9).
Proof.
  induction ops as [|o ops IH]; intros d wd d' wd' Hrun Hlo Hhi;
    cbn [run List.length] in *.
  - injection Hrun as <- _. lia.
  - rewrite Nat2Z.inj_succ, Z.mul_succ_l in *.
    unfold bind at 1 in Hrun.
    destruct (step fuel o d wd) as [[] d1 wd1| |] eqn:Hs; try discriminate Hrun.
    assert (Hpos : 0 <= Z.of_nat (List.length ops) * (Z.of_nat fuel + 9))
      by (apply Z.mul_nonneg_nonneg; lia).
    pose proof (step_generation _ _ _ _ _ _ Hs Hlo ltac:(lia)) as H1.
    pose proof (IH _ _ _ _ Hrun ltac:(lia) ltac:(lia)) as H2.
    lia.
Qed.

Lemma generation_never_decreases_witness :
  generation (Sample.fresh [WithMaxSize 1]) <= generation (fst Sample.opened)
  <= generation (Sample.fresh [WithMaxSize 1])
     + Z.of_nat (List.length [OpWrite [Byte.x61]]) * (Z.of_nat 1 + 9).
Proof.
  apply (generation_never_decreases 1 [OpWrite [Byte.x61]]
           (Sample.fresh [WithMaxSize 1]) Sample.emptyWorld
           (fst Sample.opened) (snd Sample.opened)).
  - vm_compute. reflexivity.
  - vm_compute. discriminate.
  - vm_compute. discriminate.
Defined.

(** ** The rotation interval of a minute or more *)

Lemma wrap64_fixed (z t : Z) :
  wrap64 z = t -> exists q, z - t = 2 ^ 64 * q.
Proof.
  unfold wrap64. intros H.
  pose proof (Z.div_mod (z + 2 ^ 63) (2 ^ 64) ltac:(lia)) as E.
  exists ((z + 2 ^ 63) / 2 ^ 64). lia.
Qed.

(** X16: a configured interval of one minute or more.  [rotationTime]
    multiplies it by [time.Minute]: for every such value the product
    leaves the range of [int64], so the effective interval is the wrapped
    product, and it is never the configured value. *)
Theorem rotationTime_of_a_minute_or_more {ext : Externals} (l : fileout) :
  Minute <= Options.rotationTime (opt l) <= maxInt64 ->
  maxInt64 < Options.rotationTime (opt l) * Minute
  /\ rotationTime l = wrap64 (Options.rotationTime (opt l) * Minute)
  /\ rotationTime l <> Options.rotationTime (opt l).
Proof.
  intros (Hlo & Hhi). set (t := Options.rotationTime (opt l)) in *.
  assert (HM : Minute = 60000000000) by reflexivity.
  assert (Eq : rotationTime l = wrap64 (t * Minute)).
  { unfold rotationTime. fold t.
    destruct (Z.ltb_spec t 0); [lia|].
    destruct (Z.ltb_spec t Minute); [lia | reflexivity]. }
  split; [unfold maxInt64; nia|]. split; [exact Eq|].
  rewrite Eq. intros Hfix. apply wrap64_fixed in Hfix. destruct Hfix as (q & Hq).
  assert (Hdiv : (2 ^ 64 | 59999999999 * t)).
  { exists q. rewrite HM in Hq. lia. }
  apply Z.gauss in Hdiv; [|reflexivity].
  apply Z.divide_pos_le in Hdiv; unfold maxInt64 in *; lia.
Qed.

Lemma rotationTime_of_a_minute_or_more_witness :
  maxInt64 < Hour * Minute
  /\ rotationTime (Sample.fresh [WithRotationTime Hour]) = wrap64 (Hour * Minute)
  /\ rotationTime (Sample.fresh [WithRotationTime Hour]) <> Hour.
Proof.
  apply (rotationTime_of_a_minute_or_more (Sample.fresh [WithRotationTime Hour])).
  vm_compute. split; discriminate.
Defined.

(** With five minutes configured, the wrapped product is negative:
    [getWriter] computes no name for now and time-based rotation is
    off. *)
Example rotationTime_of_five_minutes :
  rotationTime (Sample.fresh [WithRotationTime (5 * Minute)]) = -4022215940522377216
  /\ nameNow (Sample.fresh [WithRotationTime (5 * Minute)]) Sample.emptyWorld = "".
Proof. vm_compute. split; reflexivity. Qed.

(** ** Writing after [Close] *)

(** X17: a write after [Close] is accepted and lost.  [Close] keeps the
    handle of the closed file, so while the name for now and the size ask
    for no new file, a later [Write] that fits the buffer opens nothing,
    makes no system call and reports all its bytes written without error;
    the bytes cannot reach the file: the next [Sync] tries the one write
    to the closed descriptor and returns "file already closed", and no
    file has changed. *)
Theorem Write_after_Close_is_lost {ext : Externals} (fuel : nat)
    (b : list Byte.byte) (d : fileout) (wd : World) (f : File) (bw : Writer) :
  fr d = Some f -> w d = Some bw -> b_wr bw = f -> b_err bw = None ->
  fds wd (Fd f) = None ->
  (0 < rotationTime d -> nameNow d wd = Name f) ->
  minInt64 <= size d -> size d + Z.of_nat (List.length b) <= maxSize d ->
  (0 < N.of_nat (List.length b) <= Available bw)%N ->
  exists d1,
    Write fuel b d wd = Ok (N.of_nat (List.length b), None) d1 wd
    /\ fr d1 = Some f
    /\ exists d2 wd2,
         Sync d1 wd = Ok (Some ErrClosed) d2 wd2
         /\ files wd2 = files wd
         /\ trace wd2
            = CallWrite (Fd f) (b_n bw + N.of_nat (List.length b)) :: trace wd.
Proof.
  intros Hfr Hw Hwr Herr Hfd Hname Hlo Hle (Hpos & Hfit).
  pose proof (needsNewFile_false d wd f (Z.of_nat (List.length b)) Hfr Hname Hlo
                ltac:(lia) Hle) as Hneed.
  destruct (bucketed_frame d wd) as (Efr & Ew & _).
  unfold Write. unfold bind at 1. rewrite getWriter_eq, Hneed, Ew, Hw.
  cbv beta iota. unfold bind at 1. unfold w_Write. rewrite Ew, Hw.
  unfold Writer_Write. cbn [Writer_loop]. rewrite Herr.
  destruct (N.ltb_spec (Available bw) (N.of_nat (List.length b))); [lia|].
  rewrite Herr. cbv beta iota zeta delta [bind modify ret fst].
  rewrite N.add_0_l, (N.min_r _ _ Hfit).
  eexists. split; [reflexivity|].
  cbn [fr set_size set_w]. split; [now rewrite Efr|].
  unfold Sync, w_Flush. cbn [w set_size set_w].
  unfold Flush. cbn [b_err b_n b_wr b_len].
  destruct (N.eqb_spec (b_n bw + N.of_nat (List.length b)) 0); [lia|].
  unfold File_Write. cbn [fds called]. rewrite Hwr, Hfd.
  eexists. eexists. split; [reflexivity|]. split; reflexivity.
Qed.

Lemma Write_after_Close_is_lost_witness :
  exists d1,
    Write 1 [Byte.x61] (fst Sample.closed) (snd Sample.closed)
    = Ok (1%N, None) d1 (snd Sample.closed)
    /\ fr d1 = Some (mkFile "logs/app.60000.7.tmp" 3)
    /\ exists d2 wd2,
         Sync d1 (snd Sample.closed) = Ok (Some ErrClosed) d2 wd2
         /\ files wd2 = files (snd Sample.closed)
         /\ trace wd2 = CallWrite 3 1 :: trace (snd Sample.closed).
Proof.
  apply (Write_after_Close_is_lost 1 [Byte.x61] (fst Sample.closed)
           (snd Sample.closed) (mkFile "logs/app.60000.7.tmp" 3)
           (mkWriter (mkFile "logs/app.60000.7.tmp" 3) 4194304 0 None)).
  - vm_compute. reflexivity.
  - vm_compute. reflexivity.
  - reflexivity.
  - reflexivity.
  - vm_compute. reflexivity.
  - intros _. vm_compute. reflexivity.
  - vm_compute. discriminate.
  - vm_compute. discriminate.
  - vm_compute. split; [reflexivity | discriminate].
Defined.

(** ** The buffer behind the file *)

Lemma bufsize_opt {ext : Externals} (d d' : fileout) :
  opt d' = opt d -> capacity d' = capacity d.
Proof. intros E. unfold capacity, bufsize. now rewrite E. Qed.

Lemma closeFlush_buffered {ext : Externals} (cap : N) (d : fileout) (wd : World) :
  (forall bw, w d = Some bw -> b_len bw = cap) ->
  forall bw, fst (closeFlush d wd) = Some bw -> b_len bw = cap.
Proof.
  intros Hcap bw E. destruct (closeFlush_spec d wd) as (_ & Hnone & Hsome).
  destruct (w d) as [b0|].
  - destruct (Hsome b0 eq_refl) as (b' & E' & _ & Hlen).
    rewrite E' in E. injection E as <-. rewrite Hlen. now apply Hcap.
  - rewrite (Hnone eq_refl) in E. discriminate E.
Qed.

Lemma getWriter_buffered {ext : Externals} (fuel : nat) (b : list Byte.byte)
    (c : bool) (d : fileout) (wd : World)
    (r : option Writer * option error) (d' : fileout) (wd' : World) :
  getWriter fuel b c d wd = Ok r d' wd' ->
  buffered (capacity d) d -> buffered (capacity d) d'.
Proof.
  rewrite getWriter_eq.
  destruct (probeStart_frame d wd b) as ((So & _ & _ & Sw & Sfr) & _).
  destruct (bucketed_frame d wd) as (Efr & Ew & _).
  intros H (Hcap & Hfile).
  destruct (needsNewFile _ _ _ _).
  - rewrite newFile_eq in H.
    change (settled (bumped (bucketed d wd) (Z.of_nat (List.length b))) wd)
      with (probeStart d wd b) in H.
    destruct (probe fuel (rotationTime d) (fst (probeStart d wd b))
                (snd (probeStart d wd b))) as [filename d4 wd4| |] eqn:Hp;
      try discriminate H.
    destruct (probe_frame _ _ _ _ _ _ _ Hp) as (g & ->).
    set (d4 := set_generation g (fst (probeStart d wd b))) in *.
    assert (Hw4 : w d4 = w d) by exact Sw.
    assert (Hcap4 : forall bw, w d4 = Some bw -> b_len bw = capacity d)
      by (intros bw E; apply Hcap; now rewrite <- Hw4).
    destruct c; cbn [negb] in H.
    + destruct (createFile filename d4 wd4) as [[nf|err] d5 wd5| |] eqn:Hc;
        try discriminate H; apply createFile_frame in Hc; subst d5.
      * injection H as _ <- _. split.
        -- intros bw. cbn [w set_fr set_size set_w]. intros [= <-].
           unfold swapped.
           destruct (fst (closeFlush d4 wd5)) as [bw|] eqn:E.
           ++ cbn [Reset b_len]. exact (closeFlush_buffered _ d4 wd5 Hcap4 bw E).
           ++ unfold NewWriterSize, capacity. cbn [b_len].
              unfold bufsize. unfold d4. cbn [opt set_generation].
              now rewrite So.
        -- intros f. cbn [w fr set_fr set_size set_w]. intros [= <-].
           eexists. split; [reflexivity|].
           unfold swapped. now destruct (fst (closeFlush d4 wd5)).
      * injection H as _ <- _. split; [exact Hcap4|].
        intros f E. rewrite Hw4. apply Hfile. rewrite <- E. symmetry. exact Sfr.
    + injection H as _ <- _. split.
      * intros bw. cbn [w set_fr set_size set_w].
        exact (closeFlush_buffered _ d4 wd4 Hcap4 bw).
      * intros f. cbn [fr set_fr]. discriminate.
  - injection H as _ <- _. split.
    + intros bw. rewrite Ew. apply Hcap.
    + intros f. rewrite Efr, Ew. apply Hfile.
Qed.

Lemma getWriter_opt {ext : Externals} (fuel : nat) (b : list Byte.byte)
    (c : bool) (d : fileout) (wd : World)
    (r : option Writer * option error) (d' : fileout) (wd' : World) :
  getWriter fuel b c d wd = Ok r d' wd' -> opt d' = opt d.
Proof.
  intros H. pose proof (getWriter_cases fuel b c d wd) as Hc.
  rewrite H in Hc. destruct r as [wr err]. apply Hc.
Qed.

Lemma step_buffered {ext : Externals} (fuel : nat) (o : Op) (d : fileout)
    (wd : World) (d' : fileout) (wd' : World) :
  step fuel o d wd = Ok tt d' wd' ->
  buffered (capacity d) d -> opt d' = opt d /\ buffered (capacity d) d'.
Proof.
  intros Hstep Hinv. destruct o as [b| | | | |f]; cbn [step] in Hstep.
  - unfold Write in Hstep. cbv beta iota zeta delta [bind ret modify] in Hstep.
    destruct (getWriter fuel b true d wd) as [[wr err] d1 wd1| |] eqn:Hg;
      try discriminate Hstep.
    pose proof (getWriter_opt _ _ _ _ _ _ _ _ Hg) as Eo.
    pose proof (getWriter_buffered _ _ _ _ _ _ _ _ Hg Hinv) as Hinv1.
    destruct wr as [wr|], err as [e|]; try discriminate Hstep;
      try (injection Hstep as <- _; split; [exact Eo | exact Hinv1]).
    unfold w_Write in Hstep. destruct (w d1) as [bw|] eqn:Ew; [|discriminate Hstep].
    pose proof (Writer_Write_spec bw (N.of_nat (List.length b)) wd1) as Hspec.
    destruct (Writer_Write bw (N.of_nat (List.length b)) wd1)
      as [[[n err] bw'] wd2].
    destruct Hspec as (_ & _ & Hwr & Hlen).
    injection Hstep as <- _. split; [exact Eo|].
    destruct Hinv1 as (Hcap & Hfile). split.
    + intros bw0. cbn [w set_size set_w]. intros [= <-].
      rewrite Hlen. now apply Hcap.
    + intros f0. cbn [w fr set_size set_w]. intros E.
      destruct (Hfile f0 E) as (bw0 & E0 & Hwr0).
      rewrite Ew in E0. injection E0 as <-.
      exists bw'. split; [reflexivity | congruence].
  - unfold Sync, w_Flush in Hstep. cbv beta iota zeta delta [bind ret] in Hstep.
    destruct (w d) as [bw|] eqn:Ew; [|discriminate Hstep].
    pose proof (Flush_spec bw wd) as Hspec.
    destruct (Flush bw wd) as [[e bw'] wd1]. destruct Hspec as (_ & Hwr & Hlen).
    injection Hstep as <- _. split; [reflexivity|].
    destruct Hinv as (Hcap & Hfile). split.
    + intros bw0. cbn [w set_w]. intros [= <-]. rewrite Hlen. now apply Hcap.
    + intros f0. cbn [w fr set_w]. intros E.
      destruct (Hfile f0 E) as (bw0 & E0 & Hwr0).
      rewrite Ew in E0. injection E0 as <-.
      exists bw'. split; [reflexivity | congruence].
  - unfold Close in Hstep. cbv beta iota zeta delta [bind ret] in Hstep.
    rewrite close_eq in Hstep. injection Hstep as <- _. split; [reflexivity|].
    destruct Hinv as (Hcap & Hfile). split.
    + intros bw. cbn [w set_w]. exact (closeFlush_buffered _ d wd Hcap bw).
    + intros f0. cbn [w fr set_w]. intros E.
      destruct (Hfile f0 E) as (bw0 & E0 & Hwr0).
      destruct (closeFlush_spec d wd) as (_ & _ & Hsome).
      destruct (Hsome bw0 E0) as (bw' & E' & Hwr' & _).
      exists bw'. split; [exact E' | congruence].
  - cbv beta iota zeta delta [bind this when ret] in Hstep.
    destruct (startMill d); [|injection Hstep as <- _; now split].
    unfold stduffRun_recv in Hstep.
    cbv beta iota zeta delta [bind this modify ret] in Hstep.
    destruct (oldStuff d) as [[|stduff rest]|];
      try (injection Hstep as <- _; now split).
    destruct (stduffHandler_frame stduff (set_oldStuff (Some rest) d) wd)
      as (r & wd1 & E).
    rewrite E in Hstep. injection Hstep as <- _. now split.
  - cbv beta iota zeta delta [bind this when ret] in Hstep.
    destruct (startMill d && (0 <? rotationTime d));
      [|injection Hstep as <- _; now split].
    unfold stduffRun_tick in Hstep.
    cbv beta iota zeta delta [bind this ret] in Hstep.
    assert (Hdry : match getWriter fuel [] false d wd with
                   | Ok _ d'0 wd'0 => Ok tt d'0 wd'0
                   | Panic => Panic
                   | OutOfFuel => OutOfFuel
                   end = Ok tt d' wd' ->
                   opt d' = opt d /\ buffered (capacity d) d').
    { destruct (getWriter fuel [] false d wd) as [r d1 wd1| |] eqn:Hg;
        try discriminate.
      intros [= <- _].
      split; [exact (getWriter_opt _ _ _ _ _ _ _ _ Hg)
             | exact (getWriter_buffered _ _ _ _ _ _ _ _ Hg Hinv)]. }
    destruct (oldStuff d) as [[|x l]|]; try (apply Hdry; exact Hstep).
    injection Hstep as <- _. now split.
  - injection Hstep as <- _. now split.
Qed.

(** X18: one buffer, behind the open file.  Along every run of a writer
    made by [NewFileout], whatever fails around it, the buffered writer,
    once made, has the capacity [bufio.NewWriterSize] gives for the
    configured [bufsize] (rotations reset it and never make another), and
    whenever a file is open the buffered writer writes to that file. *)
Theorem buffer_follows_the_file {ext : Externals} (name : string)
    (opts : list Option) (d0 : fileout) (fuel : nat) (ops : list Op)
    (wd : World) (d : fileout) (wd' : World) :
  NewFileout name opts = inl d0 ->
  run fuel ops d0 wd = Ok tt d wd' ->
  (forall bw, w d = Some bw -> b_len bw = capacity d0 /\ (0 < b_len bw)%N)
  /\ (forall f, fr d = Some f -> exists bw, w d = Some bw /\ b_wr bw = f).
Proof.
  intros Hnew Hrun.
  assert (H0 : buffered (capacity d0) d0).
  { unfold NewFileout in Hnew. destruct (strftime_New name); [|discriminate Hnew].
    injection Hnew as <-. split; cbn [w fr]; discriminate. }
  clear Hnew.
  assert (Hgen : forall d1 wd1,
            opt d1 = opt d0 -> buffered (capacity d0) d1 ->
            run fuel ops d1 wd1 = Ok tt d wd' -> buffered (capacity d0) d).
  { clear H0 Hrun wd. induction ops as [|o ops IH]; intros d1 wd1 Eo Hinv; cbn [run].
    - now intros [= <- _].
    - unfold bind at 1.
      destruct (step fuel o d1 wd1) as [[] d2 wd2| |] eqn:Hs; try discriminate.
      rewrite <- (bufsize_opt d0 d1 Eo) in Hinv.
      destruct (step_buffered _ _ _ _ _ _ Hs Hinv) as (Eo2 & Hinv2).
      rewrite (bufsize_opt d0 d1 Eo) in Hinv2.
      apply IH; [congruence | exact Hinv2]. }
  destruct (Hgen d0 wd eq_refl H0 Hrun) as (Hcap & Hfile).
  split; [|exact Hfile].
  intros bw E. rewrite (Hcap bw E). split; [reflexivity|].
  unfold capacity. destruct (Z.leb_spec (bufsize d0) 0); lia.
Qed.

Lemma buffer_follows_the_file_witness :
  (forall bw, w (fst Sample.opened) = Some bw ->
     b_len bw = capacity (Sample.fresh [WithMaxSize 1]) /\ (0 < b_len bw)%N)
  /\ (forall f, fr (fst Sample.opened) = Some f ->
        exists bw, w (fst Sample.opened) = Some bw /\ b_wr bw = f).
Proof.
  apply (buffer_follows_the_file "logs/app" [WithMaxSize 1]
           (Sample.fresh [WithMaxSize 1]) 1 [OpWrite [Byte.x61]]
           Sample.emptyWorld (fst Sample.opened) (snd Sample.opened)).
  - reflexivity.
  - vm_compute. reflexivity.
Defined.

(** ** The channel of the worker *)

Lemma channel_same {ext : Externals} (d d' : fileout) :
  oldStuff d' = oldStuff d -> startMill d' = startMill d ->
  match_ d' = match_ d -> channel d -> channel d'.
Proof. unfold channel. intros -> -> ->. trivial. Qed.

Lemma signalled_channel {ext : Externals} (d : fileout) :
  channel d -> channel (signalled d).
Proof.
  unfold channel, signalled.
  destruct (startMill d) eqn:Es.
  - destruct (oldStuff d) as [[|p [|q l]]|] eqn:Eo;
      cbn [oldStuff startMill match_ set_oldStuff]; rewrite ?Eo, ?Es;
      try trivial; try discriminate.
    now split.
  - destruct (oldStuff d) as [[|p [|q l]]|];
      cbn [oldStuff startMill match_ set_oldStuff set_startMill];
      try discriminate; try contradiction.
    + now intros (H & _).
    + now split.
Qed.

Lemma settled_channel {ext : Externals} (d : fileout) (wd : World) :
  oldStuff (fst (settled d wd)) = oldStuff (signalled d)
  /\ startMill (fst (settled d wd)) = startMill (signalled d).
Proof.
  unfold settled. destruct (ditto (signalled d) wd); [|now split].
  destruct (Intn randnum wd). now split.
Qed.

Lemma getWriter_channel {ext : Externals} (fuel : nat) (b : list Byte.byte)
    (c : bool) (d : fileout) (wd : World)
    (r : option Writer * option error) (d' : fileout) (wd' : World) :
  getWriter fuel b c d wd = Ok r d' wd' ->
  channel d -> match_ d' = match_ d /\ channel d'.
Proof.
  rewrite getWriter_eq.
  destruct (probeStart_frame d wd b) as ((_ & _ & Sm & _) & _).
  destruct (bucketed_frame d wd) as (_ & _ & _ & _ & _ & _ & Em & Eold & Est).
  intros H Hch.
  assert (Hps : channel (fst (probeStart d wd b))).
  { unfold probeStart.
    set (d1 := bumped (bucketed d wd) (Z.of_nat (List.length b))).
    destruct (settled_channel d1 wd) as (E1 & E2).
    destruct (settled_frame d1 wd) as ((_ & _ & _ & Sm1 & _) & _).
    destruct (signalled_frame d1) as (_ & _ & _ & Sm2 & _).
    apply (channel_same (signalled d1)); [exact E1 | exact E2 | congruence|].
    apply signalled_channel.
    apply (channel_same d); [| | |exact Hch]; unfold d1, bumped;
      destruct (_ <? _); cbn [oldStuff startMill match_ set_generation];
      assumption. }
  destruct (needsNewFile _ _ _ _).
  - rewrite newFile_eq in H.
    change (settled (bumped (bucketed d wd) (Z.of_nat (List.length b))) wd)
      with (probeStart d wd b) in H.
    destruct (probe fuel (rotationTime d) (fst (probeStart d wd b))
                (snd (probeStart d wd b))) as [filename d4 wd4| |] eqn:Hp;
      try discriminate H.
    destruct (probe_frame _ _ _ _ _ _ _ Hp) as (g & ->).
    destruct c; cbn [negb] in H.
    + destruct (createFile filename _ wd4) as [[nf|err] d5 wd5| |] eqn:Hc;
        try discriminate H; apply createFile_frame in Hc; subst d5;
        injection H as _ <- _; (split; [exact Sm | exact Hps]).
    + injection H as _ <- _. split; [exact Sm | exact Hps].
  - injection H as _ <- _. split; [exact Em|].
    now apply (channel_same d).
Qed.

Lemma step_channel {ext : Externals} (fuel : nat) (o : Op) (d : fileout)
    (wd : World) (d' : fileout) (wd' : World) :
  step fuel o d wd = Ok tt d' wd' ->
  channel d -> match_ d' = match_ d /\ channel d'.
Proof.
  intros Hstep Hch. destruct o as [b| | | | |f]; cbn [step] in Hstep.
  - unfold Write in Hstep. cbv beta iota zeta delta [bind ret modify] in Hstep.
    destruct (getWriter fuel b true d wd) as [[wr err] d1 wd1| |] eqn:Hg;
      try discriminate Hstep.
    pose proof (getWriter_channel _ _ _ _ _ _ _ _ Hg Hch) as H1.
    destruct wr as [wr|], err as [e|]; try discriminate Hstep;
      try (injection Hstep as <- _; exact H1).
    unfold w_Write in Hstep. destruct (w d1) as [bw|]; [|discriminate Hstep].
    destruct (Writer_Write bw (N.of_nat (List.length b)) wd1)
      as [[[n err] bw'] wd2].
    injection Hstep as <- _. exact H1.
  - unfold Sync, w_Flush in Hstep. cbv beta iota zeta delta [bind ret] in Hstep.
    destruct (w d) as [bw|]; [|discriminate Hstep].
    destruct (Flush bw wd) as [[e bw'] wd1].
    injection Hstep as <- _. now split.
  - unfold Close in Hstep. cbv beta iota zeta delta [bind ret] in Hstep.
    rewrite close_eq in Hstep. injection Hstep as <- _. now split.
  - cbv beta iota zeta delta [bind this when ret] in Hstep.
    destruct (startMill d) eqn:Es; [|injection Hstep as <- _; now split].
    unfold stduffRun_recv in Hstep.
    cbv beta iota zeta delta [bind this modify ret] in Hstep.
    destruct (oldStuff d) as [[|stduff rest]|] eqn:Eo;
      try (injection Hstep as <- _; now split).
    destruct (stduffHandler_frame stduff (set_oldStuff (Some rest) d) wd)
      as (r & wd1 & E).
    rewrite E in Hstep. injection Hstep as <- _. split; [reflexivity|].
    unfold channel in *. rewrite Eo in Hch.
    cbn [oldStuff startMill match_ set_oldStuff].
    destruct rest; [exact Es | contradiction].
  - cbv beta iota zeta delta [bind this when ret] in Hstep.
    destruct (startMill d && (0 <? rotationTime d));
      [|injection Hstep as <- _; now split].
    unfold stduffRun_tick in Hstep.
    cbv beta iota zeta delta [bind this ret] in Hstep.
    assert (Hdry : match getWriter fuel [] false d wd with
                   | Ok _ d'0 wd'0 => Ok tt d'0 wd'0
                   | Panic => Panic
                   | OutOfFuel => OutOfFuel
                   end = Ok tt d' wd' ->
                   match_ d' = match_ d /\ channel d').
    { destruct (getWriter fuel [] false d wd) as [r d1 wd1| |] eqn:Hg;
        try discriminate.
      intros [= <- _]. exact (getWriter_channel _ _ _ _ _ _ _ _ Hg Hch). }
    destruct (oldStuff d) as [[|x l]|]; try (apply Hdry; exact Hstep).
    injection Hstep as <- _. now split.
  - injection Hstep as <- _. now split.
Qed.

(** X19: the worker is only ever asked for the writer's own glob.  Along
    every run of a writer made by [NewFileout], the glob [d.match] never
    changes, and the channel is not made until the worker is started,
    then it is empty or holds that glob once, never more: what a wake-up
    of the worker sweeps is the writer's glob, and nothing when nothing is
    pending. *)
Theorem channel_holds_the_glob {ext : Externals} (name : string)
    (opts : list Option) (d0 : fileout) (fuel : nat) (ops : list Op)
    (wd : World) (d : fileout) (wd' : World) :
  NewFileout name opts = inl d0 ->
  run fuel ops d0 wd = Ok tt d wd' ->
  match_ d = match_ d0
  /\ channel d
  /\ step fuel OpRecv d wd'
     = match oldStuff d with
       | Some (_ :: _) =>
           bind (stduffHandler (match_ d0)) (fun _ => ret tt)
                (set_oldStuff (Some []) d) wd'
       | _ => Ok tt d wd'
       end.
Proof.
  intros Hnew Hrun.
  assert (H0 : channel d0).
  { unfold NewFileout in Hnew. destruct (strftime_New name); [|discriminate Hnew].
    injection Hnew as <-. reflexivity. }
  clear Hnew.
  assert (Hgen : forall d1 wd1,
            match_ d1 = match_ d0 -> channel d1 ->
            run fuel ops d1 wd1 = Ok tt d wd' ->
            match_ d = match_ d0 /\ channel d).
  { clear H0 Hrun wd. induction ops as [|o ops IH]; intros d1 wd1 Em Hch; cbn [run].
    - intros [= <- _]. now split.
    - unfold bind at 1.
      destruct (step fuel o d1 wd1) as [[] d2 wd2| |] eqn:Hs; try discriminate.
      destruct (step_channel _ _ _ _ _ _ Hs Hch) as (Em2 & Hch2).
      apply IH; [congruence | exact Hch2]. }
  destruct (Hgen d0 wd eq_refl H0 Hrun) as (Em & Hch).
  split; [exact Em|]. split; [exact Hch|].
  cbn [step]. cbv beta iota zeta delta [bind this when ret].
  unfold channel in Hch.
  destruct (oldStuff d) as [[|p [|q l]]|] eqn:Eo.
  - destruct (startMill d); [|reflexivity].
    unfold stduffRun_recv. cbv beta iota zeta delta [bind this modify ret].
    now rewrite Eo.
  - destruct Hch as (Es & ->). rewrite Es.
    unfold stduffRun_recv. cbv beta iota zeta delta [bind this modify ret].
    rewrite Eo, Em. reflexivity.
  - contradiction.
  - rewrite Hch. reflexivity.
Qed.

Lemma channel_holds_the_glob_witness :
  match_ (fst Sample.opened) = match_ (Sample.fresh [WithMaxSize 1])
  /\ channel (fst Sample.opened)
  /\ step 1 OpRecv (fst Sample.opened) (snd Sample.opened)
     = match oldStuff (fst Sample.opened) with
       | Some (_ :: _) =>
           bind (stduffHandler (match_ (Sample.fresh [WithMaxSize 1])))
                (fun _ => ret tt)
                (set_oldStuff (Some []) (fst Sample.opened)) (snd Sample.opened)
       | _ => Ok tt (fst Sample.opened) (snd Sample.opened)
       end.
Proof.
  apply (channel_holds_the_glob "logs/app" [WithMaxSize 1]
           (Sample.fresh [WithMaxSize 1]) 1 [OpWrite [Byte.x61]]
           Sample.emptyWorld (fst Sample.opened) (snd Sample.opened)).
  - reflexivity.
  - vm_compute. reflexivity.
Defined.
